(** * mistral-ocr: the API client and the Markdown converter

    A shallow embedding of [pkg/mistral/client.go], [cmd/convert.go],
    [cmd/process.go] and [cmd/process_markdown.go], followed by the
    properties of the specification that were settled on it.

    Go strings are byte sequences: they are modelled as [list ascii]
    (an [ascii] is eight bits).  Go's [int] and [int64] are modelled as
    [Z], with the 64-bit wrap-around written out where the code does
    arithmetic.  What the code obtains from the outside world (file
    system, network, the JSON decoder, the iteration order of a Go map,
    the case tables of package unicode) is taken from an explicit
    environment, so that every theorem holds for every behaviour of
    that world. *)

From stdpp Require Import base strings gmap list.
From Stdlib Require Import ZArith Ascii DecimalString.

Open Scope string_scope.
Open Scope list_scope.
Open Scope Z_scope.

(** A string literal stands for its bytes. *)
Coercion String.list_ascii_of_string : string >-> list.

Abbreviation gostring := (list ascii).

(** ** The Go library functions the program calls *)

Module Go.

(** The line feed written [\n] in the Go sources. *)
Definition LF : ascii := "010"%char.
Definition nl : gostring := [LF].

(** [strings.HasPrefix] and [strings.HasSuffix]. *)
Fixpoint HasPrefix (s p : gostring) {struct p} : bool :=
  match p, s with
  | [], _ => true
  | _ :: _, [] => false
  | b :: p', a :: s' => if decide (a = b) then HasPrefix s' p' else false
  end.

Definition HasSuffix (s suffix : gostring) : bool :=
  HasPrefix (reverse s) (reverse suffix).

(** [strings.TrimSuffix]: [s] without the trailing [suffix], or [s]
    itself when it does not end with it. *)
Definition TrimSuffix (s suffix : gostring) : gostring :=
  if HasSuffix s suffix then take (length s - length suffix)%nat s else s.

(** *** Runes *)

(** A byte as a number, and a number below 256 as a byte. *)
Definition code (c : ascii) : Z := Z.of_nat (nat_of_ascii c).
Definition to_byte (n : Z) : ascii := ascii_of_nat (Z.to_nat n).

Definition RuneError : Z := 65533.

Definition within (lo hi b : Z) : bool := (lo <=? b) && (b <=? hi).

(** Whether the first two bytes can start an encoding of three, and of
    four bytes: the ranges of [utf8.DecodeRuneInString], which accepts
    neither overlong forms nor surrogates nor values above U+10FFFF. *)
Definition three (b b1 : Z) : bool :=
  (within 224 224 b && within 160 191 b1)
  || (within 225 236 b && within 128 191 b1)
  || (within 237 237 b && within 128 159 b1)
  || (within 238 239 b && within 128 191 b1).

Definition four (b b1 : Z) : bool :=
  (within 240 240 b && within 144 191 b1)
  || (within 241 243 b && within 128 191 b1)
  || (within 244 244 b && within 128 143 b1).

(** The runes a [range] loop over a string yields: a byte that starts
    no valid encoding is the rune U+FFFD and one byte wide. *)
Fixpoint runes (s : gostring) : list Z :=
  match s with
  | [] => []
  | c :: s1 =>
      let b := code c in
      if b <? 128 then b :: runes s1
      else
        match s1 with
        | [] => RuneError :: runes s1
        | c1 :: s2 =>
            let b1 := code c1 in
            if within 194 223 b && within 128 191 b1 then
              ((b - 192) * 64 + (b1 - 128)) :: runes s2
            else
              match s2 with
              | [] => RuneError :: runes s1
              | c2 :: s3 =>
                  let b2 := code c2 in
                  if three b b1 && within 128 191 b2 then
                    ((b - 224) * 4096 + (b1 - 128) * 64 + (b2 - 128))
                    :: runes s3
                  else
                    match s3 with
                    | [] => RuneError :: runes s1
                    | c3 :: s4 =>
                        let b3 := code c3 in
                        if four b b1 && within 128 191 b2
                           && within 128 191 b3
                        then
                          ((b - 240) * 262144 + (b1 - 128) * 4096
                           + (b2 - 128) * 64 + (b3 - 128))
                          :: runes s4
                        else RuneError :: runes s1
                    end
              end
        end
  end.

(** [utf8.AppendRune]: a value that is no rune is written as U+FFFD. *)
Definition EncodeRune (r : Z) : gostring :=
  if (r <? 0) || (1114111 <? r) || within 55296 57343 r then
    [to_byte 239; to_byte 191; to_byte 189]
  else if r <? 128 then [to_byte r]
  else if r <? 2048 then
    [to_byte (192 + r / 64); to_byte (128 + r mod 64)]
  else if r <? 65536 then
    [to_byte (224 + r / 4096); to_byte (128 + (r / 64) mod 64);
     to_byte (128 + r mod 64)]
  else
    [to_byte (240 + r / 262144); to_byte (128 + (r / 4096) mod 64);
     to_byte (128 + (r / 64) mod 64); to_byte (128 + r mod 64)].

(** [strings.Map]: every rune of the string is replaced by its image,
    and dropped when the image is negative.  (Go copies the bytes of a
    rune that is its own image; they are the bytes [EncodeRune] gives,
    since only well-formed encodings are decoded.) *)
Definition Map (mapping : Z -> Z) (s : gostring) : gostring :=
  flat_map (fun c => let r := mapping c in
                     if r <? 0 then [] else EncodeRune r)
           (runes s).

(** [unicode.ToLower].  Above U+007F the result comes from the case
    tables of package unicode, [unicode.To(unicode.LowerCase, r)]:
    they are data of the library, taken here as the function
    [To_LowerCase]. *)
Definition unicode_ToLower (To_LowerCase : Z -> Z) (r : Z) : Z :=
  if r <=? 127 then
    if (65 <=? r) && (r <=? 90) then r + 32 else r
  else To_LowerCase r.

(** The loop over the bytes of a string without bytes above 127. *)
Definition lower_byte (c : ascii) : ascii :=
  let n := nat_of_ascii c in
  if ((65 <=? n) && (n <=? 90))%nat then ascii_of_nat (n + 32) else c.

Definition isASCII (s : gostring) : bool :=
  forallb (fun c => code c <? 128) s.

(** [strings.ToLower]: bytes ['A'..'Z'] are mapped to ['a'..'z'] when
    all bytes are below 128, and otherwise every rune is mapped by
    [unicode.ToLower]. *)
Definition ToLower (To_LowerCase : Z -> Z) (s : gostring) : gostring :=
  if isASCII s then map lower_byte s
  else Map (unicode_ToLower To_LowerCase) s.

(** The verb [%d] of package fmt on an integer. *)
Definition itoa (n : Z) : gostring :=
  NilZero.string_of_int (Z.to_int n).

(** Go's [int] on the 64-bit platforms the tool is built for. *)
Definition wrap64 (n : Z) : Z :=
  (n + 2 ^ 63) mod 2 ^ 64 - 2 ^ 63.

(** A value together with Go's [error] result; an error is
    represented by its message. *)
Inductive res (A : Type) : Type :=
| Ok (a : A)
| Fail (err : gostring).
Arguments Ok {A} a.
Arguments Fail {A} err.

(** The verb [%v] on an [error] that may be [nil]. *)
Definition fmt_v (err : option gostring) : gostring :=
  match err with
  | Some msg => msg
  | None => "<nil>"
  end.

End Go.

(** ** pkg/mistral/client.go *)

Module Mistral.
Import Go.

Definition BaseURL : gostring := "https://api.mistral.ai/v1".
Definition MaxFileSize : Z := 52 * 1024 * 1024.

(** What the code reads of a [resty.Response]: [StatusCode()],
    [Status()], [Body()] and [String()]. *)
Record Response := {
  StatusCode : Z;
  Status : gostring;
  Body : gostring;
  String_ : gostring
}.

(** The two results of a resty request: an error, or a response. *)
Inductive reply :=
| NetError (err : gostring)
| Reply (resp : Response).

Inductive payload :=
| NoBody
| Multipart (file : gostring) (form : list (gostring * gostring))
| JSONBody (model : gostring) (document : gmap gostring gostring)
           (include_image_base64 : bool).

Record Request := {
  Method : gostring;
  URL : gostring;
  Headers : list (gostring * gostring);
  Payload : payload
}.

(** What the client does to the outside world, in order. *)
Inductive event :=
| Send (r : Request)
| Sleep (seconds : Z).

(** The world the client runs in.  [net k] is the outcome of the
    request sent after [k] earlier ones. *)
Record Env := {
  Stat : gostring -> res Z;
  net : nat -> reply;
(** [json.Unmarshal] into a struct with the one field [id] (resp.
    [url]): the field's value, empty when absent, or the error. *)
Unmarshal_id : gostring -> res gostring;
Unmarshal_url : gostring -> res gostring;
json_Valid : gostring -> bool;
(** [%.2f] applied to [float64(n)/1024/1024]. *)
fmt_MB : Z -> gostring
}.

Record world := {
  sent : nat;
  trace : list event
}.

Definition start : world := {| sent := 0; trace := [] |}.

(** A small state monad over the world. *)
Definition M (A : Type) : Type := world -> A * world.

Definition ret {A} (a : A) : M A := fun w => (a, w).

Definition bind {A B} (m : M A) (k : A -> M B) : M B :=
  fun w => let (a, w') := m w in k a w'.

Notation "x <- m ;; k" := (bind m (fun x => k))
  (at level 100, m at next level, right associativity).
Notation "m ;;; k" := (bind m (fun _ => k))
  (at level 100, right associativity).

Section Client.
Variable env : Env.
Variable APIKey : gostring.

Definition send (r : Request) : M reply :=
  fun w => (net env (sent w),
            {| sent := S (sent w); trace := trace w ++ [Send r] |}).

Definition sleep (seconds : Z) : M unit :=
  fun w => (tt, {| sent := sent w; trace := trace w ++ [Sleep seconds] |}).

Definition status_error (code : Z) (msg : gostring) : gostring :=
  "API returned error status: " ++ itoa code ++ " - " ++ msg.

(** *** GetFileURL *)

Definition url_request (fileID : gostring) : Request :=
  {| Method := "GET";
     URL := "/files/" ++ fileID ++ "/url?expiry=24";
     Headers := [("Authorization" : gostring, "Bearer " ++ APIKey);
                 ("Accept" : gostring, "application/json" : gostring)];
     Payload := NoBody |}.

Definition GetFileURL (fileID : gostring) : M (res gostring) :=
  r <- send (url_request fileID) ;;
  match r with
  | NetError err => ret (Fail ("error fetching file URL: " ++ err))
  | Reply resp =>
      if negb (StatusCode resp =? 200) then
        ret (Fail (status_error (StatusCode resp) (String_ resp)))
      else
        match Unmarshal_url env (Body resp) with
        | Fail err => ret (Fail ("error parsing URL response: " ++ err))
        | Ok url =>
            if decide (url = []) then
              ret (Fail "API response did not contain a URL")
            else ret (Ok url)
        end
  end.

(** *** UploadFile *)

Definition upload_request (filePath : gostring) : Request :=
  {| Method := "POST";
     URL := "/files";
     Headers := [("Authorization" : gostring, "Bearer " ++ APIKey)];
     Payload := Multipart filePath [("purpose" : gostring, "ocr" : gostring)] |}.

Definition upload_maxRetries : nat := 3.
Definition upload_retryDelay : Z := 3.

(** The [for] loop of [UploadFile]; [remaining] counts the attempts
    that are left, the loop ends when none is. *)
Fixpoint upload_loop (filePath : gostring) (remaining : nat)
         (lastErr : option gostring) : M (res gostring) :=
  match remaining with
  | O =>
      ret (Fail ("failed to upload file after "
                 ++ itoa (Z.of_nat upload_maxRetries)
                 ++ " attempts: " ++ fmt_v lastErr))
  | S remaining' =>
      r <- send (upload_request filePath) ;;
      match r with
      | NetError err =>
          sleep upload_retryDelay ;;;
          upload_loop filePath remaining'
            (Some ("error making upload request: " ++ err))
      | Reply resp =>
          if negb (StatusCode resp =? 200) then
            let lastErr' := status_error (StatusCode resp) (String_ resp) in
            if (StatusCode resp >=? 500) || (StatusCode resp =? 429) then
              sleep upload_retryDelay ;;;
              upload_loop filePath remaining' (Some lastErr')
            else ret (Fail lastErr')
          else if (length (Body resp) =? 0)%nat then
            sleep upload_retryDelay ;;;
            upload_loop filePath remaining'
              (Some ("received empty response from API" : gostring))
          else
            match Unmarshal_id env (Body resp) with
            | Fail err =>
                sleep upload_retryDelay ;;;
                upload_loop filePath remaining'
                  (Some ("error parsing response: " ++ err))
            | Ok id =>
                if decide (id = []) then
                  sleep upload_retryDelay ;;;
                  upload_loop filePath remaining'
                    (Some ("received response without file ID" : gostring))
                else ret (Ok id)
            end
      end
  end.

Definition UploadFile (filePath : gostring) : M (res gostring) :=
  match Stat env filePath with
  | Fail err => ret (Fail ("error checking file size: " ++ err))
  | Ok size =>
      if size >? MaxFileSize then
        ret (Fail ("file is too large (" ++ fmt_MB env size
                   ++ " MB). Maximum allowed size is "
                   ++ fmt_MB env MaxFileSize ++ " MB"))
      else upload_loop filePath upload_maxRetries None
  end.

(** *** ProcessOCR *)

Definition ocr_request (document : gmap gostring gostring)
           (includeImageBase64 : bool) : Request :=
  {| Method := "POST";
     URL := "/ocr";
     Headers := [("Content-Type" : gostring, "application/json" : gostring);
                 ("Authorization" : gostring, "Bearer " ++ APIKey);
                 ("Accept" : gostring, "application/json" : gostring)];
     Payload := JSONBody "mistral-ocr-latest" document includeImageBase64 |}.

Definition ocr_maxRetries : nat := 5.
Definition ocr_retryDelay : Z := 10.

(** The [for] loop of [ProcessOCR].  [attempt] is the loop variable;
    [lastErr] is assigned by every request. *)
Fixpoint ocr_loop (req : Request) (remaining : nat) (attempt : Z)
         (lastErr : option gostring) : M (res gostring) :=
  match remaining with
  | O =>
      ret (Fail ("failed after " ++ itoa (Z.of_nat ocr_maxRetries)
                 ++ " attempts. Last error: " ++ fmt_v lastErr))
  | S remaining' =>
      r <- send req ;;
      match r with
      | NetError err =>
          sleep ocr_retryDelay ;;;
          ocr_loop req remaining' (attempt + 1) (Some err)
      | Reply resp =>
          if negb (StatusCode resp =? 200) then
            let errMsg :=
              if (0 <? length (Body resp))%nat then Body resp
              else Status resp in
            if (StatusCode resp >=? 500) || (StatusCode resp =? 429) then
              sleep ocr_retryDelay ;;;
              ocr_loop req remaining' (attempt + 1)
                (Some (status_error (StatusCode resp) errMsg))
            else ret (Fail (status_error (StatusCode resp) errMsg))
          else if (length (Body resp) =? 0)%nat then
            sleep (ocr_retryDelay * attempt) ;;;
            ocr_loop req remaining' (attempt + 1)
              (Some ("received empty response from API" : gostring))
          else if negb (json_Valid env (Body resp)) then
            sleep ocr_retryDelay ;;;
            ocr_loop req remaining' (attempt + 1)
              (Some ("received invalid JSON response from API" : gostring))
          else ret (Ok (Body resp))
      end
  end.

Definition ProcessOCR (docType docSource : gostring)
           (includeImageBase64 : bool) : M (res gostring) :=
  let documentMap : gmap gostring gostring :=
    {[ ("type" : gostring) := docType ]} in
  if decide (docType = "document_url") then
    ocr_loop (ocr_request (<[("document_url" : gostring) := docSource]> documentMap)
                          includeImageBase64)
             ocr_maxRetries 1 None
  else if decide (docType = "image_url") then
    ocr_loop (ocr_request (<[("image_url" : gostring) := docSource]> documentMap)
                          includeImageBase64)
             ocr_maxRetries 1 None
  else ret (Fail ("unsupported document type: " ++ docType)).

End Client.
End Mistral.

(** ** Library functions used by package cmd *)

Module GoLib.
Import Go.

Definition slash : ascii := "/"%char.
Definition dot : ascii := "."%char.

Fixpoint drop_while (P : ascii -> bool) (s : gostring) : gostring :=
  match s with
  | [] => []
  | c :: s' => if P c then drop_while P s' else s
  end.

Fixpoint take_while (P : ascii -> bool) (s : gostring) : gostring :=
  match s with
  | [] => []
  | c :: s' => if P c then c :: take_while P s' else []
  end.

Definition is_slash (c : ascii) : bool := bool_decide (c = slash).

(** [filepath.Base] (Unix): the last element of the path, trailing
    slashes removed; ["."] for the empty path and ["/"] for a path of
    slashes only. *)
Definition Base (path : gostring) : gostring :=
  if decide (path = []) then "."
  else
    let stripped := reverse (drop_while is_slash (reverse path)) in
    let last := reverse (take_while (fun c => negb (is_slash c)) (reverse stripped)) in
    if decide (last = []) then "/" else last.

(** [filepath.Ext]: the suffix beginning at the final dot of the final
    element of the path, empty when there is no dot.  [ext_rev] walks
    the path from its end, as the Go loop does. *)
Fixpoint ext_rev (r acc : gostring) : gostring :=
  match r with
  | [] => []
  | c :: r' =>
      if is_slash c then []
      else if bool_decide (c = dot) then c :: acc
      else ext_rev r' (c :: acc)
  end.

Definition Ext (path : gostring) : gostring := ext_rev (reverse path) [].

(** [utf8.ValidString]. *)
Definition between (lo hi : nat) (c : ascii) : bool :=
  ((lo <=? nat_of_ascii c) && (nat_of_ascii c <=? hi))%nat.

Definition cont (c : ascii) : bool := between 128 191 c.

Fixpoint ValidString (s : gostring) : bool :=
  match s with
  | [] => true
  | c :: s1 =>
      if between 0 127 c then ValidString s1
      else
        match s1 with
        | [] => false
        | c1 :: s2 =>
            if between 194 223 c then cont c1 && ValidString s2
            else
              match s2 with
              | [] => false
              | c2 :: s3 =>
                  if between 224 224 c then
                    between 160 191 c1 && cont c2 && ValidString s3
                  else if between 237 237 c then
                    between 128 159 c1 && cont c2 && ValidString s3
                  else if between 225 239 c then
                    cont c1 && cont c2 && ValidString s3
                  else
                    match s3 with
                    | [] => false
                    | c3 :: s4 =>
                        if between 240 240 c then
                          between 144 191 c1 && cont c2 && cont c3
                          && ValidString s4
                        else if between 241 243 c then
                          cont c1 && cont c2 && cont c3 && ValidString s4
                        else if between 244 244 c then
                          between 128 143 c1 && cont c2 && cont c3
                          && ValidString s4
                        else false
                    end
              end
        end
  end.

(** *** package regexp, for the expressions the converter compiles

    The converter compiles one kind of expression only: the pattern
    [!\[Q\]\(Q\)] where [Q] is [regexp.QuoteMeta id].  Quoting makes
    every byte of [id] stand for itself, so the expression matches the
    single string [![id](id)] and has no capture group.  Compilation
    fails, and [regexp.MustCompile] panics, when the pattern is not
    valid UTF-8.  (It also fails for an expression of several million
    runes, which the package finds too large; the model has no such
    limit, and the theorem on inlining is stated for shorter
    identifiers.)  A compiled expression is represented by the string
    it matches. *)

Definition placeholder (id : gostring) : gostring :=
  "![" ++ id ++ "](" ++ id ++ ")".

Definition MustCompile (id : gostring) : option gostring :=
  if ValidString id then Some (placeholder id) else None.

(** [strings.Cut] on the separator ["$"]. *)
Definition dollar : ascii := "$"%char.

Fixpoint Cut (s : gostring) : option (gostring * gostring) :=
  match s with
  | [] => None
  | c :: s' =>
      if bool_decide (c = dollar) then Some ([], s')
      else match Cut s' with
           | Some (before, after) => Some (c :: before, after)
           | None => None
           end
  end.

Section Expand.
(** The number of leading bytes of a string that make up letters,
    digits and underscores; Go decides this rune by rune with the
    Unicode tables. *)
Variable name_len : gostring -> nat.

(** [extract] of regexp.go: the name after a [$], bare or in braces,
    and the rest of the template. *)
Definition extract (str : gostring) : option (gostring * gostring) :=
  match str with
  | [] => None
  | c :: _ =>
      let brace := bool_decide (c = "{"%char) in
      let str := if brace then drop 1 str else str in
      let i := name_len str in
      if (i =? 0)%nat then None
      else if brace && negb (HasPrefix (drop i str) "}") then None
      else Some (take i str, drop (if brace then S i else i) str)
  end.

(** [Regexp.expand] for an expression without capture groups: [$$]
    is a dollar sign, [$0] and [${0}] stand for the matched text,
    every other name for the empty string, and a dollar sign that
    starts no name is kept.  Each round consumes the dollar sign it
    found, so [fuel] bounded by the length of the template is
    enough. *)
Fixpoint expand (fuel : nat) (template matched : gostring) : gostring :=
  match fuel with
  | O => template
  | S fuel' =>
      match Cut template with
      | None => template
      | Some (before, after) =>
          before ++
          if HasPrefix after "$" then
            "$" ++ expand fuel' (drop 1 after) matched
          else
            match extract after with
            | None => "$" ++ expand fuel' after matched
            | Some (name, rest) =>
                (if decide (name = "0") then matched else [])
                ++ expand fuel' rest matched
            end
      end
  end.

(** The scan of [Regexp.ReplaceAllString] for an expression matching
    the non-empty string [lit], over a source that is valid UTF-8: the
    leftmost occurrence is replaced and the scan resumes after it.
    [skip] counts the bytes of the current occurrence still to be
    passed over.  (In a source that is not valid UTF-8 Go reads every
    stray byte as U+FFFD; the theorem on inlining is stated for valid
    sources.) *)
Fixpoint replaceAll (lit repl : gostring) (skip : nat) (src : gostring)
  : gostring :=
  match src with
  | [] => []
  | c :: rest =>
      match skip with
      | S k => replaceAll lit repl k rest
      | O =>
          if HasPrefix src lit then
            repl ++ replaceAll lit repl (length lit - 1) rest
          else c :: replaceAll lit repl 0 rest
      end
  end.

Definition ReplaceAllString (re src repl : gostring) : gostring :=
  replaceAll re (expand (S (length repl)) repl re) 0 src.
End Expand.

(** [name_len] for ASCII text. *)
Definition is_word (c : ascii) : bool :=
  between 48 57 c || between 65 90 c || between 97 122 c
  || bool_decide (c = "_"%char).

Definition ascii_name_len (s : gostring) : nat := length (take_while is_word s).

End GoLib.

(** ** package cmd *)

Module Cmd.
Import Go GoLib.

(** The package-level flag variables of convert.go, process.go and
    the root command. *)
Record Flags := {
  apiKey : gostring;
  jsonOutputFile : gostring;
  includeImageBase64 : bool;
  markdownDir : gostring;
  markdownFile : gostring;
  includeImages : bool;
  includePageBreaks : bool;
  titleFromFilename : bool;
  singleFile : bool
}.

Definition set_singleFile (b : bool) (f : Flags) : Flags :=
  {| apiKey := apiKey f; jsonOutputFile := jsonOutputFile f;
     includeImageBase64 := includeImageBase64 f;
     markdownDir := markdownDir f; markdownFile := markdownFile f;
     includeImages := includeImages f;
     includePageBreaks := includePageBreaks f;
     titleFromFilename := titleFromFilename f; singleFile := b |}.

Definition set_includeImageBase64 (b : bool) (f : Flags) : Flags :=
  {| apiKey := apiKey f; jsonOutputFile := jsonOutputFile f;
     includeImageBase64 := b;
     markdownDir := markdownDir f; markdownFile := markdownFile f;
     includeImages := includeImages f;
     includePageBreaks := includePageBreaks f;
     titleFromFilename := titleFromFilename f; singleFile := singleFile f |}.

(** [convertCmd.PreRun] (convert.go). *)
Definition convertCmd_PreRun (f : Flags) : Flags :=
  if decide (markdownFile f <> []) then set_singleFile true f else f.

(** [processMarkdownCmd.PreRun] (process_markdown.go). *)
Definition processMarkdownCmd_PreRun (f : Flags) : Flags :=
  let f := if includeImages f then set_includeImageBase64 true f else f in
  if decide (markdownFile f <> []) then set_singleFile true f else f.

(** *** OCRResponse *)

Record PageImage := {
  PageImage_ID : gostring;
  TopLeftX : Z;
  TopLeftY : Z;
  BottomRightX : Z;
  BottomRightY : Z;
  PageImage_ImageBase64 : gostring
}.

Record PageDimensions := {
  DPI : Z;
  Height : Z;
  Width : Z
}.

Record Page := {
  Index : Z;
  Markdown : gostring;
  Image : gostring;
  Images : list PageImage;
  Dimensions : PageDimensions
}.

Record DocMetadata := {
  Title : gostring;
  Author : gostring;
  CreationDate : gostring;
  PageCount : Z
}.

Record OCRResponse := {
  Pages : list Page;
  Metadata : DocMetadata
}.

Record OCRResponse_Image := {
  ID : gostring;
  ImageBase64 : gostring
}.

(** *** The world of the commands *)

Inductive event :=
| Net (e : Mistral.event)
| MkdirAll (path : gostring)
| WriteFile (name data : gostring)
| Println (line : gostring)
| CreateTemp (name : gostring)
| Remove (name : gostring).

Record Env := {
  client_env : Mistral.Env;
(** [os.Getenv("MISTRAL_API_KEY")]. *)
Getenv_MISTRAL_API_KEY : gostring;
(** Whether [os.Stat] fails on the path with an error for which
    [os.IsNotExist] holds. *)
NotExist : gostring -> bool;
ReadFile : gostring -> res gostring;
(** [json.Unmarshal] into an [OCRResponse]. *)
Unmarshal : gostring -> res OCRResponse;
(** [json.Indent] with an empty prefix and two spaces. *)
Indent : gostring -> res gostring;
(** The error of [os.MkdirAll] and of [os.WriteFile], if any. *)
MkdirAll_err : gostring -> option gostring;
WriteFile_err : gostring -> gostring -> option gostring;
(** The file name [os.CreateTemp] comes up with. *)
CreateTemp_name : res gostring;
(** [filepath.Join] of two elements and [filepath.Dir]. *)
Join : gostring -> gostring -> gostring;
Dir : gostring -> gostring;
(** The order in which a [range] loop visits a map: any order. *)
range_order : gmap gostring gostring -> list (gostring * gostring);
(** See [GoLib.extract]. *)
name_len : gostring -> nat;
(** The lower-case table of package unicode, see
    [Go.unicode_ToLower]. *)
To_LowerCase : Z -> Z
}.

(** How a command ends: it returns, it calls [os.Exit], or it
    panics. *)
Inductive outcome (A : Type) : Type :=
| Return (a : A)
| Exit (code : Z)
| Panic.
Arguments Return {A} a.
Arguments Exit {A} code.
Arguments Panic {A}.

Record world := {
  sent : nat;
  trace : list event
}.

Definition start : world := {| sent := 0; trace := [] |}.

Definition M (A : Type) : Type := world -> outcome A * world.

Definition ret {A} (a : A) : M A := fun w => (Return a, w).

Definition bind {A B} (m : M A) (k : A -> M B) : M B :=
  fun w =>
    match m w with
    | (Return a, w') => k a w'
    | (Exit code, w') => (Exit code, w')
    | (Panic, w') => (Panic, w')
    end.

Definition exit {A} (code : Z) : M A := fun w => (Exit code, w).
Definition panic {A} : M A := fun w => (Panic, w).

Definition emit (e : event) : M unit :=
  fun w => (Return tt, {| sent := sent w; trace := trace w ++ [e] |}).

Notation "x <- m ;; k" := (bind m (fun x => k))
  (at level 100, m at next level, right associativity).
Notation "m ;;; k" := (bind m (fun _ => k))
  (at level 100, right associativity).

(** The rest of a function after a [defer] statement: the deferred
    call runs when the function returns and while a panic unwinds;
    [os.Exit] ends the process without running it. *)
Definition deferred {A} (call : M unit) (body : M A) : M A :=
  fun w =>
    match body w with
    | (Return a, w') => (call ;;; ret a) w'
    | (Exit code, w') => (Exit code, w')
    | (Panic, w') => (call ;;; panic) w'
    end.

Section Commands.
Variable env : Env.

(** Progress and error messages written with [fmt.Printf] and
    [fmt.Println] are not part of the model, the JSON that
    [handleOutput] prints is. *)

(** A call of the API client, run in the world of the command. *)
Definition call {A} (m : Mistral.M A) : M A :=
  fun w =>
    let (a, cw) := m {| Mistral.sent := sent w; Mistral.trace := [] |} in
    (Return a,
     {| sent := Mistral.sent cw;
        trace := trace w ++ map Net (Mistral.trace cw) |}).

Definition do_MkdirAll (path : gostring) : M (option gostring) :=
  emit (MkdirAll path) ;;; ret (MkdirAll_err env path).

Definition do_WriteFile (name data : gostring) : M (option gostring) :=
  emit (WriteFile name data) ;;; ret (WriteFile_err env name data).

(** *** replaceImageReferences (convert.go) *)

Definition data_uri (imgData : gostring) : gostring :=
  if HasPrefix imgData "data:" then imgData
  else "data:image/jpeg;base64," ++ imgData.

(** The first loop: the map from image IDs to their data. *)
Definition imageMap (images : list OCRResponse_Image)
  : gmap gostring gostring :=
  foldl (fun m img =>
           if decide (ImageBase64 img <> []) then
             <[ID img := data_uri (ImageBase64 img)]> m
           else m)
        ∅ images.

(** The second loop, over the entries of the map in the order the
    [range] statement yields them. *)
Fixpoint replace_loop (entries : list (gostring * gostring))
         (content : gostring) : option gostring :=
  match entries with
  | [] => Some content
  | (id, base64Data) :: entries' =>
      let replacement := "![" ++ id ++ "](" ++ base64Data ++ ")" in
      match MustCompile id with
      | None => None
      | Some re =>
          replace_loop entries'
            (ReplaceAllString (name_len env) re content replacement)
      end
  end.

(** [None] stands for the panic of [regexp.MustCompile]. *)
Definition replaceImageReferences (f : Flags) (content : gostring)
           (images : list OCRResponse_Image) : option gostring :=
  if negb (includeImages f) || (length images =? 0)%nat then Some content
  else replace_loop (range_order env (imageMap images)) content.

(** *** convertJSONToMarkdown (convert.go) *)

Definition pageImages (page : Page) : list OCRResponse_Image :=
  map (fun img => {| ID := PageImage_ID img;
                     ImageBase64 := PageImage_ImageBase64 img |})
      (Images page).

(** The content of a page as both branches compute it. *)
Definition page_content (f : Flags) (page : Page) : option gostring :=
  if includeImages f then
    replaceImageReferences f (Markdown page) (pageImages page)
  else Some (Markdown page).

(** The title of the single document. *)
Definition document_title (f : Flags) (jsonFile : gostring)
           (ocrResponse : OCRResponse) : gostring :=
  if decide (Title (Metadata ocrResponse) <> []) then
    Title (Metadata ocrResponse)
  else if titleFromFilename f then
    let base := Base jsonFile in
    TrimSuffix base (Ext base)
  else "Document".

(** What is written after the title when author or creation date are
    known. *)
Definition metadata_block (md : DocMetadata) : gostring :=
  if bool_decide (Author md <> []) || bool_decide (CreationDate md <> [])
  then
    "## Document Metadata" ++ nl ++ nl
    ++ (if decide (Author md <> []) then
          "**Author:** " ++ Author md ++ nl ++ nl
        else [])
    ++ (if decide (CreationDate md <> []) then
          "**Creation Date:** " ++ CreationDate md ++ nl ++ nl
        else [])
    ++ (if PageCount md >? 0 then
          "**Page Count:** " ++ itoa (PageCount md) ++ nl ++ nl
        else [])
  else [].

Definition page_break : gostring := nl ++ nl ++ "---" ++ nl ++ nl.

(** The loop over the pages in single-file mode: [combined] is the
    builder, [i] the position of the page and [n] the number of
    pages; [None] is a panic. *)
Fixpoint single_loop (f : Flags) (n i : Z) (pages : list Page)
         (combined : gostring) : option gostring :=
  match pages with
  | [] => Some combined
  | page :: pages' =>
      let combined :=
        combined ++ "## Page " ++ itoa (wrap64 (Index page + 1))
                 ++ nl ++ nl in
      match page_content f page with
      | None => None
      | Some pageContent =>
          let combined := combined ++ pageContent in
          let combined := combined ++ nl ++ nl in
          let combined :=
            if includePageBreaks f && (i <? n - 1)
            then combined ++ page_break else combined in
          single_loop f n (i + 1) pages' combined
      end
  end.

(** The loop over the pages in multi-file mode. *)
Fixpoint multi_loop (f : Flags) (pages : list Page) : M unit :=
  match pages with
  | [] => ret tt
  | page :: pages' =>
      let filename := itoa (Index page) ++ ".md" in
      let outputFilePath := Join env (markdownDir f) filename in
      match page_content f page with
      | None => panic
      | Some markdownContent =>
          err <- do_WriteFile outputFilePath markdownContent ;;
          match err with
          | Some _ => exit 1
          | None => multi_loop f pages'
          end
      end
  end.

Definition convertJSONToMarkdown (f : Flags) (jsonFile : gostring)
  : M unit :=
  match ReadFile env jsonFile with
  | Fail _ => exit 1
  | Ok data =>
      match Unmarshal env data with
      | Fail _ => exit 1
      | Ok ocrResponse =>
          err <- do_MkdirAll (markdownDir f) ;;
          match err with
          | Some _ => exit 1
          | None =>
              if singleFile f then
                let title := document_title f jsonFile ocrResponse in
                let combined := "# " ++ title ++ nl ++ nl in
                let combined :=
                  combined ++ metadata_block (Metadata ocrResponse) in
                match single_loop f (Z.of_nat (length (Pages ocrResponse)))
                                  0 (Pages ocrResponse) combined with
                | None => panic
                | Some combined =>
                    filename <-
                      (if decide (markdownFile f <> []) then
                         let dir := Dir env (markdownFile f) in
                         (if decide (dir <> ".") then
                            err <- do_MkdirAll
                                     (Join env (markdownDir f) dir) ;;
                            match err with
                            | Some _ => exit 1
                            | None => ret tt
                            end
                          else ret tt) ;;;
                         ret (markdownFile f)
                       else ret ("document.md" : gostring)) ;;
                    let outputFilePath :=
                      Join env (markdownDir f) filename in
                    err <- do_WriteFile outputFilePath combined ;;
                    match err with
                    | Some _ => exit 1
                    | None => ret tt
                    end
                end
              else multi_loop f (Pages ocrResponse)
          end
      end
  end.

(** *** getAPIKey (root command) and mistral.NewClient

    [getAPIKey] also stores the key it found in the flag variable;
    nothing reads the variable afterwards.  A client is represented
    by its API key, [None] is the nil client. *)
Definition getAPIKey (f : Flags) : M gostring :=
  if decide (apiKey f <> []) then ret (apiKey f)
  else
    let apiKey := Getenv_MISTRAL_API_KEY env in
    if decide (apiKey = []) then exit 1 else ret apiKey.

Definition NewClient (apiKey : gostring) : option gostring :=
  if decide (apiKey = []) then
    let apiKey := Getenv_MISTRAL_API_KEY env in
    if decide (apiKey = []) then None else Some apiKey
  else Some apiKey.

(** *** handleOutput (process.go) *)
Definition handleOutput (f : Flags) (data : gostring) : M unit :=
  match Indent env data with
  | Fail _ => exit 1
  | Ok prettyJSON =>
      if decide (jsonOutputFile f <> []) then
        let dir := Dir env (jsonOutputFile f) in
        (if decide (dir <> ".") then
           err <- do_MkdirAll dir ;;
           match err with
           | Some _ => exit 1
           | None => ret tt
           end
         else ret tt) ;;;
        err <- do_WriteFile (jsonOutputFile f) prettyJSON ;;
        match err with
        | Some _ => exit 1
        | None => ret tt
        end
      else emit (Println prettyJSON)
  end.

(** *** processURL (process.go) *)
Definition processURL (f : Flags) (url : gostring) : M unit :=
  key <- getAPIKey f ;;
  match NewClient key with
  | None => exit 1
  | Some client =>
      let docType : gostring :=
        if HasSuffix (ToLower (To_LowerCase env) url) ".jpg"
           || HasSuffix (ToLower (To_LowerCase env) url) ".jpeg"
           || HasSuffix (ToLower (To_LowerCase env) url) ".png"
           || HasSuffix (ToLower (To_LowerCase env) url) ".webp"
           || HasSuffix (ToLower (To_LowerCase env) url) ".gif"
        then "image_url" else "document_url" in
      r <- call (Mistral.ProcessOCR (client_env env) client
                   docType url (includeImageBase64 f)) ;;
      match r with
      | Fail _ => exit 1
      | Ok respData => handleOutput f respData
      end
  end.

(** *** processLocalFile (process.go) *)
Definition processLocalFile (f : Flags) (filePath : gostring) : M unit :=
  if NotExist env filePath then exit 1
  else
    key <- getAPIKey f ;;
    match NewClient key with
    | None => exit 1
    | Some client =>
        r <- call (Mistral.UploadFile (client_env env) client filePath) ;;
        match r with
        | Fail _ => exit 1
        | Ok fileID =>
            r <- call (Mistral.GetFileURL (client_env env) client fileID) ;;
            match r with
            | Fail _ => exit 1
            | Ok fileURL =>
                let lowerFilePath := ToLower (To_LowerCase env) filePath in
                let docType : gostring :=
                  if HasSuffix lowerFilePath ".jpg"
                     || HasSuffix lowerFilePath ".jpeg"
                     || HasSuffix lowerFilePath ".png"
                     || HasSuffix lowerFilePath ".webp"
                     || HasSuffix lowerFilePath ".gif"
                  then "image_url" else "document_url" in
                r <- call (Mistral.ProcessOCR (client_env env) client
                             docType fileURL (includeImageBase64 f)) ;;
                match r with
                | Fail _ => exit 1
                | Ok respData => handleOutput f respData
                end
            end
        end
    end.

(** The [Run] function of [processCmd]. *)
Definition processCmd_Run (f : Flags) (filePath : gostring) : M unit :=
  if HasPrefix filePath "http://" || HasPrefix filePath "https://"
  then processURL f filePath
  else processLocalFile f filePath.

(** *** processAndConvertToMarkdown (process_markdown.go)

    The removal of the temporary file is deferred as soon as the file
    is made: everything after that is the body the deferred call
    waits for. *)
Definition processAndConvertToMarkdown (f : Flags) (fileOrURL : gostring)
  : M unit :=
  tmp <-
    (if decide (jsonOutputFile f = []) then
       match CreateTemp_name env with
       | Fail _ => exit 1
       | Ok name => emit (CreateTemp name) ;;; ret (Some name)
       end
     else ret None) ;;
  let jsonOutputPath :=
    match tmp with
    | Some name => name
    | None => jsonOutputFile f
    end in
  let body : M unit :=
    key <- getAPIKey f ;;
    match NewClient key with
    | None => exit 1
    | Some client =>
        r <-
          (if HasPrefix fileOrURL "http://"
              || HasPrefix fileOrURL "https://"
           then
             let docType : gostring :=
               if HasSuffix (ToLower (To_LowerCase env) fileOrURL) ".jpg"
                  || HasSuffix (ToLower (To_LowerCase env) fileOrURL) ".jpeg"
                  || HasSuffix (ToLower (To_LowerCase env) fileOrURL) ".png"
                  || HasSuffix (ToLower (To_LowerCase env) fileOrURL) ".webp"
                  || HasSuffix (ToLower (To_LowerCase env) fileOrURL) ".gif"
               then "image_url" else "document_url" in
             call (Mistral.ProcessOCR (client_env env) client
                     docType fileOrURL (includeImageBase64 f))
           else
             if NotExist env fileOrURL then exit 1
             else
               r <- call (Mistral.UploadFile (client_env env) client
                            fileOrURL) ;;
               match r with
               | Fail _ => exit 1
               | Ok fileID =>
                   r <- call (Mistral.GetFileURL (client_env env) client
                                fileID) ;;
                   match r with
                   | Fail _ => exit 1
                   | Ok fileURL =>
                       let lowerFilePath :=
                         ToLower (To_LowerCase env) fileOrURL in
                       let docType : gostring :=
                         if HasSuffix lowerFilePath ".jpg"
                            || HasSuffix lowerFilePath ".jpeg"
                            || HasSuffix lowerFilePath ".png"
                            || HasSuffix lowerFilePath ".webp"
                            || HasSuffix lowerFilePath ".gif"
                         then "image_url" else "document_url" in
                       r <- call (Mistral.ProcessOCR (client_env env)
                                    client docType fileURL
                                    (includeImageBase64 f)) ;;
                       match r with
                       | Fail _ => exit 1
                       | Ok respData => ret (Ok respData)
                       end
                   end
               end) ;;
        match r with
        | Fail _ => exit 1
        | Ok respData =>
            if (length respData =? 0)%nat then
              err <- do_MkdirAll (markdownDir f) ;;
              exit 1
            else
              err <- do_WriteFile jsonOutputPath respData ;;
              match err with
              | Some _ => exit 1
              | None => convertJSONToMarkdown f jsonOutputPath
              end
        end
    end in
  match tmp with
  | Some name => deferred (emit (Remove name)) body
  | None => body
  end.

End Commands.
End Cmd.

(** ** The specification's vocabulary *)

Module Spec.
Import Go GoLib.

(** *** Replies of the API, as the specification sorts them *)

Definition server_error (r : Mistral.reply) : bool :=
  match r with
  | Mistral.Reply resp => Mistral.StatusCode resp >=? 500
  | Mistral.NetError _ => false
  end.

Definition rate_limited (r : Mistral.reply) : bool :=
  match r with
  | Mistral.Reply resp => Mistral.StatusCode resp =? 429
  | Mistral.NetError _ => false
  end.

Definition empty_body (r : Mistral.reply) : bool :=
  match r with
  | Mistral.Reply resp =>
      (Mistral.StatusCode resp =? 200)
      && (length (Mistral.Body resp) =? 0)%nat
  | Mistral.NetError _ => false
  end.

(** A non-empty body with status 200 that the decoder rejects: the
    decoder is [json.Unmarshal] in [UploadFile] and [json.Valid] in
    [ProcessOCR]. *)
Definition malformed_upload (env : Mistral.Env) (r : Mistral.reply) : bool :=
  match r with
  | Mistral.Reply resp =>
      (Mistral.StatusCode resp =? 200)
      && negb (length (Mistral.Body resp) =? 0)%nat
      && match Mistral.Unmarshal_id env (Mistral.Body resp) with
         | Fail _ => true
         | Ok _ => false
         end
  | Mistral.NetError _ => false
  end.

Definition malformed_ocr (env : Mistral.Env) (r : Mistral.reply) : bool :=
  match r with
  | Mistral.Reply resp =>
      (Mistral.StatusCode resp =? 200)
      && negb (length (Mistral.Body resp) =? 0)%nat
      && negb (Mistral.json_Valid env (Mistral.Body resp))
  | Mistral.NetError _ => false
  end.

(** The four kinds of failure the specification lists as retried. *)
Definition listed_upload (env : Mistral.Env) (r : Mistral.reply) : bool :=
  server_error r || rate_limited r || empty_body r || malformed_upload env r.

Definition listed_ocr (env : Mistral.Env) (r : Mistral.reply) : bool :=
  server_error r || rate_limited r || empty_body r || malformed_ocr env r.

(** Any other status than 200 that is neither a server error nor 429. *)
Definition other_status (r : Mistral.reply) : bool :=
  match r with
  | Mistral.Reply resp =>
      negb (Mistral.StatusCode resp =? 200)
      && negb (Mistral.StatusCode resp >=? 500)
      && negb (Mistral.StatusCode resp =? 429)
  | Mistral.NetError _ => false
  end.

(** The error an attempt leaves behind when it is to be repeated:
    [Some msg] for a failure that is retried, [None] for a reply that
    ends the operation. *)
Definition upload_transient (env : Mistral.Env) (r : Mistral.reply)
  : option gostring :=
  match r with
  | Mistral.NetError err => Some ("error making upload request: " ++ err)
  | Mistral.Reply resp =>
      let code := Mistral.StatusCode resp in
      if negb (code =? 200) then
        if (code >=? 500) || (code =? 429) then
          Some (Mistral.status_error code (Mistral.String_ resp))
        else None
      else if (length (Mistral.Body resp) =? 0)%nat then
        Some ("received empty response from API" : gostring)
      else
        match Mistral.Unmarshal_id env (Mistral.Body resp) with
        | Fail err => Some ("error parsing response: " ++ err)
        | Ok id =>
            if decide (id = []) then
              Some ("received response without file ID" : gostring)
            else None
        end
  end.

Definition ocr_errMsg (resp : Mistral.Response) : gostring :=
  if (0 <? length (Mistral.Body resp))%nat then Mistral.Body resp
  else Mistral.Status resp.

Definition ocr_transient (env : Mistral.Env) (r : Mistral.reply)
  : option gostring :=
  match r with
  | Mistral.NetError err => Some err
  | Mistral.Reply resp =>
      let code := Mistral.StatusCode resp in
      if negb (code =? 200) then
        if (code >=? 500) || (code =? 429) then
          Some (Mistral.status_error code (ocr_errMsg resp))
        else None
      else if (length (Mistral.Body resp) =? 0)%nat then
        Some ("received empty response from API" : gostring)
      else if negb (Mistral.json_Valid env (Mistral.Body resp)) then
        Some ("received invalid JSON response from API" : gostring)
      else None
  end.

Definition is_Fail {A} (r : res A) : bool :=
  match r with
  | Fail _ => true
  | Ok _ => false
  end.

(** [needle] occurs in [hay]. *)
Definition includes (hay needle : gostring) : Prop :=
  exists before after, hay = before ++ needle ++ after.

(** The world after an attempt that is repeated (the request, then the
    pause) and after one that is not. *)
Definition retried (r : Mistral.Request) (delay : Z) (w : Mistral.world)
  : Mistral.world :=
  {| Mistral.sent := S (Mistral.sent w);
     Mistral.trace :=
       Mistral.trace w ++ [Mistral.Send r; Mistral.Sleep delay] |}.

Definition asked (r : Mistral.Request) (w : Mistral.world) : Mistral.world :=
  {| Mistral.sent := S (Mistral.sent w);
     Mistral.trace := Mistral.trace w ++ [Mistral.Send r] |}.

End Spec.

(** ** The converter, as the specification describes its output *)

Module Doc.
Import Go GoLib Cmd.

(** What a page contributes to the single document: its header, its
    content and the blank line after it. *)
Definition page_block (page : Page) (content : gostring) : gostring :=
  "## Page " ++ itoa (wrap64 (Index page + 1)) ++ nl ++ nl
  ++ content ++ nl ++ nl.

(** The blocks one after the other, [sep] between any two of them. *)
Fixpoint join (sep : gostring) (blocks : list gostring) : gostring :=
  match blocks with
  | [] => []
  | [b] => b
  | b :: blocks' => b ++ sep ++ join sep blocks'
  end.

Definition separator (f : Flags) : gostring :=
  if includePageBreaks f then page_break else [].

Definition single_document (f : Flags) (jsonFile : gostring)
           (ocrResponse : OCRResponse) (contents : list gostring) : gostring :=
  "# " ++ document_title f jsonFile ocrResponse ++ nl ++ nl
  ++ metadata_block (Metadata ocrResponse)
  ++ join (separator f) (zip_with page_block (Pages ocrResponse) contents).

(** The name of the single document inside the output directory. *)
Definition single_name (f : Flags) : gostring :=
  if decide (markdownFile f <> []) then markdownFile f else "document.md".

(** The directories made on the way to the single document. *)
Definition directories (env : Env) (f : Flags) : list event :=
  MkdirAll (markdownDir f)
  :: (if decide (markdownFile f <> []) then
        if decide (Dir env (markdownFile f) <> ".") then
          [MkdirAll (Join env (markdownDir f) (Dir env (markdownFile f)))]
        else []
      else []).

(** The file written for a page in multi-file mode. *)
Definition page_file (env : Env) (f : Flags) (page : Page) : event :=
  WriteFile (Join env (markdownDir f) (itoa (Index page) ++ ".md"))
            (Markdown page).

(** The files a command has written, in order. *)
Definition written (evs : list event) : list (gostring * gostring) :=
  omap (fun e => match e with
                 | WriteFile name data => Some (name, data)
                 | _ => None
                 end) evs.

(** The world after further events. *)
Definition after (evs : list event) (w : world) : world :=
  {| sent := sent w; trace := trace w ++ evs |}.

(** *** Image inlining *)

Definition bang : ascii := "!"%char.
Definition bracket : ascii := "]"%char.

(** An image reference with its data in place of its target. *)
Definition inlined_reference (id data : gostring) : gostring :=
  "![" ++ id ++ "](" ++ data ++ ")".

(** [result] is [content] with every placeholder of an image of the
    map replaced by the reference to its data, and every other byte
    kept: reading [content] from its start, a placeholder [![id](id)]
    of an entry [id] of the map is replaced, and a byte at which no
    such placeholder starts is copied. *)
Inductive inlined (m : gmap gostring gostring)
  : gostring -> gostring -> Prop :=
| inlined_end : inlined m [] []
| inlined_ref id data rest rest' :
    m !! id = Some data ->
    inlined m rest rest' ->
    inlined m (placeholder id ++ rest) (inlined_reference id data ++ rest')
| inlined_byte c rest rest' :
    (forall id, is_Some (m !! id) ->
                HasPrefix (c :: rest) (placeholder id) = false) ->
    inlined m rest rest' ->
    inlined m (c :: rest) (c :: rest').

(** Identifiers and data the theorem on inlining is stated for:
    valid UTF-8 without the bytes [!], [\]] and [$] for an identifier,
    and of a length far below the size at which package regexp refuses
    an expression; no [!] and no [$] in the data. *)
Definition plain_id (id : gostring) : Prop :=
  ValidString id = true /\ (bang ∉ id) /\ (bracket ∉ id) /\ (dollar ∉ id)
  /\ Z.of_nat (length id) < 1048576.

Definition plain_data (data : gostring) : Prop :=
  (bang ∉ data) /\ (dollar ∉ data).

(** A placeholder and a reference after their exclamation mark. *)
Definition placeholder_tail (id : gostring) : gostring :=
  "[" ++ id ++ "](" ++ id ++ ")".

Definition reference_tail (id data : gostring) : gostring :=
  "[" ++ id ++ "](" ++ data ++ ")".

(** The identifiers and data of a map for which the rounds of the loop
    do not disturb one another. *)
Definition tame (m : gmap gostring gostring) : Prop :=
  map_Forall (fun id data => plain_id id /\ plain_data data) m.

(** One round of the second loop of [replaceImageReferences], for the
    entry [(id, data)] of the map. *)
Definition pass (id data content : gostring) : gostring :=
  replaceAll (placeholder id) (inlined_reference id data) 0 content.

(** The images of a list that count: those with data. *)
Definition with_data (id : gostring) (img : OCRResponse_Image) : bool :=
  bool_decide (ID img = id) && bool_decide (ImageBase64 img <> []).

(** *** Document references *)

(** The type of a document reference, as the four places that compute
    it do: by the end of the lower-cased path or URL. *)
Definition docTypeOf (env : Env) (input : gostring) : gostring :=
  if HasSuffix (ToLower (To_LowerCase env) input) ".jpg"
     || HasSuffix (ToLower (To_LowerCase env) input) ".jpeg"
     || HasSuffix (ToLower (To_LowerCase env) input) ".png"
     || HasSuffix (ToLower (To_LowerCase env) input) ".webp"
     || HasSuffix (ToLower (To_LowerCase env) input) ".gif"
  then "image_url" else "document_url".

(** The runes of [input] that lower-casing keeps: all of them, unless
    the table holds a negative value, which [strings.Map] drops. *)
Definition kept (env : Env) (input : gostring) : list Z :=
  List.filter (fun r => 0 <=? unicode_ToLower (To_LowerCase env) r)
              (runes input).

(** The rune [r] is the letter [e] of an extension, the case of letters
    set aside: [unicode.ToLower] maps it to [e]. *)
Definition same_letter (env : Env) (r : Z) (e : ascii) : Prop :=
  unicode_ToLower (To_LowerCase env) r = code e.

(** [input] ends with [ext], the case of letters set aside: its last
    runes are, one by one, the letters of [ext]. *)
Definition ends_with_fold (env : Env) (input ext : gostring) : Prop :=
  exists stem tail,
    kept env input = stem ++ tail /\ Forall2 (same_letter env) tail ext.

Definition image_extensions : list gostring :=
  [".jpg" : gostring; ".jpeg" : gostring; ".png" : gostring;
   ".webp" : gostring; ".gif" : gostring].

Definition has_image_extension (env : Env) (input : gostring) : Prop :=
  exists ext, ext ∈ image_extensions /\ ends_with_fold env input ext.

(** The [document] field of an OCR request. *)
Definition ocr_document (docType docSource : gostring)
  : gmap gostring gostring :=
  <[docType := docSource]> {[ ("type" : gostring) := docType ]}.

(** A request of the client, if it goes to [/ocr], carries the document
    field made from [docType] and a source that [source] admits. *)
Definition ocr_request_ok (docType : gostring) (source : gostring -> Prop)
           (e : Mistral.event) : Prop :=
  match e with
  | Mistral.Send r =>
      Mistral.URL r = "/ocr" ->
      exists docSource b,
        source docSource
        /\ Mistral.Payload r =
             Mistral.JSONBody "mistral-ocr-latest"
                              (ocr_document docType docSource) b
  | Mistral.Sleep _ => True
  end.

Definition ocr_event_ok (docType : gostring) (source : gostring -> Prop)
           (e : event) : Prop :=
  match e with
  | Net e => ocr_request_ok docType source e
  | _ => True
  end.

(** Every event of a run of [m] satisfies [P]. *)
Definition emits {A} (P : event -> Prop) (m : M A) : Prop :=
  forall w o w',
    m w = (o, w') -> exists evs, trace w' = trace w ++ evs /\ Forall P evs.

Definition client_emits {A} (P : Mistral.event -> Prop) (m : Mistral.M A)
  : Prop :=
  forall w a w',
    m w = (a, w') ->
    exists evs,
      Mistral.trace w' = Mistral.trace w ++ evs /\ Forall P evs.

End Doc.

(** ** Sample worlds, for running the model *)

Module Sample.
Import Go GoLib.

Definition http (code : Z) (body : gostring) : Mistral.reply :=
  Mistral.Reply {| Mistral.StatusCode := code; Mistral.Status := itoa code;
                   Mistral.Body := body; Mistral.String_ := body |}.

(** The replies of the API, in the order of the requests; a connection
    error once they are used up. *)
Definition scripted (script : list Mistral.reply) (k : nat) : Mistral.reply :=
  nth k script (Mistral.NetError "connection refused").

(** A stand-in for the JSON decoder: a body [id=...] (or [url=...])
    carries the field, a body that starts with an opening brace is
    valid JSON without the field, anything else is malformed. *)
Definition field (name body : gostring) : res gostring :=
  if HasPrefix body (name ++ "=") then Ok (drop (length name + 1) body)
  else if HasPrefix body "{" then Ok []
  else Fail "invalid character".

Definition client (size : Z) (script : list Mistral.reply) : Mistral.Env :=
  {| Mistral.Stat := fun _ => Ok size;
     Mistral.net := scripted script;
     Mistral.Unmarshal_id := field "id";
     Mistral.Unmarshal_url := field "url";
     Mistral.json_Valid := fun body => HasPrefix body "{";
     Mistral.fmt_MB := fun n => itoa (n / 1048576) |}.

(** The flags as the command line leaves them when none is given. *)
Definition flags : Cmd.Flags :=
  {| Cmd.apiKey := "key"; Cmd.jsonOutputFile := [];
     Cmd.includeImageBase64 := false;
     Cmd.markdownDir := "markdown_output"; Cmd.markdownFile := [];
     Cmd.includeImages := false; Cmd.includePageBreaks := true;
     Cmd.titleFromFilename := true; Cmd.singleFile := false |}.

Definition with_images (f : Cmd.Flags) : Cmd.Flags :=
  {| Cmd.apiKey := Cmd.apiKey f; Cmd.jsonOutputFile := Cmd.jsonOutputFile f;
     Cmd.includeImageBase64 := Cmd.includeImageBase64 f;
     Cmd.markdownDir := Cmd.markdownDir f;
     Cmd.markdownFile := Cmd.markdownFile f;
     Cmd.includeImages := true;
     Cmd.includePageBreaks := Cmd.includePageBreaks f;
     Cmd.titleFromFilename := Cmd.titleFromFilename f;
     Cmd.singleFile := Cmd.singleFile f |}.

Definition with_output_file (name : gostring) (f : Cmd.Flags) : Cmd.Flags :=
  {| Cmd.apiKey := Cmd.apiKey f; Cmd.jsonOutputFile := Cmd.jsonOutputFile f;
     Cmd.includeImageBase64 := Cmd.includeImageBase64 f;
     Cmd.markdownDir := Cmd.markdownDir f;
     Cmd.markdownFile := name;
     Cmd.includeImages := Cmd.includeImages f;
     Cmd.includePageBreaks := Cmd.includePageBreaks f;
     Cmd.titleFromFilename := Cmd.titleFromFilename f;
     Cmd.singleFile := Cmd.singleFile f |}.

Definition image (id base64 : gostring) : Cmd.PageImage :=
  {| Cmd.PageImage_ID := id; Cmd.TopLeftX := 0; Cmd.TopLeftY := 0;
     Cmd.BottomRightX := 100; Cmd.BottomRightY := 100;
     Cmd.PageImage_ImageBase64 := base64 |}.

Definition page (index : Z) (markdown : gostring)
           (images : list Cmd.PageImage) : Cmd.Page :=
  {| Cmd.Index := index; Cmd.Markdown := markdown; Cmd.Image := [];
     Cmd.Images := images;
     Cmd.Dimensions := {| Cmd.DPI := 200; Cmd.Height := 2200;
                          Cmd.Width := 1700 |} |}.

Definition response (title : gostring) (pages : list Cmd.Page)
  : Cmd.OCRResponse :=
  {| Cmd.Pages := pages;
     Cmd.Metadata := {| Cmd.Title := title; Cmd.Author := [];
                        Cmd.CreationDate := []; Cmd.PageCount := 0 |} |}.

(** A corner of the lower-case table of package unicode: U+0130, the
    capital I with a dot above, becomes [i], and the capital letters of
    Latin-1 lie 32 below their small forms. *)
Definition lower_case (r : Z) : Z :=
  if r =? 304 then 105
  else if (192 <=? r) && (r <=? 222) && negb (r =? 215) then r + 32
  else r.

(** A world in which every file holds the JSON of [ocrResponse], no
    operation on files fails, the elements of a path are joined with a
    slash, and maps are visited in the order of [map_to_list]. *)
Definition files (ocrResponse : Cmd.OCRResponse) (api : Mistral.Env)
  : Cmd.Env :=
  {| Cmd.client_env := api;
     Cmd.Getenv_MISTRAL_API_KEY := [];
     Cmd.NotExist := fun _ => false;
     Cmd.ReadFile := fun _ => Ok ("{}" : gostring);
     Cmd.Unmarshal := fun _ => Ok ocrResponse;
     Cmd.Indent := fun data => Ok data;
     Cmd.MkdirAll_err := fun _ => None;
     Cmd.WriteFile_err := fun _ _ => None;
     Cmd.CreateTemp_name := Ok ("/tmp/mistral-ocr-1.json" : gostring);
     Cmd.Join := fun dir name => dir ++ "/" ++ name;
     Cmd.Dir := fun _ => ".";
     Cmd.range_order := map_to_list;
     Cmd.name_len := ascii_name_len;
     Cmd.To_LowerCase := lower_case |}.

End Sample.

(** ** Further vocabulary: attempts, pauses and runs of the commands *)

Module Runs.
Import Go GoLib.

(** The events of attempts that fail and are repeated: each one a
    request followed by its pause. *)
Definition rounds (r : Mistral.Request) (delays : list Z)
  : list Mistral.event :=
  flat_map (fun d => [Mistral.Send r; Mistral.Sleep d]) delays.

(** The pause [ProcessOCR] makes after a failed attempt. *)
Definition ocr_delay (attempt : Z) (r : Mistral.reply) : Z :=
  match r with
  | Mistral.Reply resp =>
      if (Mistral.StatusCode resp =? 200)
         && (length (Mistral.Body resp) =? 0)%nat
      then 10 * attempt else 10
  | Mistral.NetError _ => 10
  end.

(** The pauses after the first [k] attempts of [ProcessOCR], the first
    of which is sent when [sent] requests are out and counts as the
    attempt [attempt]. *)
Fixpoint ocr_delays (env : Mistral.Env) (sent : nat) (attempt : Z) (k : nat)
  : list Z :=
  match k with
  | O => []
  | S k' =>
      ocr_delay attempt (Mistral.net env sent)
      :: ocr_delays env (S sent) (attempt + 1) k'
  end.

(** The request carries the API key. *)
Definition authorized (APIKey : gostring) (e : Mistral.event) : Prop :=
  match e with
  | Mistral.Send r =>
      (("Authorization" : gostring), "Bearer " ++ APIKey) ∈ Mistral.Headers r
  | Mistral.Sleep _ => True
  end.

(** A run of [m] sends at most [n] requests. *)
Definition sends_at_most {A} (n : nat) (m : Cmd.M A) : Prop :=
  forall w o w',
    m w = (o, w') ->
    (Cmd.sent w <= Cmd.sent w' <= Cmd.sent w + n)%nat.

(** Kinds of events. *)
Definition to_ocr (e : Cmd.event) : Prop :=
  exists r, e = Cmd.Net (Mistral.Send r) /\ Mistral.URL r = "/ocr".

Definition is_Remove (e : Cmd.event) : Prop :=
  match e with
  | Cmd.Remove _ => True
  | _ => False
  end.

Definition on_files (e : Cmd.event) : Prop :=
  match e with
  | Cmd.MkdirAll _ | Cmd.WriteFile _ _ => True
  | _ => False
  end.

Definition only_to_ocr (e : Cmd.event) : Prop :=
  match e with
  | Cmd.Net (Mistral.Send r) => Mistral.URL r = "/ocr"
  | _ => True
  end.

(** A request to [/ocr] asks for the images. *)
Definition asks_for_images (e : Cmd.event) : Prop :=
  match e with
  | Cmd.Net (Mistral.Send r) =>
      Mistral.URL r = "/ocr" ->
      exists document,
        Mistral.Payload r =
          Mistral.JSONBody "mistral-ocr-latest" document true
  | _ => True
  end.

(** What the deferred removal of the temporary file [tmp] does when
    it runs. *)
Definition last_removal (tmp : option gostring) : list Cmd.event :=
  match tmp with
  | Some name => [Cmd.Remove name]
  | None => []
  end.

(** A run of [m] that returns, or that panics, ends with the removal
    of [tmp] and removes nothing before; a run that ends in [os.Exit]
    removes nothing. *)
Definition removes_on_return {A} (tmp : option gostring) (m : Cmd.M A)
  : Prop :=
  forall w o w',
    m w = (o, w') ->
    exists evs,
      Cmd.trace w' = Cmd.trace w ++ evs
      /\ match o with
         | Cmd.Exit _ => Forall (fun e => ~ is_Remove e) evs
         | _ =>
             exists evs0,
               evs = evs0 ++ last_removal tmp
               /\ Forall (fun e => ~ is_Remove e) evs0
         end.

(** The world in which a call of the client starts, and the world of
    the command after the call. *)
Definition client_world (w : Cmd.world) : Mistral.world :=
  {| Mistral.sent := Cmd.sent w; Mistral.trace := [] |}.

Definition called (cw : Mistral.world) (w : Cmd.world) : Cmd.world :=
  {| Cmd.sent := Mistral.sent cw;
     Cmd.trace := Cmd.trace w ++ map Cmd.Net (Mistral.trace cw) |}.

(** The world of a command after a request of the client that was
    not repeated. *)
Definition requested (r : Mistral.Request) (w : Cmd.world) : Cmd.world :=
  {| Cmd.sent := S (Cmd.sent w);
     Cmd.trace := Cmd.trace w ++ [Cmd.Net (Mistral.Send r)] |}.

(** The key the commands work with: the flag, or else the environment
    variable. *)
Definition the_key (env : Cmd.Env) (f : Cmd.Flags) : gostring :=
  if decide (Cmd.apiKey f <> []) then Cmd.apiKey f
  else Cmd.Getenv_MISTRAL_API_KEY env.

(** Replies that settle an operation of the client at once: the reply
    to the request sent after [k] earlier ones has status 200 and
    carries the file ID, the signed URL, or the result of the OCR. *)
Definition upload_reply (env : Mistral.Env) (k : nat) (id : gostring)
  : Prop :=
  exists resp,
    Mistral.net env k = Mistral.Reply resp
    /\ Mistral.StatusCode resp = 200
    /\ Mistral.Body resp <> []
    /\ Mistral.Unmarshal_id env (Mistral.Body resp) = Ok id
    /\ id <> [].

Definition url_reply (env : Mistral.Env) (k : nat) (url : gostring)
  : Prop :=
  exists resp,
    Mistral.net env k = Mistral.Reply resp
    /\ Mistral.StatusCode resp = 200
    /\ Mistral.Unmarshal_url env (Mistral.Body resp) = Ok url
    /\ url <> [].

Definition ocr_reply (env : Mistral.Env) (k : nat) (body : gostring)
  : Prop :=
  exists resp,
    Mistral.net env k = Mistral.Reply resp
    /\ Mistral.StatusCode resp = 200
    /\ Mistral.Body resp = body
    /\ body <> []
    /\ Mistral.json_Valid env body = true.

(** The file written for a page in multi-file mode, with the content
    the page has once its images are dealt with. *)
Definition page_write (env : Cmd.Env) (f : Cmd.Flags) (page : Cmd.Page)
           (content : gostring) : Cmd.event :=
  Cmd.WriteFile
    (Cmd.Join env (Cmd.markdownDir f) (itoa (Cmd.Index page) ++ ".md"))
    content.

(** The page has the content [content], and its file can be written. *)
Definition page_done (env : Cmd.Env) (f : Cmd.Flags) (page : Cmd.Page)
           (content : gostring) : Prop :=
  Cmd.page_content env f page = Some content
  /\ Cmd.WriteFile_err env
       (Cmd.Join env (Cmd.markdownDir f) (itoa (Cmd.Index page) ++ ".md"))
       content = None.

End Runs.

(** ** The commands as cobra runs them

    For a command declared with [cobra.ExactArgs(1)], cobra checks the
    number of arguments, then calls [PreRun] (if any) and [Run]; on any
    other number of arguments [Execute] returns an error, which [main]
    prints before it exits with code 1. *)

Module Cli.
Section Cobra.
Variable env : Cmd.Env.

Definition processCmd_Execute (f : Cmd.Flags) (args : list gostring)
  : Cmd.M unit :=
  match args with
  | [filePath] => Cmd.processCmd_Run env f filePath
  | _ => Cmd.exit 1
  end.

Definition convertCmd_Execute (f : Cmd.Flags) (args : list gostring)
  : Cmd.M unit :=
  match args with
  | [jsonFile] =>
      Cmd.convertJSONToMarkdown env (Cmd.convertCmd_PreRun f) jsonFile
  | _ => Cmd.exit 1
  end.

Definition processMarkdownCmd_Execute (f : Cmd.Flags) (args : list gostring)
  : Cmd.M unit :=
  match args with
  | [fileOrURL] =>
      Cmd.processAndConvertToMarkdown env (Cmd.processMarkdownCmd_PreRun f)
                                      fileOrURL
  | _ => Cmd.exit 1
  end.

End Cobra.
End Cli.

(** * Properties *)

Import Go GoLib.

(** ** The API client *)

Section ClientProperties.
Import Mistral Spec.
Variable env : Mistral.Env.
Variable APIKey : gostring.

(** Unfolding the loops: a failure that is retried costs one request
    and one pause, and hands its error to the next round. *)
Lemma upload_loop_retry path n lastErr w msg :
  upload_transient env (net env (sent w)) = Some msg ->
  upload_loop env APIKey path (S n) lastErr w =
    upload_loop env APIKey path n (Some msg)
      (retried (upload_request APIKey path) 3 w).
Proof.
  intros H. cbn [upload_loop]. unfold bind at 1, send, retried.
  unfold upload_transient in H.
  destruct (net env (sent w)) as [err|resp].
  - injection H as <-. unfold bind, sleep. cbn. by rewrite <- app_assoc.
  - destruct (negb (StatusCode resp =? 200)).
    + destruct ((StatusCode resp >=? 500) || (StatusCode resp =? 429));
        [|discriminate].
      injection H as <-. unfold bind, sleep. cbn. by rewrite <- app_assoc.
    + destruct (length (Body resp) =? 0)%nat.
      * injection H as <-. unfold bind, sleep. cbn. by rewrite <- app_assoc.
      * destruct (Unmarshal_id env (Body resp)) as [id|err].
        -- destruct (decide (id = [])); [|discriminate].
           injection H as <-. unfold bind, sleep. cbn.
           by rewrite <- app_assoc.
        -- injection H as <-. unfold bind, sleep. cbn.
           by rewrite <- app_assoc.
Qed.

(** A reply that is not retried ends the loop after its request. *)
Lemma upload_loop_final path n lastErr w :
  upload_transient env (net env (sent w)) = None ->
  exists r,
    upload_loop env APIKey path (S n) lastErr w =
      (r, asked (upload_request APIKey path) w)
    /\ (other_status (net env (sent w)) = true ->
        exists resp, net env (sent w) = Reply resp
          /\ r = Fail (status_error (StatusCode resp) (String_ resp))).
Proof.
  intros H. cbn [upload_loop]. unfold bind at 1, send, asked.
  unfold upload_transient in H. unfold other_status.
  destruct (net env (sent w)) as [err|resp]; [discriminate|].
  destruct (negb (StatusCode resp =? 200)) eqn:E200.
  - destruct ((StatusCode resp >=? 500) || (StatusCode resp =? 429));
      [discriminate|].
    eexists; split; [reflexivity|]. intros _. by exists resp.
  - destruct (length (Body resp) =? 0)%nat; [discriminate|].
    destruct (Unmarshal_id env (Body resp)) as [id|err]; [|discriminate].
    destruct (decide (id = [])); [discriminate|].
    eexists; split; [reflexivity|]. intros [=].
Qed.

Lemma ocr_loop_retry req n attempt lastErr w msg :
  ocr_transient env (net env (sent w)) = Some msg ->
  exists delay,
    ocr_loop env req (S n) attempt lastErr w =
      ocr_loop env req n (attempt + 1) (Some msg) (retried req delay w).
Proof.
  intros H. cbn [ocr_loop]. unfold bind at 1, send, retried.
  unfold ocr_transient, ocr_errMsg in H.
  destruct (net env (sent w)) as [err|resp].
  - injection H as <-. eexists. unfold bind, sleep. cbn.
    by rewrite <- app_assoc.
  - destruct (negb (StatusCode resp =? 200)).
    + destruct ((StatusCode resp >=? 500) || (StatusCode resp =? 429));
        [|discriminate].
      injection H as <-. eexists. unfold bind, sleep. cbn.
      by rewrite <- app_assoc.
    + destruct (length (Body resp) =? 0)%nat.
      * injection H as <-. eexists. unfold bind, sleep. cbn.
        by rewrite <- app_assoc.
      * destruct (negb (json_Valid env (Body resp))); [|discriminate].
        injection H as <-. eexists. unfold bind, sleep. cbn.
        by rewrite <- app_assoc.
Qed.

Lemma ocr_loop_final req n attempt lastErr w :
  ocr_transient env (net env (sent w)) = None ->
  exists r,
    ocr_loop env req (S n) attempt lastErr w = (r, asked req w)
    /\ (other_status (net env (sent w)) = true ->
        exists resp, net env (sent w) = Reply resp
          /\ r = Fail (status_error (StatusCode resp) (ocr_errMsg resp))).
Proof.
  intros H. cbn [ocr_loop]. unfold bind at 1, send, asked.
  unfold ocr_transient in H. unfold other_status, ocr_errMsg.
  destruct (net env (sent w)) as [err|resp]; [discriminate|].
  destruct (negb (StatusCode resp =? 200)) eqn:E200.
  - destruct ((StatusCode resp >=? 500) || (StatusCode resp =? 429));
      [discriminate|].
    eexists; split; [reflexivity|]. intros _. by exists resp.
  - destruct (length (Body resp) =? 0)%nat; [discriminate|].
    destruct (negb (json_Valid env (Body resp))); [discriminate|].
    eexists; split; [reflexivity|]. intros [=].
Qed.

Lemma listed_upload_transient r :
  listed_upload env r = true -> is_Some (upload_transient env r).
Proof.
  unfold listed_upload, server_error, rate_limited, empty_body,
    malformed_upload, upload_transient.
  destruct r as [err|resp]; [by eauto|].
  destruct (StatusCode resp =? 200) eqn:E200; cbn.
  - apply Z.eqb_eq in E200. rewrite E200. cbn.
    destruct (length (Body resp) =? 0)%nat; cbn; [by eauto|].
    destruct (Unmarshal_id env (Body resp)); [discriminate|by eauto].
  - rewrite !orb_false_r.
    destruct ((StatusCode resp >=? 500) || (StatusCode resp =? 429));
      [by eauto|discriminate].
Qed.

Lemma listed_ocr_transient r :
  listed_ocr env r = true -> is_Some (ocr_transient env r).
Proof.
  unfold listed_ocr, server_error, rate_limited, empty_body,
    malformed_ocr, ocr_transient.
  destruct r as [err|resp]; [by eauto|].
  destruct (StatusCode resp =? 200) eqn:E200; cbn.
  - apply Z.eqb_eq in E200. rewrite E200. cbn.
    destruct (length (Body resp) =? 0)%nat; cbn; [by eauto|].
    destruct (negb (json_Valid env (Body resp))); [by eauto|discriminate].
  - rewrite !orb_false_r.
    destruct ((StatusCode resp >=? 500) || (StatusCode resp =? 429));
      [by eauto|discriminate].
Qed.

Lemma other_status_upload r :
  other_status r = true -> upload_transient env r = None.
Proof.
  unfold other_status, upload_transient.
  destruct r as [err|resp]; [discriminate|].
  destruct (negb (StatusCode resp =? 200)); [|discriminate].
  destruct (StatusCode resp >=? 500); [discriminate|].
  by destruct (StatusCode resp =? 429).
Qed.

Lemma other_status_ocr r :
  other_status r = true -> ocr_transient env r = None.
Proof.
  unfold other_status, ocr_transient.
  destruct r as [err|resp]; [discriminate|].
  destruct (negb (StatusCode resp =? 200)); [|discriminate].
  destruct (StatusCode resp >=? 500); [discriminate|].
  by destruct (StatusCode resp =? 429).
Qed.

(** The loops never send more requests than attempts are left, and send
    one when an attempt is left. *)
Lemma upload_loop_requests path n :
  forall lastErr w r w',
    upload_loop env APIKey path n lastErr w = (r, w') ->
    (sent w <= sent w' <= sent w + n)%nat /\ (n <> 0%nat -> (sent w < sent w')%nat).
Proof.
  induction n as [|n IH]; intros lastErr w r w' H.
  - cbn in H. injection H as <- <-. lia.
  - destruct (upload_transient env (net env (sent w))) as [msg|] eqn:E.
    + rewrite (upload_loop_retry _ _ _ _ _ E) in H.
      apply IH in H. cbn in H. lia.
    + destruct (upload_loop_final path n lastErr w E) as (r0 & Hr & _).
      rewrite Hr in H. injection H as <- <-. cbn. lia.
Qed.

Lemma ocr_loop_requests req n :
  forall attempt lastErr w r w',
    ocr_loop env req n attempt lastErr w = (r, w') ->
    (sent w <= sent w' <= sent w + n)%nat /\ (n <> 0%nat -> (sent w < sent w')%nat).
Proof.
  induction n as [|n IH]; intros attempt lastErr w r w' H.
  - cbn in H. injection H as <- <-. lia.
  - destruct (ocr_transient env (net env (sent w))) as [msg|] eqn:E.
    + destruct (ocr_loop_retry req n attempt lastErr w msg E) as (d & Hd).
      rewrite Hd in H. apply IH in H. cbn in H. lia.
    + destruct (ocr_loop_final req n attempt lastErr w E) as (r0 & Hr & _).
      rewrite Hr in H. injection H as <- <-. cbn. lia.
Qed.

(** After [k] failures in a row that are retried, the loop stands at its
    next attempt, [k] requests later, with the error of the last
    failure at hand. *)
Lemma upload_loop_skip path k :
  forall n lastErr w,
    (forall j, (j < k)%nat ->
               is_Some (upload_transient env (net env (sent w + j)))) ->
    exists w' lastErr',
      sent w' = (sent w + k)%nat
      /\ upload_loop env APIKey path (k + n) lastErr w =
           upload_loop env APIKey path n lastErr' w'
      /\ (forall k', k = S k' ->
            lastErr' = upload_transient env (net env (sent w + k'))
            /\ is_Some lastErr').
Proof.
  induction k as [|k IH]; intros n lastErr w H.
  - exists w, lastErr. split; [lia|]. split; [done|]. by intros k' [=].
  - destruct (IH (S n) lastErr w) as (w1 & le1 & Hs & Heq & _).
    { intros j Hj. apply H. lia. }
    destruct (H k) as [msg Hmsg]; [lia|].
    rewrite <- Hs in Hmsg.
    exists (retried (upload_request APIKey path) 3 w1), (Some msg).
    split; [cbn; lia|]. split.
    + replace (S k + n)%nat with (k + S n)%nat by lia.
      rewrite Heq. by apply upload_loop_retry.
    + intros k' [= <-]. rewrite <- Hs. by rewrite Hmsg.
Qed.

Lemma ocr_loop_skip req k :
  forall n attempt lastErr w,
    (forall j, (j < k)%nat ->
               is_Some (ocr_transient env (net env (sent w + j)))) ->
    exists w' attempt' lastErr',
      sent w' = (sent w + k)%nat
      /\ ocr_loop env req (k + n) attempt lastErr w =
           ocr_loop env req n attempt' lastErr' w'
      /\ (forall k', k = S k' ->
            lastErr' = ocr_transient env (net env (sent w + k'))
            /\ is_Some lastErr').
Proof.
  induction k as [|k IH]; intros n attempt lastErr w H.
  - exists w, attempt, lastErr. split; [lia|]. split; [done|].
    by intros k' [=].
  - destruct (IH (S n) attempt lastErr w) as (w1 & a1 & le1 & Hs & Heq & _).
    { intros j Hj. apply H. lia. }
    destruct (H k) as [msg Hmsg]; [lia|].
    rewrite <- Hs in Hmsg.
    destruct (ocr_loop_retry req n a1 le1 w1 msg Hmsg) as (d & Hd).
    exists (retried req d w1), (a1 + 1), (Some msg).
    split; [cbn; lia|]. split.
    + replace (S k + n)%nat with (k + S n)%nat by lia.
      by rewrite Heq.
    + intros k' [= <-]. rewrite <- Hs. by rewrite Hmsg.
Qed.

Lemma UploadFile_small path size w :
  Stat env path = Ok size -> size <= MaxFileSize ->
  UploadFile env APIKey path w = upload_loop env APIKey path 3 None w.
Proof.
  intros HS Hle. unfold UploadFile. rewrite HS.
  destruct (size >? MaxFileSize) eqn:E; [|done].
  apply Z.gtb_lt in E. lia.
Qed.

Lemma ProcessOCR_supported (docType : gostring) docSource b w :
  docType = "document_url" \/ docType = "image_url" ->
  ProcessOCR env APIKey docType docSource b w =
    ocr_loop env
      (ocr_request APIKey (<[docType := docSource]> {[ ("type" : gostring) := docType ]}) b)
      5 1 None w.
Proof.
  intros [-> | ->]; unfold ProcessOCR.
  - by rewrite decide_True.
  - rewrite decide_False; [|discriminate]. by rewrite decide_True.
Qed.

(** C1.  A file whose size, as [os.Stat] reports it, exceeds
    [MaxFileSize] makes [UploadFile] return an error and leave the world
    as it found it: the size is checked before the loop of attempts, so
    nothing is sent and nothing is waited for. *)
Theorem UploadFile_rejects_large_file path size w :
  Stat env path = Ok size ->
  size > MaxFileSize ->
  MaxFileSize = 54525952
  /\ UploadFile env APIKey path w =
       (Fail ("file is too large (" ++ fmt_MB env size
              ++ " MB). Maximum allowed size is "
              ++ fmt_MB env MaxFileSize ++ " MB"), w).
Proof.
  intros HS Hgt. split; [reflexivity|].
  unfold UploadFile. rewrite HS.
  destruct (size >? MaxFileSize) eqn:E; [done|].
  rewrite Z.gtb_ltb in E. apply Z.ltb_ge in E. lia.
Qed.

(** C9.  A document type other than ["document_url"] and ["image_url"]
    makes [ProcessOCR] return the error "unsupported document type"
    and leave the world as it found it: no request is sent and the loop
    of attempts is not entered. *)
Theorem ProcessOCR_rejects_unknown_type (docType : gostring) docSource b w :
  docType <> "document_url" ->
  docType <> "image_url" ->
  ProcessOCR env APIKey docType docSource b w =
    (Fail ("unsupported document type: " ++ docType), w).
Proof.
  intros H1 H2. unfold ProcessOCR.
  rewrite decide_False; [|done]. by rewrite decide_False.
Qed.

(** C6.  When every attempt of the budget (three for [UploadFile], five
    for [ProcessOCR]) ends in a failure that is retried, the operation
    has sent exactly that many requests and returns an error whose
    message ends with the error of the last attempt. *)
Theorem exhausted_retries_report_last_error :
  (forall path size w,
      Stat env path = Ok size ->
      size <= MaxFileSize ->
      (forall j, (j < 3)%nat ->
                 is_Some (upload_transient env (net env (sent w + j)))) ->
      exists last w',
        upload_transient env (net env (sent w + 2)) = Some last
        /\ UploadFile env APIKey path w =
             (Fail ("failed to upload file after 3 attempts: " ++ last), w')
        /\ includes ("failed to upload file after 3 attempts: " ++ last) last
        /\ sent w' = (sent w + 3)%nat)
  /\ (forall (docType : gostring) docSource b w,
        docType = "document_url" \/ docType = "image_url" ->
        (forall j, (j < 5)%nat ->
                   is_Some (ocr_transient env (net env (sent w + j)))) ->
        exists last w',
          ocr_transient env (net env (sent w + 4)) = Some last
          /\ ProcessOCR env APIKey docType docSource b w =
               (Fail ("failed after 5 attempts. Last error: " ++ last), w')
          /\ includes ("failed after 5 attempts. Last error: " ++ last) last
          /\ sent w' = (sent w + 5)%nat).
Proof.
  split.
  - intros path size w HS Hle H.
    destruct (upload_loop_skip path 3 0 None w H)
      as (w' & le & Hs & Heq & Hlast).
    destruct (Hlast 2%nat eq_refl) as [Hle' [last Hl]].
    exists last, w'. rewrite (UploadFile_small _ _ _ HS Hle).
    change 3%nat with (3 + 0)%nat at 1. rewrite Heq.
    split; [by rewrite <- Hle'|].
    split; [by rewrite Hl|].
    split; [|done].
    exists ("failed to upload file after 3 attempts: " : gostring), [].
    by rewrite app_nil_r.
  - intros docType docSource b w Hd H.
    rewrite (ProcessOCR_supported _ _ _ _ Hd).
    destruct (ocr_loop_skip
                (ocr_request APIKey
                   (<[docType := docSource]> {[ ("type" : gostring) := docType ]}) b)
                5 0 1 None w H)
      as (w' & a' & le & Hs & Heq & Hlast).
    destruct (Hlast 4%nat eq_refl) as [Hle' [last Hl]].
    exists last, w'.
    change 5%nat with (5 + 0)%nat at 1. rewrite Heq.
    split; [by rewrite <- Hle'|].
    split; [by rewrite Hl|].
    split; [|done].
    exists ("failed after 5 attempts. Last error: " : gostring), [].
    by rewrite app_nil_r.
Qed.

(** C5, as the code has it.  [UploadFile] and [ProcessOCR] send at most
    three (resp. five) requests; as long as the replies are server
    errors, rate-limiting responses, empty bodies or malformed JSON and
    an attempt is left, they send another request; and a reply with any
    other status than 200 ends them at once with an error.
    [GetFileURL] sends exactly one request and fails on any failure of
    it. *)
Theorem retry_policy :
  (forall path size w r w',
      Stat env path = Ok size ->
      size <= MaxFileSize ->
      UploadFile env APIKey path w = (r, w') ->
      (sent w' <= sent w + 3)%nat
      /\ forall k, (k < 3)%nat ->
           (forall j, (j < k)%nat ->
                      listed_upload env (net env (sent w + j)) = true) ->
           (sent w + k < sent w')%nat
           /\ (other_status (net env (sent w + k)) = true ->
               is_Fail r = true /\ sent w' = (sent w + k + 1)%nat))
  /\ (forall (docType : gostring) docSource b w r w',
        docType = "document_url" \/ docType = "image_url" ->
        ProcessOCR env APIKey docType docSource b w = (r, w') ->
        (sent w' <= sent w + 5)%nat
        /\ forall k, (k < 5)%nat ->
             (forall j, (j < k)%nat ->
                        listed_ocr env (net env (sent w + j)) = true) ->
             (sent w + k < sent w')%nat
             /\ (other_status (net env (sent w + k)) = true ->
                 is_Fail r = true /\ sent w' = (sent w + k + 1)%nat))
  /\ (forall fileID w r w',
        GetFileURL env APIKey fileID w = (r, w') ->
        sent w' = (sent w + 1)%nat
        /\ (forall err, net env (sent w) = NetError err ->
                        r = Fail ("error fetching file URL: " ++ err))
        /\ (forall resp, net env (sent w) = Reply resp ->
                         StatusCode resp <> 200 ->
                         r = Fail (status_error (StatusCode resp)
                                                (String_ resp)))).
Proof.
  split; [|split].
  - intros path size w r w' HS Hle Hrun.
    rewrite (UploadFile_small _ _ _ HS Hle) in Hrun.
    split; [by apply upload_loop_requests in Hrun; lia|].
    intros k Hk Hlisted.
    destruct (upload_loop_skip path k (3 - k) None w)
      as (w1 & le & Hs & Heq & _).
    { intros j Hj. by apply listed_upload_transient, Hlisted. }
    replace (k + (3 - k))%nat with 3%nat in Heq by lia.
    rewrite Heq in Hrun.
    destruct (3 - k)%nat as [|n] eqn:En; [lia|].
    split.
    + apply upload_loop_requests in Hrun. lia.
    + intros Hother. rewrite <- Hs in Hother.
      destruct (upload_loop_final path n le w1
                  (other_status_upload _ Hother)) as (r0 & Hr0 & Hfail).
      rewrite Hr0 in Hrun. injection Hrun as <- <-.
      destruct (Hfail Hother) as (resp & _ & ->). cbn. split; [done|lia].
  - intros docType docSource b w r w' Hd Hrun.
    rewrite (ProcessOCR_supported _ _ _ _ Hd) in Hrun.
    split; [by apply ocr_loop_requests in Hrun; lia|].
    intros k Hk Hlisted.
    destruct (ocr_loop_skip
                (ocr_request APIKey
                   (<[docType := docSource]> {[ ("type" : gostring) := docType ]}) b)
                k (5 - k) 1 None w)
      as (w1 & a1 & le & Hs & Heq & _).
    { intros j Hj. by apply listed_ocr_transient, Hlisted. }
    replace (k + (5 - k))%nat with 5%nat in Heq by lia.
    rewrite Heq in Hrun.
    destruct (5 - k)%nat as [|n] eqn:En; [lia|].
    split.
    + apply ocr_loop_requests in Hrun. lia.
    + intros Hother. rewrite <- Hs in Hother.
      destruct (ocr_loop_final
                  (ocr_request APIKey
                     (<[docType := docSource]> {[ ("type" : gostring) := docType ]}) b)
                  n a1 le w1
                  (other_status_ocr _ Hother)) as (r0 & Hr0 & Hfail).
      rewrite Hr0 in Hrun. injection Hrun as <- <-.
      destruct (Hfail Hother) as (resp & _ & ->). cbn. split; [done|lia].
  - intros fileID w r w'. unfold GetFileURL, bind, send.
    destruct (net env (sent w)) as [err|resp] eqn:En.
    + intros [= <- <-]. cbn. split; [lia|]. split.
      * by intros ? [= ->].
      * by intros ? [=].
    + destruct (negb (StatusCode resp =? 200)) eqn:E200.
      * intros [= <- <-]. cbn. split; [lia|]. split.
        -- by intros ? [=].
        -- by intros ? [= ->] _.
      * apply negb_false_iff, Z.eqb_eq in E200.
        destruct (Unmarshal_url env (Body resp)) as [url|err].
        -- destruct (decide (url = [])); intros [= <- <-]; cbn;
             (split; [lia|]); (split; [by intros ? [=]|]);
             by intros ? [= ->] ?.
        -- intros [= <- <-]; cbn;
             (split; [lia|]); (split; [by intros ? [=]|]);
             by intros ? [= ->] ?.
Qed.

End ClientProperties.

(** C5, as the specification states it, fails for [GetFileURL]: the
    first reply is a server error and the second would have carried the
    signed URL, yet the operation ends in an error after one request. *)
Lemma GetFileURL_does_not_retry :
  let env := Sample.client 0 [Sample.http 500 "busy";
                              Sample.http 200 "url=https://signed"] in
  Spec.server_error (Mistral.net env 0) = true
  /\ Mistral.GetFileURL env "key" "file-1" Mistral.start =
       (Fail "API returned error status: 500 - busy",
        {| Mistral.sent := 1;
           Mistral.trace := [Mistral.Send (Mistral.url_request "key" "file-1")] |}).
Proof. split; reflexivity. Qed.

(** A file of 60000000 bytes: the error, and a world left untouched. *)
Lemma UploadFile_rejects_large_file_witness :
  let env := Sample.client 60000000 [Sample.http 200 "id=f1"] in
  Mistral.Stat env "scan.pdf" = Ok 60000000
  /\ 60000000 > Mistral.MaxFileSize
  /\ Mistral.UploadFile env "key" "scan.pdf" Mistral.start =
       (Fail "file is too large (57 MB). Maximum allowed size is 52 MB",
        Mistral.start).
Proof.
  intros env.
  split; [reflexivity|]. split; [reflexivity|].
  apply (UploadFile_rejects_large_file env "key" "scan.pdf" 60000000
           Mistral.start); reflexivity.
Defined.

(** The type ["file_url"] is refused before anything is sent. *)
Lemma ProcessOCR_rejects_unknown_type_witness :
  let env := Sample.client 0 [Sample.http 200 "{}"] in
  ("file_url" : gostring) <> "document_url"
  /\ ("file_url" : gostring) <> "image_url"
  /\ Mistral.ProcessOCR env "key" "file_url" "https://x/a.pdf" false
       Mistral.start =
       (Fail "unsupported document type: file_url", Mistral.start).
Proof.
  intros env.
  split; [discriminate|]. split; [discriminate|].
  apply (ProcessOCR_rejects_unknown_type env "key" "file_url");
    discriminate.
Defined.

(** Three failed uploads, the last with an empty body; five failed OCR
    requests, the last a timeout. *)
Lemma exhausted_retries_report_last_error_witness :
  let env := Sample.client 1024 [Sample.http 500 "busy"; Sample.http 429 "slow down";
                                 Sample.http 200 ""; Sample.http 200 "<html>";
                                 Mistral.NetError "timeout"] in
  (exists w',
      Mistral.UploadFile env "key" "scan.pdf" Mistral.start =
        (Fail ("failed to upload file after 3 attempts: "
               ++ "received empty response from API"), w')
      /\ Mistral.sent w' = 3%nat)
  /\ (exists w',
        Mistral.ProcessOCR env "key" "document_url" "https://x/a.pdf" false
          Mistral.start =
          (Fail ("failed after 5 attempts. Last error: " ++ "timeout"), w')
        /\ Mistral.sent w' = 5%nat).
Proof.
  intros env.
  destruct (exhausted_retries_report_last_error env "key") as [HU HO].
  split.
  - destruct (HU "scan.pdf" 1024 Mistral.start) as (last & w' & Hl & Hr & _ & Hs).
    + reflexivity.
    + discriminate.
    + intros [|[|[|j]]] Hj; [by eexists..|lia].
    + injection Hl as <-. by exists w'.
  - destruct (HO "document_url" "https://x/a.pdf" false Mistral.start)
      as (last & w' & Hl & Hr & _ & Hs).
    + by left.
    + intros [|[|[|[|[|j]]]]] Hj; [by eexists..|lia].
    + injection Hl as <-. by exists w'.
Defined.

(** A server error is retried, the status 404 that follows is not. *)
Lemma retry_policy_witness :
  let env := Sample.client 1024 [Sample.http 503 "busy"; Sample.http 404 "no such file"] in
  let run := Mistral.UploadFile env "key" "scan.pdf" Mistral.start in
  Spec.listed_upload env (Mistral.net env 0) = true
  /\ Spec.other_status (Mistral.net env 1) = true
  /\ Spec.is_Fail (fst run) = true
  /\ Mistral.sent (snd run) = 2%nat.
Proof.
  intros env run.
  split; [reflexivity|]. split; [reflexivity|].
  destruct (retry_policy env "key") as [HU _].
  destruct (HU "scan.pdf" 1024 Mistral.start (fst run) (snd run))
    as [_ Hk]; [reflexivity|discriminate|reflexivity|].
  destruct (Hk 1%nat) as [_ Hfail]; [lia| |].
  - intros [|j] Hj; [reflexivity|lia].
  - apply Hfail. reflexivity.
Defined.

(** ** The converter *)

Section ConverterProperties.
Import Cmd Doc.
Variable env : Cmd.Env.

Lemma single_loop_join f :
  forall pages contents n i combined,
    Forall2 (fun page content => page_content env f page = Some content)
            pages contents ->
    n = i + Z.of_nat (length pages) ->
    single_loop env f n i pages combined =
      Some (combined ++ join (separator f) (zip_with page_block pages contents)).
Proof.
  induction pages as [|page pages IH]; intros contents n i combined HF Hn.
  - inversion HF; subst. cbn. by rewrite app_nil_r.
  - inversion HF as [|? content ? contents' Hc HF']; subst.
    cbn [single_loop]. rewrite Hc.
    rewrite (IH contents' _ (i + 1)); [|done|cbn [length]; lia].
    f_equal. cbn [zip_with]. unfold separator.
    destruct pages as [|page' pages].
    + inversion HF'; subst. cbn [zip_with join length].
      replace (i <? i + Z.of_nat 1 - 1) with false
        by (symmetry; apply Z.ltb_ge; lia).
      rewrite andb_false_r, app_nil_r. unfold page_block.
      by rewrite <- !app_assoc.
    + inversion HF'; subst. cbn [zip_with join].
      replace (i <? i + Z.of_nat (length (page :: page' :: pages)) - 1)
        with true by (symmetry; apply Z.ltb_lt; cbn [length]; lia).
      rewrite andb_true_r. unfold page_block.
      destruct (includePageBreaks f); rewrite <- ?app_assoc; cbn [app];
        by rewrite <- ?app_assoc.
Qed.

Lemma do_MkdirAll_ok path w :
  MkdirAll_err env path = None ->
  do_MkdirAll env path w = (Return None, after [MkdirAll path] w).
Proof. intros H. unfold do_MkdirAll, bind, emit, ret. cbn. by rewrite H. Qed.

Lemma do_WriteFile_ok name data w :
  WriteFile_err env name data = None ->
  do_WriteFile env name data w = (Return None, after [WriteFile name data] w).
Proof. intros H. unfold do_WriteFile, bind, emit, ret. cbn. by rewrite H. Qed.

Lemma after_after evs1 evs2 w :
  after evs2 (after evs1 w) = after (evs1 ++ evs2) w.
Proof. unfold after. cbn. by rewrite app_assoc. Qed.

Lemma page_content_plain f page :
  includeImages f = false -> page_content env f page = Some (Markdown page).
Proof. intros H. unfold page_content. by rewrite H. Qed.

Lemma multi_loop_run f :
  includeImages f = false ->
  (forall name data, WriteFile_err env name data = None) ->
  forall pages w,
    multi_loop env f pages w =
      (Return tt, after (map (page_file env f) pages) w).
Proof.
  intros Hi Hw. induction pages as [|page pages IH]; intros w.
  - unfold after. cbn. rewrite app_nil_r. by destruct w.
  - cbn [multi_loop]. rewrite (page_content_plain _ _ Hi).
    unfold bind at 1. rewrite do_WriteFile_ok by apply Hw.
    rewrite IH, after_after. reflexivity.
Qed.

(** The run of the converter in single-file mode when nothing fails. *)
Lemma convert_single_run f jsonFile data ocrResponse contents w :
  singleFile f = true ->
  ReadFile env jsonFile = Ok data ->
  Unmarshal env data = Ok ocrResponse ->
  (forall path, MkdirAll_err env path = None) ->
  (forall name content, WriteFile_err env name content = None) ->
  Forall2 (fun page content => page_content env f page = Some content)
          (Pages ocrResponse) contents ->
  convertJSONToMarkdown env f jsonFile w =
    (Return tt,
     after (directories env f
            ++ [WriteFile (Join env (markdownDir f) (single_name f))
                          (single_document f jsonFile ocrResponse contents)])
           w).
Proof.
  intros Hs Hr Hu Hm Hw HF. unfold convertJSONToMarkdown.
  rewrite Hr, Hu. unfold bind at 1. rewrite do_MkdirAll_ok by apply Hm.
  rewrite Hs.
  rewrite (single_loop_join f _ contents _ 0 _ HF) by lia.
  unfold directories, single_name, single_document.
  destruct (decide (markdownFile f <> [])) as [Hmf|Hmf].
  - destruct (decide (Dir env (markdownFile f) <> ".")) as [Hd|Hd].
    + unfold bind. rewrite do_MkdirAll_ok by apply Hm.
      unfold ret. rewrite do_WriteFile_ok by apply Hw.
      rewrite !after_after. cbn [app]. by rewrite <- !app_assoc.
    + unfold bind, ret. rewrite do_WriteFile_ok by apply Hw.
      rewrite !after_after. cbn [app]. by rewrite <- !app_assoc.
  - unfold bind, ret. rewrite do_WriteFile_ok by apply Hw.
    rewrite !after_after. cbn [app]. by rewrite <- !app_assoc.
Qed.

(** C2, as the code has it.  From a payload that decodes, and when no
    operation on files fails, single-file conversion writes exactly one
    document.  After the title and the metadata it holds one block per
    page, in the order in which the payload lists the pages: the header
    of the page, then its content (its Markdown, with the image
    references replaced when images are included).  With page breaks
    the delimiter stands between any two blocks and not after the last
    one. *)
Theorem single_file_conversion f jsonFile data ocrResponse contents w :
  singleFile f = true ->
  ReadFile env jsonFile = Ok data ->
  Unmarshal env data = Ok ocrResponse ->
  (forall path, MkdirAll_err env path = None) ->
  (forall name content, WriteFile_err env name content = None) ->
  Forall2 (fun page content => page_content env f page = Some content)
          (Pages ocrResponse) contents ->
  exists evs,
    convertJSONToMarkdown env f jsonFile w = (Return tt, after evs w)
    /\ written evs =
         [(Join env (markdownDir f) (single_name f),
           "# " ++ document_title f jsonFile ocrResponse ++ nl ++ nl
           ++ metadata_block (Metadata ocrResponse)
           ++ join (if includePageBreaks f then nl ++ nl ++ "---" ++ nl ++ nl
                    else [])
                   (zip_with page_block (Pages ocrResponse) contents))]
    /\ (includeImages f = false -> contents = map Markdown (Pages ocrResponse)).
Proof.
  intros Hs Hr Hu Hm Hw HF. eexists. split.
  - by apply (convert_single_run f jsonFile data ocrResponse contents).
  - split.
    + unfold directories, written.
      destruct (decide (markdownFile f <> []));
        [destruct (decide (Dir env (markdownFile f) <> "."))|]; reflexivity.
    + intros Hi. clear -HF Hi. induction HF as [|page content ? ? Hc ? IH].
      * reflexivity.
      * rewrite (page_content_plain _ _ Hi) in Hc. injection Hc as <-.
        cbn [map]. by rewrite IH.
Qed.

(** C3.  From a payload that decodes, and when no operation on files
    fails, multi-file conversion without images makes the output
    directory and then writes one file per page, named after the index
    of the page with the extension [.md], whose content is the Markdown
    of that page. *)
Theorem multi_file_conversion f jsonFile data ocrResponse w :
  singleFile f = false ->
  includeImages f = false ->
  ReadFile env jsonFile = Ok data ->
  Unmarshal env data = Ok ocrResponse ->
  (forall path, MkdirAll_err env path = None) ->
  (forall name content, WriteFile_err env name content = None) ->
  exists evs,
    convertJSONToMarkdown env f jsonFile w = (Return tt, after evs w)
    /\ written evs =
         map (fun page =>
                (Join env (markdownDir f) (itoa (Index page) ++ ".md"),
                 Markdown page))
             (Pages ocrResponse).
Proof.
  intros Hs Hi Hr Hu Hm Hw.
  exists (MkdirAll (markdownDir f) :: map (page_file env f) (Pages ocrResponse)).
  split.
  - unfold convertJSONToMarkdown. rewrite Hr, Hu. unfold bind at 1.
    rewrite do_MkdirAll_ok by apply Hm. rewrite Hs.
    rewrite (multi_loop_run f Hi Hw), after_after. reflexivity.
  - unfold written. cbn [omap]. induction (Pages ocrResponse) as [|page pages IH].
    + reflexivity.
    + cbn. f_equal. apply IH.
Qed.

End ConverterProperties.

(** C2, as the specification states it, fails on a payload that lists
    its pages out of order: the page of index 1 comes first in the
    payload and first in the document, before the page of index 0. *)
Lemma single_file_keeps_payload_order :
  let ocrResponse := Sample.response "" [Sample.page 1 "second" [];
                                         Sample.page 0 "first" []] in
  let env := Sample.files ocrResponse (Sample.client 0 []) in
  let f := Cmd.set_singleFile true Sample.flags in
  Cmd.convertJSONToMarkdown env f "scan.json" Cmd.start =
    (Cmd.Return tt,
     {| Cmd.sent := 0;
        Cmd.trace :=
          [Cmd.MkdirAll "markdown_output";
           Cmd.WriteFile "markdown_output/document.md"
             ("# scan" ++ nl ++ nl
              ++ "## Page 2" ++ nl ++ nl ++ "second" ++ nl ++ nl
              ++ nl ++ nl ++ "---" ++ nl ++ nl
              ++ "## Page 1" ++ nl ++ nl ++ "first" ++ nl ++ nl)] |}).
Proof. vm_compute. reflexivity. Qed.

(** Two pages in the order of their indices, with the page break
    between them. *)
Lemma single_file_conversion_witness :
  let ocrResponse := Sample.response "Report" [Sample.page 0 "first" [];
                                               Sample.page 1 "second" []] in
  let env := Sample.files ocrResponse (Sample.client 0 []) in
  let f := Cmd.set_singleFile true Sample.flags in
  exists evs,
    Cmd.convertJSONToMarkdown env f "scan.json" Cmd.start =
      (Cmd.Return tt, Doc.after evs Cmd.start)
    /\ Doc.written evs =
         [("markdown_output/document.md" : gostring,
           "# Report" ++ nl ++ nl
           ++ "## Page 1" ++ nl ++ nl ++ "first" ++ nl ++ nl
           ++ nl ++ nl ++ "---" ++ nl ++ nl
           ++ "## Page 2" ++ nl ++ nl ++ "second" ++ nl ++ nl)].
Proof.
  intros ocrResponse env f.
  destruct (single_file_conversion env f "scan.json" "{}" ocrResponse
              ["first" : gostring; "second" : gostring] Cmd.start)
    as (evs & Hrun & Hw & _); try reflexivity.
  - repeat constructor.
  - exists evs. split; [exact Hrun|]. rewrite Hw. reflexivity.
Defined.

(** Two pages, two files. *)
Lemma multi_file_conversion_witness :
  let ocrResponse := Sample.response "Report" [Sample.page 0 "first" [];
                                               Sample.page 1 "second" []] in
  let env := Sample.files ocrResponse (Sample.client 0 []) in
  exists evs,
    Cmd.convertJSONToMarkdown env Sample.flags "scan.json" Cmd.start =
      (Cmd.Return tt, Doc.after evs Cmd.start)
    /\ Doc.written evs =
         [("markdown_output/0.md" : gostring, "first" : gostring);
          ("markdown_output/1.md" : gostring, "second" : gostring)].
Proof.
  intros ocrResponse env.
  destruct (multi_file_conversion env Sample.flags "scan.json" "{}"
              ocrResponse Cmd.start)
    as (evs & Hrun & Hw); try reflexivity.
  exists evs. split; [exact Hrun|]. rewrite Hw. reflexivity.
Defined.


(** ** Strings *)

Lemma HasPrefix_app (p t : gostring) : HasPrefix (p ++ t) p = true.
Proof.
  induction p as [|c p IH]; [done|]. cbn [app HasPrefix].
  by destruct (decide (c = c)).
Qed.

Lemma HasPrefix_true (s p : gostring) :
  HasPrefix s p = true -> s = p ++ drop (length p) s.
Proof.
  revert s. induction p as [|c p IH]; intros s H; [done|].
  destruct s as [|a s]; [done|]. cbn [HasPrefix] in H.
  destruct (decide (a = c)) as [->|]; [|done].
  cbn [length drop app]. f_equal. by apply IH.
Qed.

Lemma HasPrefix_iff (s p : gostring) :
  HasPrefix s p = true <-> exists t, s = p ++ t.
Proof.
  split.
  - intros H. eexists. by apply HasPrefix_true.
  - intros [t ->]. apply HasPrefix_app.
Qed.

Lemma HasSuffix_iff (s x : gostring) :
  HasSuffix s x = true <-> exists t, s = t ++ x.
Proof.
  unfold HasSuffix. rewrite HasPrefix_iff. split.
  - intros [t H]. exists (reverse t).
    apply (f_equal reverse) in H.
    by rewrite reverse_involutive, reverse_app, reverse_involutive in H.
  - intros [t ->]. exists (reverse t). by rewrite reverse_app.
Qed.

Lemma TrimSuffix_app (t x : gostring) : TrimSuffix (t ++ x) x = t.
Proof.
  unfold TrimSuffix.
  rewrite (proj2 (HasSuffix_iff (t ++ x) x)) by eauto.
  rewrite length_app.
  replace (length t + length x - length x)%nat with (length t) by lia.
  by rewrite take_app_length.
Qed.

Lemma ext_rev_take r :
  forall acc, ext_rev r acc = [] \/ exists k, ext_rev r acc = reverse (take k r) ++ acc.
Proof.
  induction r as [|c r IH]; intros acc; [by left|].
  cbn [ext_rev]. destruct (is_slash c); [by left|].
  destruct (bool_decide (c = dot)).
  - right. exists 1%nat. by cbn.
  - destruct (IH (c :: acc)) as [H|[k H]]; [by left|].
    right. exists (S k). rewrite H. cbn [take]. rewrite reverse_cons.
    by rewrite <- app_assoc.
Qed.

(** The extension of a path is the end of the path. *)
Lemma Ext_suffix (path : gostring) : exists stem, path = stem ++ Ext path.
Proof.
  unfold Ext. destruct (ext_rev_take (reverse path) []) as [H|[k H]].
  - rewrite H. exists path. by rewrite app_nil_r.
  - rewrite H, app_nil_r. exists (reverse (drop k (reverse path))).
    rewrite <- reverse_app, take_drop. by rewrite reverse_involutive.
Qed.

(** ** Flags and title *)

(** C10.  Whenever the output file is given, the [PreRun] hook of the
    convert command and that of the markdown command leave [singleFile]
    set, whatever it was before. *)
Theorem output_file_forces_single_file (f : Cmd.Flags) :
  Cmd.markdownFile f <> [] ->
  Cmd.singleFile (Cmd.convertCmd_PreRun f) = true
  /\ Cmd.singleFile (Cmd.processMarkdownCmd_PreRun f) = true.
Proof.
  intros H. unfold Cmd.convertCmd_PreRun, Cmd.processMarkdownCmd_PreRun.
  split.
  - by rewrite decide_True.
  - destruct (Cmd.includeImages f); by rewrite decide_True.
Qed.

(** The flags of [--output-file out/report.md] alone. *)
Lemma output_file_forces_single_file_witness :
  let f := Sample.with_output_file "out/report.md" Sample.flags in
  Cmd.singleFile f = false
  /\ Cmd.singleFile (Cmd.convertCmd_PreRun f) = true
  /\ Cmd.singleFile (Cmd.processMarkdownCmd_PreRun f) = true.
Proof.
  intros f. split; [reflexivity|].
  apply (output_file_forces_single_file f). discriminate.
Defined.

(** C8.  In single-file mode, from a payload that decodes and when no
    operation on files fails, the document written starts with its
    title.  The title is the title of the metadata when there is one;
    otherwise, with the flag [titleFromFilename], it is the file name of
    the JSON input without its extension (title and extension make up
    the name); otherwise it is "Document". *)
Theorem single_file_title (env : Cmd.Env) (f : Cmd.Flags)
        (jsonFile data : gostring) (ocrResponse : Cmd.OCRResponse)
        (contents : list gostring) (w : Cmd.world) :
  Cmd.singleFile f = true ->
  Cmd.ReadFile env jsonFile = Ok data ->
  Cmd.Unmarshal env data = Ok ocrResponse ->
  (forall path, Cmd.MkdirAll_err env path = None) ->
  (forall name content, Cmd.WriteFile_err env name content = None) ->
  Forall2 (fun page content => Cmd.page_content env f page = Some content)
          (Cmd.Pages ocrResponse) contents ->
  exists title rest evs,
    Cmd.convertJSONToMarkdown env f jsonFile w =
      (Cmd.Return tt, Doc.after evs w)
    /\ Doc.written evs =
         [(Cmd.Join env (Cmd.markdownDir f) (Doc.single_name f),
           "# " ++ title ++ nl ++ nl ++ rest)]
    /\ (Cmd.Title (Cmd.Metadata ocrResponse) <> [] ->
        title = Cmd.Title (Cmd.Metadata ocrResponse))
    /\ (Cmd.Title (Cmd.Metadata ocrResponse) = [] ->
        Cmd.titleFromFilename f = true ->
        Base jsonFile = title ++ Ext (Base jsonFile))
    /\ (Cmd.Title (Cmd.Metadata ocrResponse) = [] ->
        Cmd.titleFromFilename f = false ->
        title = "Document").
Proof.
  intros Hs Hr Hu Hm Hw HF.
  exists (Cmd.document_title f jsonFile ocrResponse). eexists. eexists.
  split; [by apply (convert_single_run env f jsonFile data ocrResponse contents)|].
  split.
  - unfold Doc.directories, Doc.written, Doc.single_document.
    destruct (decide (Cmd.markdownFile f <> []));
      [destruct (decide (Cmd.Dir env (Cmd.markdownFile f) <> "."))|];
      cbn; rewrite <- ?app_assoc; reflexivity.
  - unfold Cmd.document_title. split; [|split].
    + intros H. by rewrite decide_True.
    + intros H Ht. rewrite decide_False, Ht by (by intros []).
      destruct (Ext_suffix (Base jsonFile)) as [stem Hstem].
      rewrite Hstem at 2. rewrite TrimSuffix_app. exact Hstem.
    + intros H Ht. by rewrite decide_False, Ht by (by intros []).
Qed.

(** A payload without title, read from [out/scan.v2.json]. *)
Lemma single_file_title_witness :
  let ocrResponse := Sample.response "" [Sample.page 0 "first" []] in
  let env := Sample.files ocrResponse (Sample.client 0 []) in
  let f := Cmd.set_singleFile true Sample.flags in
  exists title rest evs,
    Cmd.convertJSONToMarkdown env f "out/scan.v2.json" Cmd.start =
      (Cmd.Return tt, Doc.after evs Cmd.start)
    /\ Doc.written evs =
         [("markdown_output/document.md" : gostring,
           "# " ++ title ++ nl ++ nl ++ rest)]
    /\ ("scan.v2.json" : gostring) = title ++ ".json".
Proof.
  intros ocrResponse env f.
  destruct (single_file_title env f "out/scan.v2.json" "{}" ocrResponse
              ["first" : gostring] Cmd.start)
    as (title & rest & evs & Hrun & Hw & _ & Hname & _); try reflexivity.
  - repeat constructor.
  - exists title, rest, evs. split; [exact Hrun|]. split; [exact Hw|].
    apply Hname; reflexivity.
Defined.

(** ** Document references *)

Section Effects.
Import Cmd Doc.

Lemma emits_ret {A} P (a : A) : emits P (ret a).
Proof.
  intros w o w' [= <- <-]. exists []. by rewrite app_nil_r.
Qed.

Lemma emits_exit {A} P code : emits P (@exit A code).
Proof.
  intros w o w' [= <- <-]. exists []. by rewrite app_nil_r.
Qed.

Lemma emits_panic {A} P : emits P (@panic A).
Proof.
  intros w o w' [= <- <-]. exists []. by rewrite app_nil_r.
Qed.

Lemma emits_emit P e : P e -> emits P (emit e).
Proof.
  intros He w o w' [= <- <-]. exists [e]. by split; [|constructor].
Qed.

Lemma emits_bind {A B} P (m : M A) (k : A -> M B) :
  emits P m -> (forall a, emits P (k a)) -> emits P (bind m k).
Proof.
  intros Hm Hk w o w' H. unfold bind in H.
  destruct (m w) as [[a| |] w1] eqn:E.
  - destruct (Hm _ _ _ E) as (evs1 & E1 & H1).
    destruct (Hk a _ _ _ H) as (evs2 & E2 & H2).
    exists (evs1 ++ evs2). split; [by rewrite E2, E1, app_assoc|].
    by apply Forall_app.
  - injection H as <- <-. by apply (Hm _ _ _ E).
  - injection H as <- <-. by apply (Hm _ _ _ E).
Qed.

Lemma emits_deferred {A} P (call : M unit) (body : M A) :
  emits P call -> emits P body -> emits P (deferred call body).
Proof.
  intros Hc Hb w o w' H. unfold deferred in H.
  destruct (body w) as [[a|code|] w1] eqn:E.
  - destruct (Hb _ _ _ E) as (evs1 & E1 & H1).
    destruct (emits_bind P call (fun _ => ret a) Hc
                (fun _ => emits_ret P a) _ _ _ H) as (evs2 & E2 & H2).
    exists (evs1 ++ evs2). split; [by rewrite E2, E1, app_assoc|].
    by apply Forall_app.
  - injection H as <- <-. by apply (Hb _ _ _ E).
  - destruct (Hb _ _ _ E) as (evs1 & E1 & H1).
    destruct (emits_bind P call (fun _ => panic) Hc
                (fun _ => emits_panic P) _ _ _ H) as (evs2 & E2 & H2).
    exists (evs1 ++ evs2). split; [by rewrite E2, E1, app_assoc|].
    by apply Forall_app.
Qed.

Lemma emits_call {A} P (m : Mistral.M A) :
  client_emits (fun e => P (Net e)) m -> emits P (call m).
Proof.
  intros Hm w o w' H. unfold call in H.
  destruct (m _) as [a cw] eqn:E. injection H as <- <-.
  destruct (Hm _ _ _ E) as (evs & Ht & HP). cbn in Ht.
  exists (map Net evs). cbn. rewrite Ht. split; [done|].
  by apply Forall_map.
Qed.

Lemma client_emits_ret {A} P (a : A) : client_emits P (Mistral.ret a).
Proof.
  intros w o w' [= <- <-]. exists []. by rewrite app_nil_r.
Qed.

Lemma client_emits_bind {A B} P (m : Mistral.M A) (k : A -> Mistral.M B) :
  client_emits P m -> (forall a, client_emits P (k a)) ->
  client_emits P (Mistral.bind m k).
Proof.
  intros Hm Hk w o w' H. unfold Mistral.bind in H.
  destruct (m w) as [a w1] eqn:E.
  destruct (Hm _ _ _ E) as (evs1 & E1 & H1).
  destruct (Hk a _ _ _ H) as (evs2 & E2 & H2).
  exists (evs1 ++ evs2). split; [by rewrite E2, E1, app_assoc|].
  by apply Forall_app.
Qed.

Lemma client_emits_send env P r :
  P (Mistral.Send r) -> client_emits P (Mistral.send env r).
Proof.
  intros He w o w' [= <- <-]. exists [Mistral.Send r].
  by split; [|constructor].
Qed.

Lemma client_emits_sleep P s :
  P (Mistral.Sleep s) -> client_emits P (Mistral.sleep s).
Proof.
  intros He w o w' [= <- <-]. exists [Mistral.Sleep s].
  by split; [|constructor].
Qed.

End Effects.

Ltac client_emits_step :=
  lazymatch goal with
  | |- Doc.client_emits _ (Mistral.bind _ _) =>
      apply client_emits_bind; [|intros ?]
  | |- Doc.client_emits _ (Mistral.ret _) => apply client_emits_ret
  | |- Doc.client_emits _ (Mistral.send _ _) => apply client_emits_send
  | |- Doc.client_emits _ (Mistral.sleep _) =>
      apply client_emits_sleep; exact I
  | |- Doc.client_emits _ (match ?x with _ => _ end) => destruct x
  end.

Section ClientRequests.
Import Mistral Doc.
Variable env : Mistral.Env.
Variable APIKey : gostring.

Lemma upload_loop_emits P path n :
  P (Send (upload_request APIKey path)) ->
  (forall s, P (Sleep s)) ->
  forall lastErr, client_emits P (upload_loop env APIKey path n lastErr).
Proof.
  intros HS HZ. induction n as [|n IH]; intros lastErr; cbn [upload_loop].
  - apply client_emits_ret.
  - repeat first [ apply IH | apply HZ | assumption
                 | apply client_emits_sleep | client_emits_step ].
Qed.

Lemma ocr_loop_emits P req n :
  P (Send req) ->
  (forall s, P (Sleep s)) ->
  forall attempt lastErr, client_emits P (ocr_loop env req n attempt lastErr).
Proof.
  intros HS HZ. induction n as [|n IH]; intros attempt lastErr;
    cbn [ocr_loop].
  - apply client_emits_ret.
  - repeat first [ apply IH | apply HZ | assumption
                 | apply client_emits_sleep | client_emits_step ].
Qed.

Lemma UploadFile_emits docType source path :
  client_emits (ocr_request_ok docType source) (UploadFile env APIKey path).
Proof.
  unfold UploadFile. destruct (Stat env path); [|apply client_emits_ret].
  destruct (_ >? _); [apply client_emits_ret|].
  apply upload_loop_emits; [|done]. cbn. discriminate.
Qed.

Lemma GetFileURL_emits docType source fileID :
  client_emits (ocr_request_ok docType source) (GetFileURL env APIKey fileID).
Proof.
  unfold GetFileURL.
  repeat first [ client_emits_step | apply client_emits_ret ].
  cbn. discriminate.
Qed.

Lemma ProcessOCR_emits (docType : gostring) (source : gostring -> Prop)
      docSource b :
  source docSource ->
  client_emits (ocr_request_ok docType source)
               (ProcessOCR env APIKey docType docSource b).
Proof.
  intros Hsrc. unfold ProcessOCR.
  destruct (decide (docType = "document_url")) as [->|];
    [|destruct (decide (docType = "image_url")) as [->|]];
    [| |apply client_emits_ret];
    (apply ocr_loop_emits; [|done]); intros _; by exists docSource, b.
Qed.

End ClientRequests.

Ltac emits_step :=
  lazymatch goal with
  | |- Doc.emits _ (Cmd.bind _ _) => apply emits_bind; [|intros ?]
  | |- Doc.emits _ (Cmd.deferred _ _) => apply emits_deferred
  | |- Doc.emits _ (Cmd.ret _) => apply emits_ret
  | |- Doc.emits _ (Cmd.exit _) => apply emits_exit
  | |- Doc.emits _ Cmd.panic => apply emits_panic
  | |- Doc.emits _ (Cmd.emit _) => apply emits_emit; exact I
  | |- Doc.emits _ (Cmd.do_MkdirAll _ _) => unfold Cmd.do_MkdirAll
  | |- Doc.emits _ (Cmd.do_WriteFile _ _ _) => unfold Cmd.do_WriteFile
  | |- Doc.emits _ (Cmd.call (Mistral.UploadFile _ _ _)) =>
      apply emits_call, UploadFile_emits
  | |- Doc.emits _ (Cmd.call (Mistral.GetFileURL _ _ _)) =>
      apply emits_call, GetFileURL_emits
  | |- Doc.emits _ (match ?x with _ => _ end) => destruct x
  end.

Section CommandRequests.
Import Cmd Doc.
Variable env : Cmd.Env.

Lemma multi_loop_emits docType source f pages :
  emits (ocr_event_ok docType source) (multi_loop env f pages).
Proof.
  induction pages as [|page pages IH]; cbn [multi_loop].
  - apply emits_ret.
  - repeat first [ apply IH | emits_step ].
Qed.

Lemma convertJSONToMarkdown_emits docType source f jsonFile :
  emits (ocr_event_ok docType source) (convertJSONToMarkdown env f jsonFile).
Proof.
  unfold convertJSONToMarkdown.
  repeat first [ apply multi_loop_emits | emits_step ].
Qed.

Lemma handleOutput_emits docType source f data :
  emits (ocr_event_ok docType source) (handleOutput env f data).
Proof. unfold handleOutput. repeat emits_step. Qed.

Lemma getAPIKey_emits P f : emits P (getAPIKey env f).
Proof. unfold getAPIKey. repeat emits_step. Qed.

Lemma processURL_emits f url :
  emits (ocr_event_ok (docTypeOf env url) (fun src => src = url))
        (processURL env f url).
Proof.
  unfold processURL.
  repeat first [ apply getAPIKey_emits | apply handleOutput_emits
               | emits_step ].
  apply emits_call. by apply (ProcessOCR_emits _ _ (docTypeOf env url)).
Qed.

Lemma processLocalFile_emits f filePath :
  emits (ocr_event_ok (docTypeOf env filePath) (fun _ => True))
        (processLocalFile env f filePath).
Proof.
  unfold processLocalFile.
  repeat first [ apply getAPIKey_emits | apply handleOutput_emits
               | emits_step ].
  apply emits_call.
  by apply (ProcessOCR_emits _ _ (docTypeOf env filePath)).
Qed.

Lemma processAndConvertToMarkdown_emits f fileOrURL :
  emits (ocr_event_ok (docTypeOf env fileOrURL) (fun _ => True))
        (processAndConvertToMarkdown env f fileOrURL).
Proof.
  unfold processAndConvertToMarkdown. cbv zeta.
  repeat first [ apply getAPIKey_emits | apply convertJSONToMarkdown_emits
               | emits_step ];
    apply emits_call;
    by apply (ProcessOCR_emits _ _ (docTypeOf env fileOrURL)).
Qed.

End CommandRequests.

Section Classification.
Import Cmd Doc.
Variable env : Cmd.Env.

Lemma code_bounds c : 0 <= code c < 256.
Proof. unfold code. pose proof (nat_ascii_bounded c). lia. Qed.

Lemma to_byte_code c : to_byte (code c) = c.
Proof. unfold to_byte, code. by rewrite Nat2Z.id, ascii_nat_embedding. Qed.

Lemma code_to_byte n : 0 <= n < 256 -> code (to_byte n) = n.
Proof.
  intros H. unfold to_byte, code. rewrite nat_ascii_embedding by lia. lia.
Qed.

Lemma code_inj c d : code c = code d -> c = d.
Proof. intros H. by rewrite <- (to_byte_code c), H, to_byte_code. Qed.

(** An ASCII rune is written as its one byte; any other rune ends in a
    byte above 127. *)
Lemma EncodeRune_ascii e : code e < 128 -> EncodeRune (code e) = [e].
Proof.
  intros H. pose proof (code_bounds e). unfold EncodeRune, within.
  replace (code e <? 0) with false by (symmetry; apply Z.ltb_ge; lia).
  replace (1114111 <? code e) with false by (symmetry; apply Z.ltb_ge; lia).
  replace (55296 <=? code e) with false by (symmetry; apply Z.leb_gt; lia).
  cbn [orb andb].
  replace (code e <? 128) with true by (symmetry; apply Z.ltb_lt; lia).
  by rewrite to_byte_code.
Qed.

Lemma EncodeRune_last r :
  0 <= r ->
  exists bs b,
    EncodeRune r = bs ++ [b]
    /\ (r < 128 -> bs = [] /\ code b = r)
    /\ (128 <= r -> 128 <= code b).
Proof.
  intros H0. unfold EncodeRune.
  destruct ((r <? 0) || (1114111 <? r) || within 55296 57343 r) eqn:E.
  { exists [to_byte 239; to_byte 191], (to_byte 189). split; [done|]. split.
    - intros H. unfold within in E.
      replace (r <? 0) with false in E by (symmetry; apply Z.ltb_ge; lia).
      replace (1114111 <? r) with false in E
        by (symmetry; apply Z.ltb_ge; lia).
      replace (55296 <=? r) with false in E
        by (symmetry; apply Z.leb_gt; lia).
      discriminate.
    - intros _. by vm_compute. }
  destruct (r <? 128) eqn:E1.
  { apply Z.ltb_lt in E1. exists [], (to_byte r). split; [done|]. split.
    - intros _. split; [done|]. apply code_to_byte. lia.
    - lia. }
  apply Z.ltb_ge in E1.
  assert (Hm : 0 <= r mod 64 < 64) by (apply Z.mod_pos_bound; lia).
  assert (Hl : 128 <= code (to_byte (128 + r mod 64))).
  { rewrite code_to_byte; lia. }
  destruct (r <? 2048); [|destruct (r <? 65536)].
  - exists [to_byte (192 + r / 64)], (to_byte (128 + r mod 64)).
    split; [done|]. split; [lia|done].
  - eexists [_; _], (to_byte (128 + r mod 64)).
    split; [done|]. split; [lia|done].
  - eexists [_; _; _], (to_byte (128 + r mod 64)).
    split; [done|]. split; [lia|done].
Qed.

(** The bytes written for a list of runes end with an ASCII string
    exactly when the runes end with its letters. *)
Lemma encoded_suffix (ext : gostring) :
  Forall (fun e => code e < 128) ext ->
  forall L t,
    Forall (fun r => 0 <= r) L ->
    flat_map EncodeRune L = t ++ ext ->
    exists stem, L = stem ++ map code ext.
Proof.
  induction ext as [|e ext IH] using rev_ind; intros Hext L t HL H.
  - exists L. by rewrite app_nil_r.
  - apply Forall_app in Hext as [Hext He]. rewrite Forall_singleton in He.
    destruct L as [|r L _] using rev_ind.
    { cbn in H. symmetry in H. apply app_eq_nil in H as [_ H].
      by apply app_eq_nil in H as [_ H]. }
    apply Forall_app in HL as [HL Hr]. rewrite Forall_singleton in Hr.
    rewrite flat_map_app in H. cbn [flat_map] in H. rewrite app_nil_r in H.
    destruct (EncodeRune_last r Hr) as (bs & b & Hb & Hsmall & Hbig).
    rewrite Hb, !app_assoc in H.
    apply app_inj_tail in H as [H ->].
    destruct (Z.lt_ge_cases r 128) as [Hlt|Hge]; [|specialize (Hbig Hge); lia].
    destruct (Hsmall Hlt) as [-> <-]. rewrite app_nil_r in H.
    destruct (IH Hext L t HL H) as [stem ->].
    exists stem. by rewrite map_app, app_assoc.
Qed.

Lemma encoded_letters (ext : gostring) :
  Forall (fun e => code e < 128) ext ->
  flat_map EncodeRune (map code ext) = ext.
Proof.
  induction 1 as [|e ext He _ IH]; [done|].
  cbn [map flat_map]. by rewrite EncodeRune_ascii, IH.
Qed.

Lemma Map_kept (s : gostring) :
  Map (unicode_ToLower (To_LowerCase env)) s =
    flat_map EncodeRune (map (unicode_ToLower (To_LowerCase env)) (kept env s)).
Proof.
  unfold Map, kept. induction (runes s) as [|r rs IH]; [done|].
  cbn [flat_map List.filter]. rewrite IH.
  destruct (unicode_ToLower (To_LowerCase env) r <? 0) eqn:E.
  - apply Z.ltb_lt in E.
    replace (0 <=? unicode_ToLower (To_LowerCase env) r) with false
      by (symmetry; apply Z.leb_gt; lia).
    done.
  - apply Z.ltb_ge in E.
    replace (0 <=? unicode_ToLower (To_LowerCase env) r) with true
      by (symmetry; apply Z.leb_le; lia).
    done.
Qed.

Lemma kept_nonneg s :
  Forall (fun r => 0 <= r) (map (unicode_ToLower (To_LowerCase env)) (kept env s)).
Proof.
  unfold kept. apply Forall_map, Forall_forall. intros r Hr.
  apply list_elem_of_In, filter_In in Hr as [_ Hr]. by apply Z.leb_le in Hr.
Qed.

Lemma map_letters (tail : list Z) (ext : gostring) :
  map (unicode_ToLower (To_LowerCase env)) tail = map code ext
  <-> Forall2 (same_letter env) tail ext.
Proof.
  revert ext. induction tail as [|r tail IH]; intros [|e ext].
  - split; [constructor|done].
  - split; [discriminate|inversion 1].
  - split; [discriminate|inversion 1].
  - split.
    + cbn. intros [= H1 H2]. constructor; [done|]. by apply IH.
    + inversion 1; subst. cbn. f_equal; [done|]. by apply IH.
Qed.

Lemma Map_suffix (s ext : gostring) :
  Forall (fun e => code e < 128) ext ->
  HasSuffix (Map (unicode_ToLower (To_LowerCase env)) s) ext = true
  <-> ends_with_fold env s ext.
Proof.
  intros Hext. rewrite HasSuffix_iff, Map_kept. unfold ends_with_fold. split.
  - intros [t H].
    destruct (encoded_suffix ext Hext _ t (kept_nonneg s) H) as [stem Hs].
    apply map_eq_app in Hs as (stem' & tail & -> & _ & Htail).
    exists stem', tail. split; [done|]. by apply map_letters.
  - intros (stem & tail & -> & H). apply map_letters in H.
    exists (flat_map EncodeRune (map (unicode_ToLower (To_LowerCase env)) stem)).
    by rewrite map_app, flat_map_app, H, encoded_letters.
Qed.

(** On a string of ASCII bytes the two ways of [strings.ToLower]
    agree. *)
Lemma lower_byte_code c :
  code c < 128 -> unicode_ToLower (To_LowerCase env) (code c) = code (lower_byte c).
Proof.
  intros H. pose proof (code_bounds c) as Hc.
  unfold unicode_ToLower, lower_byte, code in *.
  replace (Z.of_nat (nat_of_ascii c) <=? 127) with true
    by (symmetry; apply Z.leb_le; lia).
  destruct ((65 <=? nat_of_ascii c) && (nat_of_ascii c <=? 90))%nat eqn:E.
  - apply andb_true_iff in E as [E1 E2]. apply Nat.leb_le in E1, E2.
    replace (65 <=? Z.of_nat (nat_of_ascii c)) with true
      by (symmetry; apply Z.leb_le; lia).
    replace (Z.of_nat (nat_of_ascii c) <=? 90) with true
      by (symmetry; apply Z.leb_le; lia).
    cbn [andb]. rewrite nat_ascii_embedding by lia. lia.
  - apply andb_false_iff in E.
    destruct E as [E|E]; apply Nat.leb_gt in E.
    + replace (65 <=? Z.of_nat (nat_of_ascii c)) with false
        by (symmetry; apply Z.leb_gt; lia).
      done.
    + replace (Z.of_nat (nat_of_ascii c) <=? 90) with false
        by (symmetry; apply Z.leb_gt; lia).
      by rewrite andb_false_r.
Qed.

Lemma lower_byte_ascii c : code c < 128 -> code (lower_byte c) < 128.
Proof.
  intros H. rewrite <- lower_byte_code by done. unfold unicode_ToLower.
  replace (code c <=? 127) with true by (symmetry; apply Z.leb_le; lia).
  destruct (_ && _) eqn:E; [|lia].
  apply andb_true_iff in E as [_ E]. apply Z.leb_le in E. lia.
Qed.

Lemma runes_ascii s : isASCII s = true -> runes s = map code s.
Proof.
  induction s as [|c s IH]; [done|]. cbn [isASCII forallb].
  intros H. apply andb_true_iff in H as [Hc Hs]. cbn [runes map].
  rewrite Hc. f_equal. by apply IH.
Qed.

Lemma Map_ascii s :
  isASCII s = true ->
  Map (unicode_ToLower (To_LowerCase env)) s = map lower_byte s.
Proof.
  intros H. unfold Map. rewrite (runes_ascii s H).
  induction s as [|c s IH]; [done|]. cbn [isASCII forallb] in H.
  apply andb_true_iff in H as [Hc Hs]. apply Z.ltb_lt in Hc.
  cbn [map flat_map]. rewrite (IH Hs), lower_byte_code by done.
  pose proof (code_bounds (lower_byte c)).
  replace (code (lower_byte c) <? 0) with false
    by (symmetry; apply Z.ltb_ge; lia).
  by rewrite EncodeRune_ascii by by apply lower_byte_ascii.
Qed.

Lemma ToLower_Map s :
  ToLower (To_LowerCase env) s = Map (unicode_ToLower (To_LowerCase env)) s.
Proof.
  unfold ToLower. destruct (isASCII s) eqn:E; [|done].
  symmetry. by apply Map_ascii.
Qed.

Lemma HasSuffix_ToLower input ext :
  Forall (fun e => code e < 128) ext ->
  HasSuffix (ToLower (To_LowerCase env) input) ext = true
  <-> ends_with_fold env input ext.
Proof. intros H. rewrite ToLower_Map. by apply Map_suffix. Qed.

Lemma kept_ascii s : isASCII s = true -> kept env s = map code s.
Proof.
  intros H. unfold kept. rewrite (runes_ascii s H).
  induction s as [|c s IH]; [done|]. cbn [isASCII forallb] in H.
  apply andb_true_iff in H as [Hc Hs]. apply Z.ltb_lt in Hc.
  cbn [map List.filter]. rewrite lower_byte_code by done.
  pose proof (code_bounds (lower_byte c)).
  replace (0 <=? code (lower_byte c)) with true
    by (symmetry; apply Z.leb_le; lia).
  f_equal. by apply IH.
Qed.

Lemma same_letter_ascii r e :
  0 <= r <= 127 ->
  ~ (65 <= code e <= 90) ->
  same_letter env r e
  <-> r = code e \/ (97 <= code e <= 122 /\ r + 32 = code e).
Proof.
  intros Hr He. unfold same_letter, unicode_ToLower.
  replace (r <=? 127) with true by (symmetry; apply Z.leb_le; lia).
  destruct ((65 <=? r) && (r <=? 90)) eqn:E.
  - apply andb_true_iff in E as [E1 E2]. apply Z.leb_le in E1, E2. lia.
  - apply andb_false_iff in E.
    destruct E as [E|E]; apply Z.leb_gt in E; lia.
Qed.

Lemma image_extensions_ascii :
  Forall (Forall (fun e => code e < 128)) image_extensions.
Proof. repeat constructor. Qed.

Lemma docTypeOf_image input :
  docTypeOf env input = "image_url" <-> has_image_extension env input.
Proof.
  pose proof image_extensions_ascii as H. unfold image_extensions in H.
  apply Forall_cons in H as [H1 H]. apply Forall_cons in H as [H2 H].
  apply Forall_cons in H as [H3 H]. apply Forall_cons in H as [H4 H].
  apply Forall_cons in H as [H5 _].
  unfold docTypeOf, has_image_extension, image_extensions. split.
  - intros H.
    destruct (HasSuffix (ToLower (To_LowerCase env) input) ".jpg") eqn:E1;
      [eexists; split; [|by apply HasSuffix_ToLower in E1]; set_solver|].
    destruct (HasSuffix (ToLower (To_LowerCase env) input) ".jpeg") eqn:E2;
      [eexists; split; [|by apply HasSuffix_ToLower in E2]; set_solver|].
    destruct (HasSuffix (ToLower (To_LowerCase env) input) ".png") eqn:E3;
      [eexists; split; [|by apply HasSuffix_ToLower in E3]; set_solver|].
    destruct (HasSuffix (ToLower (To_LowerCase env) input) ".webp") eqn:E4;
      [eexists; split; [|by apply HasSuffix_ToLower in E4]; set_solver|].
    destruct (HasSuffix (ToLower (To_LowerCase env) input) ".gif") eqn:E5;
      [eexists; split; [|by apply HasSuffix_ToLower in E5]; set_solver|].
    discriminate.
  - intros (ext & Hin & Hend).
    repeat (apply elem_of_cons in Hin as [->|Hin];
            [apply HasSuffix_ToLower in Hend; [|done]; rewrite Hend;
             by rewrite ?orb_true_r|]).
    by apply elem_of_nil in Hin.
Qed.

End Classification.

(** C7.  A path or URL that ends, the case of letters set aside, with
    [.jpg], [.jpeg], [.png], [.webp] or [.gif] is given the type
    ["image_url"], every other one the type ["document_url"]; and in
    each of the three commands every request sent to [/ocr] carries the
    document field made from that type (for a URL, with the URL itself
    as the source).  This holds for every input, ASCII or not.  The
    case of letters is set aside as [strings.ToLower] does it, rune by
    rune: for a rune below 128 this is the plain comparison of a letter
    with its capital, and an input of such bytes only is compared byte
    by byte; above, the lower-case table of package unicode decides,
    whatever it holds. *)
Theorem document_type_by_extension (env : Cmd.Env) (input : gostring) :
  (Doc.has_image_extension env input ->
   Doc.docTypeOf env input = "image_url")
  /\ (~ Doc.has_image_extension env input ->
      Doc.docTypeOf env input = "document_url")
  /\ (forall r e,
        0 <= r <= 127 ->
        ~ (65 <= code e <= 90) ->
        Doc.same_letter env r e
        <-> r = code e \/ (97 <= code e <= 122 /\ r + 32 = code e))
  /\ (isASCII input = true -> Doc.kept env input = map code input)
  /\ (forall f,
        Doc.emits (Doc.ocr_event_ok (Doc.docTypeOf env input)
                                    (fun src => src = input))
                  (Cmd.processURL env f input))
  /\ (forall f,
        Doc.emits (Doc.ocr_event_ok (Doc.docTypeOf env input)
                                    (fun _ => True))
                  (Cmd.processLocalFile env f input))
  /\ (forall f,
        Doc.emits (Doc.ocr_event_ok (Doc.docTypeOf env input)
                                    (fun _ => True))
                  (Cmd.processAndConvertToMarkdown env f input)).
Proof.
  split; [|split; [|split; [|split; [|split; [|split]]]]].
  - apply docTypeOf_image.
  - intros H.
    destruct (decide (Doc.docTypeOf env input = "image_url")) as [E|E].
    + by apply docTypeOf_image in E.
    + unfold Doc.docTypeOf in *. by destruct (_ || _).
  - apply same_letter_ascii.
  - apply kept_ascii.
  - intros f. apply processURL_emits.
  - intros f. apply processLocalFile_emits.
  - intros f. apply processAndConvertToMarkdown_emits.
Qed.

(** An image by its extension in upper case, an image whose extension
    is spelled with the capital I with a dot above (the bytes 0xC4
    0xB0), an image whose name starts with an accented letter (the
    bytes 0xC3 0xA9), and two documents. *)
Lemma document_type_by_extension_witness :
  let env := Sample.files (Sample.response "" []) (Sample.client 0 []) in
  let dotted : gostring := "a.g" ++ [to_byte 196; to_byte 176] ++ "f" in
  let accented : gostring := [to_byte 195; to_byte 169] ++ ".PNG" in
  Doc.docTypeOf env "https://example.com/Photo.JPG" = "image_url"
  /\ Doc.docTypeOf env dotted = "image_url"
  /\ Doc.docTypeOf env accented = "image_url"
  /\ Doc.docTypeOf env "report.pdf" = "document_url"
  /\ Doc.docTypeOf env "archive.jpg.zip" = "document_url".
Proof.
  intros env dotted accented.
  split; [|split; [|split; [|split; reflexivity]]].
  - apply (document_type_by_extension env "https://example.com/Photo.JPG").
    exists (".jpg" : gostring). split; [left|].
    exists (map code ("https://example.com/Photo" : gostring)),
           (map code (".JPG" : gostring)).
    split; [reflexivity|]. repeat constructor.
  - apply (document_type_by_extension env dotted).
    exists (".gif" : gostring). split; [set_solver|].
    exists (map code ("a" : gostring)), [46; 103; 304; 102].
    split; [reflexivity|]. repeat constructor.
  - apply (document_type_by_extension env accented).
    exists (".png" : gostring). split; [set_solver|].
    exists [233], (map code (".PNG" : gostring)).
    split; [reflexivity|]. repeat constructor.
Defined.

Example Base_Ext_samples :
  Base "out/scan.v2.json" = "scan.v2.json"
  /\ Base "dir/" = "dir"
  /\ Base "" = "."
  /\ Base "///" = "/"
  /\ Ext "scan.v2.json" = ".json"
  /\ Ext "archive" = ""
  /\ Ext "a.b/c" = ""
  /\ TrimSuffix "scan.v2.json" ".json" = "scan.v2".
Proof. repeat split. Qed.

Example expand_samples :
  expand ascii_name_len 8 "a$$b" "M" = "a$b"
  /\ expand ascii_name_len 8 "x${0}y" "M" = "xMy"
  /\ expand ascii_name_len 8 "x$0y" "M" = "x"
  /\ expand ascii_name_len 8 "cost: $" "M" = "cost: $"
  /\ expand ascii_name_len 8 "a$-b" "M" = "a$-b".
Proof. repeat split. Qed.

Example ReplaceAllString_sample :
  ReplaceAllString ascii_name_len (placeholder "a")
    "x![a](a)y![a](a)![b](b)" "![a](DATA)"
  = "x![a](DATA)y![a](DATA)![b](b)".
Proof. reflexivity. Qed.

Example itoa_samples :
  itoa 0 = "0" /\ itoa 429 = "429" /\ itoa (-7) = "-7"
  /\ itoa (wrap64 (9223372036854775807 + 1)) = "-9223372036854775808".
Proof. repeat split. Qed.

(** ** The library models on samples, and the fuel of [expand] *)

Section Fuel.
Variable name_len : gostring -> nat.

Lemma Cut_shorter t before after :
  Cut t = Some (before, after) -> (length after < length t)%nat.
Proof.
  revert before. induction t as [|c t IH]; intros before H; [done|].
  cbn [Cut] in H. destruct (bool_decide (c = dollar)).
  - injection H as _ <-. cbn. lia.
  - destruct (Cut t) as [[b a]|]; [|done]. injection H as _ <-.
    specialize (IH b eq_refl). cbn. lia.
Qed.

Lemma extract_shorter str name rest :
  extract name_len str = Some (name, rest) -> (length rest <= length str)%nat.
Proof.
  unfold extract. destruct str as [|c str]; [done|].
  destruct (_ =? _)%nat; [done|]. destruct (_ && _); [done|].
  intros [= _ <-]. destruct (bool_decide _); rewrite !length_drop; cbn; lia.
Qed.

(** The template is expanded in full, whatever the fuel above its
    length. *)
Lemma expand_fuel matched fuel1 :
  forall fuel2 t,
    (length t < fuel1)%nat -> (length t < fuel2)%nat ->
    expand name_len fuel1 t matched = expand name_len fuel2 t matched.
Proof.
  induction fuel1 as [|fuel1 IH]; intros fuel2 t H1 H2; [lia|].
  destruct fuel2 as [|fuel2]; [lia|]. cbn [expand].
  destruct (Cut t) as [[before after]|] eqn:E; [|done].
  apply Cut_shorter in E. f_equal.
  destruct (HasPrefix after "$").
  - f_equal. apply IH; rewrite length_drop; lia.
  - destruct (extract name_len after) as [[name rest]|] eqn:Ex.
    + apply extract_shorter in Ex. f_equal. apply IH; lia.
    + f_equal. apply IH; lia.
Qed.

End Fuel.

(** ** Image inlining *)

Section Inlining.
Import Cmd Doc.

Lemma Cut_plain t : dollar ∉ t -> Cut t = None.
Proof.
  induction t as [|c t IH]; intros H; [done|]. cbn [Cut].
  apply not_elem_of_cons in H as [Hc Ht].
  rewrite bool_decide_eq_false_2 by congruence. by rewrite IH.
Qed.

Lemma expand_plain name_len fuel t matched :
  dollar ∉ t -> expand name_len fuel t matched = t.
Proof.
  intros H. destruct fuel; [done|]. cbn [expand]. by rewrite Cut_plain.
Qed.

Lemma replaceAll_skip lit repl s :
  forall k, replaceAll lit repl k s = replaceAll lit repl 0 (drop k s).
Proof.
  induction s as [|c s IH]; intros k.
  - by rewrite drop_nil.
  - destruct k as [|k]; [done|]. cbn [replaceAll drop]. apply IH.
Qed.

Lemma replaceAll_match lit repl s :
  lit <> [] ->
  HasPrefix s lit = true ->
  replaceAll lit repl 0 s =
    repl ++ replaceAll lit repl 0 (drop (length lit) s).
Proof.
  intros Hlit H. destruct s as [|c s].
  - destruct lit; [done|discriminate].
  - cbn [replaceAll]. rewrite H, replaceAll_skip.
    destruct lit as [|b lit]; [done|]. cbn [length drop Nat.sub].
    by rewrite Nat.sub_0_r.
Qed.

Lemma replaceAll_miss lit repl c s :
  HasPrefix (c :: s) lit = false ->
  replaceAll lit repl 0 (c :: s) = c :: replaceAll lit repl 0 s.
Proof. intros H. cbn [replaceAll]. by rewrite H. Qed.

Lemma placeholder_head id : placeholder id = bang :: placeholder_tail id.
Proof. reflexivity. Qed.

Lemma inlined_reference_head id data :
  inlined_reference id data = bang :: reference_tail id data.
Proof. reflexivity. Qed.

Lemma placeholder_tail_plain k : bang ∉ k -> bang ∉ placeholder_tail k.
Proof.
  intros H. unfold placeholder_tail. cbn.
  rewrite not_elem_of_cons, not_elem_of_app, not_elem_of_cons,
    not_elem_of_cons, not_elem_of_app, not_elem_of_cons.
  repeat split; try done. apply not_elem_of_nil.
Qed.

Lemma reference_tail_plain k d :
  bang ∉ k -> bang ∉ d -> bang ∉ reference_tail k d.
Proof.
  intros H Hd. unfold reference_tail. cbn.
  rewrite not_elem_of_cons, not_elem_of_app, not_elem_of_cons,
    not_elem_of_cons, not_elem_of_app, not_elem_of_cons.
  repeat split; try done. apply not_elem_of_nil.
Qed.

Lemma HasPrefix_head c s b p :
  HasPrefix (c :: s) (b :: p) = true -> c = b /\ HasPrefix s p = true.
Proof.
  cbn [HasPrefix]. by destruct (decide (c = b)).
Qed.

Lemma HasPrefix_other c s b p : c <> b -> HasPrefix (c :: s) (b :: p) = false.
Proof.
  intros H. cbn [HasPrefix]. by destruct (decide (c = b)).
Qed.

(** A byte that two strings lack ends them at the same place. *)
Lemma app_sep_inj (sep : ascii) (a b x y : gostring) :
  sep ∉ a -> sep ∉ b -> a ++ sep :: x = b ++ sep :: y -> a = b.
Proof.
  revert b. induction a as [|c a IH]; intros [|c' b] Ha Hb H.
  - done.
  - injection H as -> _. by apply not_elem_of_cons in Hb as [].
  - injection H as -> _. by apply not_elem_of_cons in Ha as [].
  - injection H as -> H. f_equal.
    apply not_elem_of_cons in Ha as [_ Ha].
    apply not_elem_of_cons in Hb as [_ Hb]. by apply IH.
Qed.

(** A placeholder starts only where the placeholder or the reference of
    the same identifier starts. *)
Lemma placeholder_at_reference id data k s :
  bracket ∉ id -> bracket ∉ k ->
  HasPrefix (inlined_reference id data ++ s) (placeholder k) = true ->
  k = id.
Proof.
  intros Hid Hk H. apply HasPrefix_iff in H as [t H].
  unfold placeholder, inlined_reference in H.
  cbn in H. injection H as H. rewrite <- !app_assoc in H. cbn [app] in H.
  symmetry. by eapply app_sep_inj.
Qed.

Lemma pass_miss k d c s :
  HasPrefix (c :: s) (placeholder k) = false ->
  pass k d (c :: s) = c :: pass k d s.
Proof. apply replaceAll_miss. Qed.

(** Where there is no exclamation mark, no placeholder starts. *)
Lemma pass_plain id data u s :
  bang ∉ u -> pass id data (u ++ s) = u ++ pass id data s.
Proof.
  induction u as [|c u IH]; intros H; [done|].
  apply not_elem_of_cons in H as [Hc Hu]. cbn [app].
  rewrite pass_miss; [by rewrite IH|].
  rewrite placeholder_head. by apply HasPrefix_other.
Qed.

(** A round of the loop for another identifier leaves a reference as it
    is. *)
Lemma pass_reference id data k d s :
  bracket ∉ id -> bracket ∉ k -> bang ∉ id -> bang ∉ data -> k <> id ->
  pass k d (inlined_reference id data ++ s) =
    inlined_reference id data ++ pass k d s.
Proof.
  intros Hid Hk Hib Hdb Hne.
  assert (E : HasPrefix (inlined_reference id data ++ s) (placeholder k)
              = false).
  { destruct (HasPrefix _ _) eqn:E; [|done].
    by apply placeholder_at_reference in E. }
  rewrite inlined_reference_head in E |- *. cbn [app] in E |- *.
  rewrite pass_miss by done.
  by rewrite pass_plain by by apply reference_tail_plain.
Qed.

(** A round of the loop replaces the placeholder of its identifier. *)
Lemma pass_placeholder k d s :
  pass k d (placeholder k ++ s) = inlined_reference k d ++ pass k d s.
Proof.
  unfold pass. rewrite replaceAll_match;
    [|by rewrite placeholder_head|apply HasPrefix_app].
  by rewrite drop_app_length.
Qed.

End Inlining.

Section InlinedRelation.
Import Cmd Doc.

Variable m : gmap gostring gostring.

(** The relation copies what holds no exclamation mark. *)
Lemma inlined_plain u :
  bang ∉ u ->
  forall rest s,
    inlined m (u ++ rest) s ->
    exists rest', s = u ++ rest' /\ inlined m rest rest'.
Proof.
  induction u as [|c u IH]; intros Hu rest s H.
  - by exists s.
  - apply not_elem_of_cons in Hu as [Hc Hu]. cbn [app] in H.
    inversion H as [|id data r r' Hm Hr Heq|c' r r' Hno Hr]; subst.
    + by destruct Hc.
    + destruct (IH Hu _ _ Hr) as (rest' & -> & Hrest).
      by exists rest'.
Qed.

Lemma inlined_HasPrefix q :
  bang ∉ q ->
  forall rest s, inlined m rest s -> HasPrefix rest q = HasPrefix s q.
Proof.
  induction q as [|b q IH]; intros Hq rest s H; [done|].
  apply not_elem_of_cons in Hq as [Hb Hq].
  inversion H as [|id data r r' Hm Hr|c' r r' Hno Hr]; subst.
  - done.
  - rewrite placeholder_head, inlined_reference_head. cbn [app].
    by rewrite !HasPrefix_other.
  - cbn [HasPrefix]. destruct (decide (c' = b)); [|done]. by apply IH.
Qed.

Lemma inlined_empty s : m = ∅ -> inlined m s s.
Proof.
  intros ->. induction s as [|c s IH]; constructor; [|done].
  intros id [x Hx]. by rewrite lookup_empty in Hx.
Qed.

End InlinedRelation.

Section Passes.
Import Cmd Doc.

(** One round of the loop, for an entry that is new to the map: what
    was inlined for the map is now inlined for the map with the entry. *)
Lemma pass_inlined m k d :
  tame m -> m !! k = None -> plain_id k -> plain_data d ->
  forall n content s,
    (length content <= n)%nat ->
    inlined m content s ->
    inlined (<[k := d]> m) content (pass k d s).
Proof.
  intros Hm Hk (_ & Hkb & Hkr & _) (Hdb & _).
  induction n as [|n IH]; intros content s Hn H.
  - destruct content; [|cbn in Hn; lia].
    inversion H; subst. constructor.
  - inversion H as [|id data r r' Hl Hr|c r r' Hno Hr]; subst.
    + constructor.
    + destruct (Hm _ _ Hl) as ((_ & Hib & Hir & _) & (Hxb & _)).
      assert (Hne : k <> id) by congruence.
      rewrite pass_reference by done.
      apply inlined_ref; [by rewrite lookup_insert_ne|].
      apply IH; [|done]. rewrite length_app, placeholder_head in Hn.
      cbn [length] in Hn. lia.
    + cbn [length] in Hn.
      assert (Hq := placeholder_tail_plain k Hkb).
      destruct (HasPrefix (c :: r') (placeholder k)) eqn:E.
      * rewrite placeholder_head in E.
        apply HasPrefix_head in E as [-> E].
        rewrite <- (inlined_HasPrefix m _ Hq _ _ Hr) in E.
        apply HasPrefix_true in E. rewrite E in Hr.
        destruct (inlined_plain m _ Hq _ _ Hr) as (rest' & -> & Hrest).
        rewrite E.
        change (bang :: placeholder_tail k ++ ?x) with (placeholder k ++ x).
        rewrite pass_placeholder.
        apply inlined_ref; [by rewrite lookup_insert_eq|].
        apply IH; [|done]. rewrite E in Hn. rewrite length_app in Hn. lia.
      * rewrite pass_miss by done.
        apply inlined_byte; [|apply IH; [lia|done]].
        intros id [x Hx]. destruct (decide (id = k)) as [->|Hne].
        -- rewrite placeholder_head in E |- *. cbn [HasPrefix] in E |- *.
           destruct (decide (c = bang)); [|done].
           by rewrite (inlined_HasPrefix m _ Hq _ _ Hr).
        -- rewrite lookup_insert_ne in Hx by done. apply Hno. by eexists.
Qed.

End Passes.

Section Loop.
Import Cmd Doc.
Variable env : Cmd.Env.

Lemma template_plain id data :
  dollar ∉ id -> dollar ∉ data -> dollar ∉ "![" ++ id ++ "](" ++ data ++ ")".
Proof.
  intros H Hd. cbn.
  rewrite !not_elem_of_cons, not_elem_of_app, !not_elem_of_cons,
    not_elem_of_app, not_elem_of_cons.
  repeat split; try done. apply not_elem_of_nil.
Qed.

Lemma replace_round id data content entries :
  plain_id id -> plain_data data ->
  replace_loop env ((id, data) :: entries) content =
    replace_loop env entries (pass id data content).
Proof.
  intros (Hv & _ & _ & Hd & _) (_ & Hdd). cbn [replace_loop].
  unfold MustCompile. rewrite Hv. unfold ReplaceAllString.
  by rewrite expand_plain by by apply template_plain.
Qed.

(** The second loop, whatever the order of the entries: what leaves it
    is the content inlined for all the entries. *)
Lemma replace_loop_inlined content entries :
  forall m0 s,
    NoDup (entries.*1) ->
    (forall id data, (id, data) ∈ entries ->
                     plain_id id /\ plain_data data /\ m0 !! id = None) ->
    tame m0 ->
    inlined m0 content s ->
    exists result,
      replace_loop env entries s = Some result
      /\ inlined (list_to_map entries ∪ m0) content result.
Proof.
  induction entries as [|[id data] entries IH]; intros m0 s Hnd Hin Hm0 Hs.
  - exists s. split; [done|]. cbn. by rewrite (left_id_L ∅ (∪)).
  - destruct (Hin id data) as (Hid & Hdata & Hfresh); [left|].
    apply NoDup_cons in Hnd as [Hnotin Hnd]. cbn [fmap list_fmap] in *.
    rewrite replace_round by done.
    destruct (IH (<[id := data]> m0) (pass id data s)) as (result & Hr & Hi).
    + done.
    + intros id' data' Hin'. destruct (Hin id' data') as (? & ? & ?);
        [by right|].
      split; [done|]. split; [done|]. rewrite lookup_insert_ne; [done|].
      intros ->. apply Hnotin. apply list_elem_of_fmap.
      by exists (id', data').
    + by apply map_Forall_insert_2.
    + by apply (pass_inlined m0 id data Hm0 Hfresh Hid Hdata (length content)).
    + exists result. split; [done|].
      cbn [list_to_map foldr]. cbn.
      rewrite <- insert_union_l, insert_union_r; [done|].
      by apply not_elem_of_list_to_map_1.
Qed.

Lemma data_uri_plain data : plain_data data -> plain_data (data_uri data).
Proof.
  intros [Hb Hd]. unfold data_uri. destruct (HasPrefix _ _); [done|].
  split; cbn;
    rewrite !not_elem_of_cons; repeat split; done.
Qed.

Lemma imageMap_tame images :
  (forall img, img ∈ images -> ImageBase64 img <> [] ->
               plain_id (ID img) /\ plain_data (ImageBase64 img)) ->
  tame (imageMap images).
Proof.
  unfold imageMap. intros H.
  assert (Hgen : forall m0, tame m0 ->
            tame (foldl (fun m img =>
                           if decide (ImageBase64 img <> []) then
                             <[ID img := data_uri (ImageBase64 img)]> m
                           else m) m0 images)).
  { induction images as [|img images IH]; intros m0 Hm0; [done|].
    cbn [foldl]. apply IH.
    - intros img' Hin. apply H. by right.
    - destruct (decide _) as [Hd|]; [|done].
      destruct (H img) as [Hid Hdata]; [left|done|].
      apply map_Forall_insert_2; [|done].
      split; [done|by apply data_uri_plain]. }
  apply Hgen, map_Forall_empty.
Qed.

(** The first loop: the data of an identifier are those of the last
    image of the list with that identifier and with data. *)
Lemma imageMap_lookup images id :
  imageMap images !! id =
    (fun img => data_uri (ImageBase64 img))
      <$> last (List.filter (with_data id) images).
Proof.
  unfold imageMap.
  assert (Hgen : forall m0 : gmap gostring gostring,
            foldl (fun m img =>
                     if decide (ImageBase64 img <> []) then
                       <[ID img := data_uri (ImageBase64 img)]> m
                     else m) m0 images !! id =
              match last (List.filter (with_data id) images) with
              | Some img => Some (data_uri (ImageBase64 img))
              | None => m0 !! id
              end).
  { induction images as [|img images IH]; intros m0; [done|].
    cbn [foldl List.filter]. rewrite IH. unfold with_data at 2.
    destruct (decide (ImageBase64 img <> [])) as [Hd|Hd].
    - rewrite (bool_decide_eq_true_2 _ Hd), andb_true_r.
      destruct (decide (ID img = id)) as [<-|Hne].
      + rewrite bool_decide_eq_true_2 by done. rewrite last_cons.
        destruct (last _); [done|]. by rewrite lookup_insert_eq.
      + rewrite bool_decide_eq_false_2 by done.
        destruct (last _); [done|]. by rewrite lookup_insert_ne.
    - rewrite (bool_decide_eq_false_2 _ Hd), andb_false_r. done. }
  rewrite Hgen, lookup_empty. by destruct (last _).
Qed.

End Loop.

(** C4, as the code has it.  With image inlining enabled,
    [replaceImageReferences] replaces every placeholder [![id](id)]
    whose identifier is that of an image of the list that has data, by
    the reference to the data of the last such image, and keeps every
    other byte of the content, the placeholders of other identifiers
    among them.  This is stated for content that is valid UTF-8, for
    identifiers that are valid UTF-8, shorter than 2^20 bytes and
    without the bytes [!], [\]] and [$], and for data without [!] and
    [$]. *)
Theorem image_inlining (env : Cmd.Env) (f : Cmd.Flags) (content : gostring)
        (images : list Cmd.OCRResponse_Image) :
  Cmd.includeImages f = true ->
  (forall m, Cmd.range_order env m ≡ₚ map_to_list m) ->
  ValidString content = true ->
  (forall img, img ∈ images -> Cmd.ImageBase64 img <> [] ->
               Doc.plain_id (Cmd.ID img)
               /\ Doc.plain_data (Cmd.ImageBase64 img)) ->
  exists result,
    Cmd.replaceImageReferences env f content images = Some result
    /\ Doc.inlined (Cmd.imageMap images) content result
    /\ forall id,
        Cmd.imageMap images !! id =
          (fun img => Cmd.data_uri (Cmd.ImageBase64 img))
            <$> last (List.filter (Doc.with_data id) images).
Proof.
  intros Hf Horder _ Himages. unfold Cmd.replaceImageReferences.
  rewrite Hf. cbn [negb orb].
  destruct (length images =? 0)%nat eqn:E.
  - apply Nat.eqb_eq, nil_length_inv in E as ->.
    exists content. split; [done|]. split; [|apply imageMap_lookup].
    by apply inlined_empty.
  - pose proof (imageMap_tame images Himages) as Htame.
    set (m := Cmd.imageMap images) in *.
    destruct (replace_loop_inlined env content (Cmd.range_order env m)
                ∅ content) as (result & Hr & Hi).
    + rewrite (Horder m). apply NoDup_fst_map_to_list.
    + intros id data Hin. rewrite (Horder m) in Hin.
      apply elem_of_map_to_list in Hin.
      destruct (Htame _ _ Hin). by rewrite lookup_empty.
    + apply map_Forall_empty.
    + by apply inlined_empty.
    + exists result. split; [done|]. split; [|apply imageMap_lookup].
      rewrite (right_id_L ∅ (∪)) in Hi.
      rewrite (list_to_map_proper _ (map_to_list m)) in Hi.
      * by rewrite list_to_map_to_list in Hi.
      * rewrite (Horder m). apply NoDup_fst_map_to_list.
      * apply Horder.
Qed.

(** C4, as the specification states it, fails for an image of the list
    that carries no data: its identifier is known, yet its placeholder
    stays as it is. *)
Lemma image_without_data_is_not_inlined :
  let env := Sample.files (Sample.response "" []) (Sample.client 0 []) in
  let f := Sample.with_images Sample.flags in
  let images := [{| Cmd.ID := "img-0.jpeg"; Cmd.ImageBase64 := [] |}] in
  Cmd.replaceImageReferences env f "![img-0.jpeg](img-0.jpeg)" images =
    Some ("![img-0.jpeg](img-0.jpeg)" : gostring).
Proof. vm_compute. reflexivity. Qed.

(** Two images with data, one of them a data URI already, and a
    placeholder of an identifier that is not in the list. *)
Lemma image_inlining_witness :
  let env := Sample.files (Sample.response "" []) (Sample.client 0 []) in
  let f := Sample.with_images Sample.flags in
  let images :=
    [{| Cmd.ID := "img-0.jpeg"; Cmd.ImageBase64 := "AAAA" |};
     {| Cmd.ID := "img-1.jpeg";
        Cmd.ImageBase64 := "data:image/png;base64,BBBB" |}] in
  let content : gostring :=
    "See ![img-0.jpeg](img-0.jpeg), ![img-9.jpeg](img-9.jpeg) and ![img-1.jpeg](img-1.jpeg)." in
  let expected : gostring :=
    "See ![img-0.jpeg](data:image/jpeg;base64,AAAA), ![img-9.jpeg](img-9.jpeg) and ![img-1.jpeg](data:image/png;base64,BBBB)." in
  Cmd.replaceImageReferences env f content images = Some expected
  /\ Doc.inlined (Cmd.imageMap images) content expected.
Proof.
  intros env f images content expected.
  destruct (image_inlining env f content images) as (result & Hr & Hi & _).
  - reflexivity.
  - intros m. reflexivity.
  - reflexivity.
  - intros img Hin Hdata.
    assert (Hno : forall (c : ascii) (s : gostring),
               bool_decide (c ∈ s) = false -> c ∉ s)
      by (intros c s; apply bool_decide_eq_false_1).
    apply elem_of_cons in Hin as [->|Hin];
      [|apply elem_of_cons in Hin as [->|Hin];
        [|by apply elem_of_nil in Hin]];
      (split; [split; [reflexivity|]|]; repeat split;
       first [ apply Hno; reflexivity | reflexivity ]).
  - assert (E : result = expected).
    { vm_compute in Hr. injection Hr as <-. reflexivity. }
    rewrite <- E. by split.
Defined.

(** ** More on the API client *)

Section ClientRuns.
Import Mistral Spec Runs.
Variable env : Mistral.Env.
Variable APIKey : gostring.

(** The loop of [UploadFile]: [k] attempts fail and are repeated, each
    followed by a pause of three seconds; then the attempts are used up,
    or one more request settles the matter. *)
Lemma upload_loop_trace path n :
  forall lastErr w r w',
    upload_loop env APIKey path n lastErr w = (r, w') ->
    exists k,
      (k <= n)%nat
      /\ (forall j, (j < k)%nat ->
                    is_Some (upload_transient env (net env (sent w + j))))
      /\ (k < n -> upload_transient env (net env (sent w + k)) = None)%nat
      /\ trace w' =
           trace w ++ rounds (upload_request APIKey path) (replicate k 3)
                   ++ (if decide (k = n) then []
                       else [Send (upload_request APIKey path)])
      /\ sent w' = (sent w + k + (if decide (k = n) then 0 else 1))%nat.
Proof.
  induction n as [|n IH]; intros lastErr w r w' H.
  - cbn in H. injection H as <- <-. exists 0%nat.
    split; [lia|]. split; [intros j Hj; lia|]. split; [intros Hlt; lia|].
    split.
    + destruct (decide _); [|done]. cbn. by rewrite app_nil_r.
    + destruct (decide _); [lia|done].
  - destruct (upload_transient env (net env (sent w))) as [msg|] eqn:E.
    + rewrite (upload_loop_retry _ _ _ _ _ _ _ E) in H.
      destruct (IH _ _ _ _ H) as (k & Hk & Hj & Hend & Ht & Hs).
      cbn [retried sent trace] in *. exists (S k).
      split; [lia|]. split; [|split; [|split]].
      * intros [|j] Hlt; [by rewrite Nat.add_0_r, E|].
        replace (sent w + S j)%nat with (S (sent w) + j)%nat by lia.
        apply Hj. lia.
      * intros Hlt. replace (sent w + S k)%nat with (S (sent w) + k)%nat by lia.
        apply Hend. lia.
      * rewrite Ht. cbn [replicate rounds flat_map app].
        rewrite <- !app_assoc. cbn [app].
        destruct (decide (k = n)), (decide (S k = S n)); try lia; done.
      * rewrite Hs.
        destruct (decide (k = n)), (decide (S k = S n)); lia.
    + destruct (upload_loop_final env APIKey path n lastErr w E)
        as (r0 & Hr & _).
      rewrite Hr in H. injection H as <- <-. exists 0%nat.
      split; [lia|]. split; [intros j Hj; lia|].
      split; [by rewrite Nat.add_0_r|]. split.
      * destruct (decide _); [lia|]. cbn. done.
      * destruct (decide _); [lia|]. cbn. lia.
Qed.

Lemma ocr_loop_retry_delay req n attempt lastErr w msg :
  ocr_transient env (net env (sent w)) = Some msg ->
  ocr_loop env req (S n) attempt lastErr w =
    ocr_loop env req n (attempt + 1) (Some msg)
      (retried req (ocr_delay attempt (net env (sent w))) w).
Proof.
  intros H. cbn [ocr_loop]. unfold bind at 1, send, retried, ocr_delay.
  unfold ocr_transient, ocr_errMsg in H.
  destruct (net env (sent w)) as [err|resp].
  - injection H as <-. unfold bind, sleep. cbn. by rewrite <- app_assoc.
  - destruct (StatusCode resp =? 200); cbn [negb andb] in *.
    + destruct (length (Body resp) =? 0)%nat.
      * injection H as <-. unfold bind, sleep. cbn.
        by rewrite <- app_assoc.
      * destruct (negb (json_Valid env (Body resp))); [|discriminate].
        injection H as <-. unfold bind, sleep. cbn.
        by rewrite <- app_assoc.
    + destruct ((StatusCode resp >=? 500) || (StatusCode resp =? 429));
        [|discriminate].
      injection H as <-. unfold bind, sleep. cbn. by rewrite <- app_assoc.
Qed.

Lemma ocr_loop_trace req n :
  forall attempt lastErr w r w',
    ocr_loop env req n attempt lastErr w = (r, w') ->
    exists k,
      (k <= n)%nat
      /\ (forall j, (j < k)%nat ->
                    is_Some (ocr_transient env (net env (sent w + j))))
      /\ (k < n -> ocr_transient env (net env (sent w + k)) = None)%nat
      /\ trace w' =
           trace w
           ++ flat_map (fun d => [Send req; Sleep d])
                       (ocr_delays env (sent w) attempt k)
           ++ (if decide (k = n) then [] else [Send req])
      /\ sent w' = (sent w + k + (if decide (k = n) then 0 else 1))%nat.
Proof.
  induction n as [|n IH]; intros attempt lastErr w r w' H.
  - cbn in H. injection H as <- <-. exists 0%nat.
    split; [lia|]. split; [intros j Hj; lia|]. split; [intros Hlt; lia|].
    split.
    + destruct (decide _); [|done]. cbn. by rewrite app_nil_r.
    + destruct (decide _); [lia|done].
  - destruct (ocr_transient env (net env (sent w))) as [msg|] eqn:E.
    + rewrite (ocr_loop_retry_delay _ _ _ _ _ _ E) in H.
      destruct (IH _ _ _ _ _ H) as (k & Hk & Hj & Hend & Ht & Hs).
      cbn [retried sent trace] in *. exists (S k).
      split; [lia|]. split; [|split; [|split]].
      * intros [|j] Hlt; [by rewrite Nat.add_0_r, E|].
        replace (sent w + S j)%nat with (S (sent w) + j)%nat by lia.
        apply Hj. lia.
      * intros Hlt. replace (sent w + S k)%nat with (S (sent w) + k)%nat by lia.
        apply Hend. lia.
      * rewrite Ht. cbn [ocr_delays flat_map app].
        rewrite <- !app_assoc. cbn [app].
        destruct (decide (k = n)), (decide (S k = S n)); try lia; done.
      * rewrite Hs.
        destruct (decide (k = n)), (decide (S k = S n)); lia.
    + destruct (ocr_loop_final env req n attempt lastErr w E)
        as (r0 & Hr & _).
      rewrite Hr in H. injection H as <- <-. exists 0%nat.
      split; [lia|]. split; [intros j Hj; lia|].
      split; [by rewrite Nat.add_0_r|]. split.
      * destruct (decide _); [lia|]. cbn. done.
      * destruct (decide _); [lia|]. cbn. lia.
Qed.

(** Every pause lies between ten seconds and ten seconds times the
    number of the attempt. *)
Lemma ocr_delay_bounds attempt r :
  1 <= attempt -> 10 <= ocr_delay attempt r <= 10 * attempt.
Proof.
  intros H. unfold ocr_delay. destruct r as [err|resp]; [lia|].
  destruct (_ && _); lia.
Qed.

Lemma ocr_delays_bounds sent0 k :
  forall attempt,
    1 <= attempt ->
    Forall (fun d => 10 <= d <= 10 * (attempt + Z.of_nat k - 1))
           (ocr_delays env sent0 attempt k).
Proof.
  revert sent0. induction k as [|k IH]; intros sent0 attempt Ha; [constructor|].
  cbn [ocr_delays]. constructor.
  - pose proof (ocr_delay_bounds attempt (net env sent0) Ha). lia.
  - eapply Forall_impl; [apply IH; lia|]. intros d Hd. cbn beta in Hd. lia.
Qed.

(** What the loops return when they succeed comes from the last reply. *)
Lemma upload_loop_Ok path n :
  forall lastErr w id w',
    upload_loop env APIKey path n lastErr w = (Ok id, w') ->
    id <> []
    /\ (sent w < sent w')%nat
    /\ exists resp,
        net env (pred (sent w')) = Reply resp
        /\ StatusCode resp = 200
        /\ Body resp <> []
        /\ Unmarshal_id env (Body resp) = Ok id.
Proof.
  induction n as [|n IH]; intros lastErr w id w' H; [discriminate|].
  destruct (upload_transient env (net env (sent w))) as [msg|] eqn:E.
  - rewrite (upload_loop_retry _ _ _ _ _ _ _ E) in H.
    destruct (IH _ _ _ _ H) as (Hid & Hs & Hresp). cbn in Hs.
    split; [done|]. split; [lia|done].
  - clear IH. cbn [upload_loop] in H. unfold bind at 1, send in H.
    unfold upload_transient in E.
    destruct (net env (sent w)) as [err|resp] eqn:En; [discriminate|].
    destruct (StatusCode resp =? 200) eqn:E200; cbn [negb] in *.
    + destruct (length (Body resp) =? 0)%nat eqn:El; [discriminate|].
      destruct (Unmarshal_id env (Body resp)) as [id'|err] eqn:Eu;
        [|discriminate].
      destruct (decide (id' = [])); [discriminate|].
      injection H as <- <-. cbn. split; [done|]. split; [lia|].
      exists resp. apply Z.eqb_eq in E200. apply Nat.eqb_neq in El.
      repeat split; try done. by destruct (Body resp).
    + destruct ((StatusCode resp >=? 500) || (StatusCode resp =? 429));
        discriminate.
Qed.

Lemma ocr_loop_Ok req n :
  forall attempt lastErr w body w',
    ocr_loop env req n attempt lastErr w = (Ok body, w') ->
    body <> []
    /\ json_Valid env body = true
    /\ (sent w < sent w')%nat
    /\ exists resp,
        net env (pred (sent w')) = Reply resp
        /\ StatusCode resp = 200
        /\ Body resp = body.
Proof.
  induction n as [|n IH]; intros attempt lastErr w body w' H; [discriminate|].
  destruct (ocr_transient env (net env (sent w))) as [msg|] eqn:E.
  - rewrite (ocr_loop_retry_delay _ _ _ _ _ _ E) in H.
    destruct (IH _ _ _ _ _ H) as (Hb & Hv & Hs & Hresp). cbn in Hs.
    split; [done|]. split; [done|]. split; [lia|done].
  - clear IH. cbn [ocr_loop] in H. unfold bind at 1, send in H.
    unfold ocr_transient in E.
    destruct (net env (sent w)) as [err|resp] eqn:En; [discriminate|].
    destruct (StatusCode resp =? 200) eqn:E200; cbn [negb] in *.
    + destruct (length (Body resp) =? 0)%nat eqn:El; [discriminate|].
      destruct (json_Valid env (Body resp)) eqn:Ev; cbn [negb] in *;
        [|discriminate].
      injection H as <- <-. cbn. apply Nat.eqb_neq in El.
      split; [by destruct (Body resp)|]. split; [done|]. split; [lia|].
      exists resp. apply Z.eqb_eq in E200. done.
    + destruct ((StatusCode resp >=? 500) || (StatusCode resp =? 429));
        discriminate.
Qed.

End ClientRuns.

(** X1.  [UploadFile]: every attempt that fails and is repeated is followed
    by a pause of three seconds, the last one before giving up
    included; every request is the same upload request; and the run is
    [k] such rounds, then either nothing more (the three attempts are
    used up) or the one request whose reply settles the matter. *)
Theorem UploadFile_rounds (env : Mistral.Env) (APIKey path : gostring)
        (size : Z) (w w' : Mistral.world) (r : res gostring) :
  Mistral.Stat env path = Ok size ->
  size <= Mistral.MaxFileSize ->
  Mistral.UploadFile env APIKey path w = (r, w') ->
  exists k,
    (k <= 3)%nat
    /\ (forall j, (j < k)%nat ->
          is_Some (Spec.upload_transient env
                     (Mistral.net env (Mistral.sent w + j))))
    /\ ((k < 3)%nat ->
        Spec.upload_transient env (Mistral.net env (Mistral.sent w + k))
        = None)
    /\ Mistral.trace w' =
         Mistral.trace w
         ++ Runs.rounds (Mistral.upload_request APIKey path) (replicate k 3)
         ++ (if decide (k = 3%nat) then []
             else [Mistral.Send (Mistral.upload_request APIKey path)]).
Proof.
  intros HS Hle H. rewrite (UploadFile_small _ _ _ _ _ HS Hle) in H.
  destruct (upload_loop_trace env APIKey path 3 None w r w' H)
    as (k & Hk & Hj & Hend & Ht & _).
  exists k. repeat split; try done.
Qed.

(** One failure, then a reply that ends the upload: one round and one
    more request. *)
Lemma UploadFile_rounds_witness :
  let env := Sample.client 1024 [Sample.http 503 "busy";
                                 Sample.http 200 "id=f1"] in
  let run := Mistral.UploadFile env "key" "scan.pdf" Mistral.start in
  exists k,
    Mistral.trace (snd run) =
      Runs.rounds (Mistral.upload_request "key" "scan.pdf") (replicate k 3)
      ++ (if decide (k = 3%nat) then []
          else [Mistral.Send (Mistral.upload_request "key" "scan.pdf")]).
Proof.
  intros env run.
  destruct (UploadFile_rounds env "key" "scan.pdf" 1024 Mistral.start
              (snd run) (fst run)) as (k & _ & _ & _ & Ht);
    [reflexivity|discriminate|reflexivity|].
  exists k. exact Ht.
Defined.

(** X2.  [ProcessOCR]: the pause after a failed attempt is ten seconds,
    except after an empty body, where it is ten seconds times the
    number of the attempt; so every pause lies between 10 and 50
    seconds.  The run is [k] rounds of the same request and its pause,
    then nothing more (the five attempts are used up) or the one request
    whose reply settles the matter. *)
Theorem ProcessOCR_rounds (env : Mistral.Env)
        (APIKey docType docSource : gostring) (b : bool)
        (w w' : Mistral.world) (r : res gostring) :
  docType = "document_url" \/ docType = "image_url" ->
  Mistral.ProcessOCR env APIKey docType docSource b w = (r, w') ->
  let req := Mistral.ocr_request APIKey (Doc.ocr_document docType docSource) b in
  exists k,
    (k <= 5)%nat
    /\ Mistral.trace w' =
         Mistral.trace w
         ++ flat_map (fun d => [Mistral.Send req; Mistral.Sleep d])
                     (Runs.ocr_delays env (Mistral.sent w) 1 k)
         ++ (if decide (k = 5%nat) then [] else [Mistral.Send req])
    /\ Forall (fun d => 10 <= d <= 50)
              (Runs.ocr_delays env (Mistral.sent w) 1 k).
Proof.
  intros Hd H req. rewrite (ProcessOCR_supported _ _ _ _ _ _ Hd) in H.
  destruct (ocr_loop_trace env _ 5 1 None w r w' H)
    as (k & Hk & _ & _ & Ht & _).
  exists k. split; [done|]. split; [exact Ht|].
  eapply Forall_impl; [apply (ocr_delays_bounds env); lia|].
  intros d Hb. cbn beta in Hb. lia.
Qed.

(** A server error at the first attempt and empty bodies at the second
    and third: pauses of 10, 20 and 30 seconds. *)
Lemma ProcessOCR_rounds_witness :
  let env := Sample.client 0 [Sample.http 500 "busy"; Sample.http 200 "";
                              Sample.http 200 ""; Sample.http 200 "{}"] in
  let req := Mistral.ocr_request "key"
               (Doc.ocr_document "document_url" "https://x/a.pdf") false in
  Mistral.trace
    (snd (Mistral.ProcessOCR env "key" "document_url" "https://x/a.pdf"
            false Mistral.start)) =
    [Mistral.Send req; Mistral.Sleep 10; Mistral.Send req; Mistral.Sleep 20;
     Mistral.Send req; Mistral.Sleep 30; Mistral.Send req].
Proof.
  intros env req.
  destruct (ProcessOCR_rounds env "key" "document_url" "https://x/a.pdf"
              false Mistral.start
              (snd (Mistral.ProcessOCR env "key" "document_url"
                      "https://x/a.pdf" false Mistral.start))
              (fst (Mistral.ProcessOCR env "key" "document_url"
                      "https://x/a.pdf" false Mistral.start)))
    as (k & Hk & Ht & _); [by left|reflexivity|].
  reflexivity.
Defined.

(** X3.  [UploadFile] sends a request exactly when [os.Stat] succeeds with a
    size within the limit; when [os.Stat] fails, its error is returned
    and nothing is sent. *)
Theorem UploadFile_sends_iff (env : Mistral.Env) (APIKey path : gostring)
        (w w' : Mistral.world) (r : res gostring) :
  Mistral.UploadFile env APIKey path w = (r, w') ->
  ((Mistral.sent w < Mistral.sent w')%nat <->
   exists size, Mistral.Stat env path = Ok size
                /\ size <= Mistral.MaxFileSize)
  /\ (forall err, Mistral.Stat env path = Fail err ->
                  r = Fail ("error checking file size: " ++ err) /\ w' = w).
Proof.
  intros H. split.
  - split.
    + intros Hs. unfold Mistral.UploadFile in H.
      destruct (Mistral.Stat env path) as [size|err].
      * destruct (size >? Mistral.MaxFileSize) eqn:E.
        -- injection H as _ <-. lia.
        -- exists size. split; [done|].
           rewrite Z.gtb_ltb in E. by apply Z.ltb_ge in E.
      * injection H as _ <-. lia.
    + intros (size & HS & Hle).
      rewrite (UploadFile_small _ _ _ _ _ HS Hle) in H.
      apply upload_loop_requests in H. apply H. done.
  - intros err HS. unfold Mistral.UploadFile in H. rewrite HS in H.
    by injection H as <- <-.
Qed.

Lemma UploadFile_sends_iff_witness :
  let env := {| Mistral.Stat := fun _ => Fail "no such file or directory";
                Mistral.net := Sample.scripted [];
                Mistral.Unmarshal_id := Sample.field "id";
                Mistral.Unmarshal_url := Sample.field "url";
                Mistral.json_Valid := fun _ => true;
                Mistral.fmt_MB := fun n => itoa n |} in
  Mistral.UploadFile env "key" "gone.pdf" Mistral.start =
    (Fail "error checking file size: no such file or directory",
     Mistral.start).
Proof.
  intros env.
  destruct (UploadFile_sends_iff env "key" "gone.pdf" Mistral.start
              (snd (Mistral.UploadFile env "key" "gone.pdf" Mistral.start))
              (fst (Mistral.UploadFile env "key" "gone.pdf" Mistral.start)))
    as [_ H]; [reflexivity|].
  destruct (H "no such file or directory" eq_refl) as [Hr Hw].
  apply injective_projections; [exact Hr|exact Hw].
Defined.

(** X4.  The file ID that [UploadFile] returns is never empty: it is the
    [id] field of the body of the last reply, which had status 200. *)
Theorem UploadFile_returns_id (env : Mistral.Env) (APIKey path : gostring)
        (w w' : Mistral.world) (id : gostring) :
  Mistral.UploadFile env APIKey path w = (Ok id, w') ->
  id <> []
  /\ (Mistral.sent w < Mistral.sent w')%nat
  /\ exists resp,
      Mistral.net env (pred (Mistral.sent w')) = Mistral.Reply resp
      /\ Mistral.StatusCode resp = 200
      /\ Mistral.Body resp <> []
      /\ Mistral.Unmarshal_id env (Mistral.Body resp) = Ok id.
Proof.
  intros H. unfold Mistral.UploadFile in H.
  destruct (Mistral.Stat env path) as [size|err]; [|discriminate].
  destruct (size >? Mistral.MaxFileSize); [discriminate|].
  by apply upload_loop_Ok in H.
Qed.

Lemma UploadFile_returns_id_witness :
  let env := Sample.client 1024 [Sample.http 200 "{}";
                                 Sample.http 200 "id=f1"] in
  Mistral.UploadFile env "key" "scan.pdf" Mistral.start =
    (Ok ("f1" : gostring),
     snd (Mistral.UploadFile env "key" "scan.pdf" Mistral.start))
  /\ ("f1" : gostring) <> [].
Proof.
  intros env. split; [reflexivity|].
  apply (UploadFile_returns_id env "key" "scan.pdf" Mistral.start
           (snd (Mistral.UploadFile env "key" "scan.pdf" Mistral.start))).
  reflexivity.
Defined.

(** X5.  What [ProcessOCR] returns is never empty and is valid JSON: it is
    the body of the last reply, which had status 200. *)
Theorem ProcessOCR_returns_body (env : Mistral.Env)
        (APIKey docType docSource : gostring) (b : bool)
        (w w' : Mistral.world) (body : gostring) :
  Mistral.ProcessOCR env APIKey docType docSource b w = (Ok body, w') ->
  body <> []
  /\ Mistral.json_Valid env body = true
  /\ (docType = "document_url" \/ docType = "image_url")
  /\ exists resp,
      Mistral.net env (pred (Mistral.sent w')) = Mistral.Reply resp
      /\ Mistral.StatusCode resp = 200
      /\ Mistral.Body resp = body.
Proof.
  intros H. unfold Mistral.ProcessOCR in H.
  destruct (decide (docType = "document_url")) as [Hd|Hd].
  - apply ocr_loop_Ok in H as (? & ? & ? & ?). repeat split; try done.
    by left.
  - destruct (decide (docType = "image_url")) as [Hi|Hi]; [|discriminate].
    apply ocr_loop_Ok in H as (? & ? & ? & ?). repeat split; try done.
    by right.
Qed.

Lemma ProcessOCR_returns_body_witness :
  let env := Sample.client 0 [Sample.http 200 ""; Sample.http 200 "{}"] in
  let run := Mistral.ProcessOCR env "key" "image_url" "https://x/a.png"
               true Mistral.start in
  fst run = Ok ("{}" : gostring)
  /\ Mistral.json_Valid env "{}" = true.
Proof.
  intros env run. split; [reflexivity|].
  apply (ProcessOCR_returns_body env "key" "image_url" "https://x/a.png"
           true Mistral.start (snd run)).
  reflexivity.
Defined.

(** X6.  [GetFileURL] succeeds exactly when its one reply has status 200 and
    a body whose [url] field decodes and is not empty; it returns that
    URL. *)
Theorem GetFileURL_succeeds_iff (env : Mistral.Env)
        (APIKey fileID url : gostring) (w : Mistral.world) :
  fst (Mistral.GetFileURL env APIKey fileID w) = Ok url
  <-> exists resp,
      Mistral.net env (Mistral.sent w) = Mistral.Reply resp
      /\ Mistral.StatusCode resp = 200
      /\ Mistral.Unmarshal_url env (Mistral.Body resp) = Ok url
      /\ url <> [].
Proof.
  unfold Mistral.GetFileURL, Mistral.bind, Mistral.send, Mistral.ret.
  destruct (Mistral.net env (Mistral.sent w)) as [err|resp].
  - split; [discriminate|]. by intros (resp & [=] & _).
  - destruct (Mistral.StatusCode resp =? 200) eqn:E; cbn [negb].
    + apply Z.eqb_eq in E.
      destruct (Mistral.Unmarshal_url env (Mistral.Body resp))
        as [url'|err] eqn:Eu.
      * destruct (decide (url' = [])) as [->|Hne]; cbn.
        -- split; [discriminate|].
           intros (resp' & [= <-] & _ & Hu & Hn). congruence.
        -- split.
           ++ intros [= <-]. by exists resp.
           ++ intros (resp' & [= <-] & _ & Hu & Hn). congruence.
      * split; [discriminate|].
        intros (resp' & [= <-] & _ & Hu & Hn). congruence.
    + apply Z.eqb_neq in E. split; [discriminate|].
      intros (resp' & [= <-] & H200 & _). done.
Qed.

(** X7.  Every request of the client carries the API key in its
    [Authorization] header, at every attempt. *)
Theorem client_requests_authorized (env : Mistral.Env) (APIKey : gostring) :
  (forall path,
      Doc.client_emits (Runs.authorized APIKey)
                       (Mistral.UploadFile env APIKey path))
  /\ (forall fileID,
        Doc.client_emits (Runs.authorized APIKey)
                         (Mistral.GetFileURL env APIKey fileID))
  /\ (forall docType docSource b,
        Doc.client_emits (Runs.authorized APIKey)
                         (Mistral.ProcessOCR env APIKey docType docSource b)).
Proof.
  split; [|split].
  - intros path. unfold Mistral.UploadFile.
    destruct (Mistral.Stat env path); [|apply client_emits_ret].
    destruct (_ >? _); [apply client_emits_ret|].
    apply upload_loop_emits; [|done]. cbn. left.
  - intros fileID. unfold Mistral.GetFileURL.
    repeat first [ client_emits_step | apply client_emits_ret ].
    cbn. left.
  - intros docType docSource b. unfold Mistral.ProcessOCR.
    destruct (decide _); [|destruct (decide _); [|apply client_emits_ret]];
      (apply ocr_loop_emits; [|done]); cbn; right; left.
Qed.

(** ** More on the commands *)

Section CommandRuns.
Import Cmd Doc Runs.
Variable env : Cmd.Env.

(** How a run of [bind] splits. *)
Lemma bind_run {A B} (m : M A) (k : A -> M B) w o w' :
  bind m k w = (o, w') ->
  (exists a w1, m w = (Return a, w1) /\ k a w1 = (o, w'))
  \/ (exists code, m w = (Exit code, w') /\ o = Exit code)
  \/ (m w = (Panic, w') /\ o = Panic).
Proof.
  unfold bind. destruct (m w) as [[a|code|] w1]; intros H.
  - left. by exists a, w1.
  - injection H as <- <-. right. left. by exists code.
  - injection H as <- <-. right. by right.
Qed.

Lemma call_run {A} (m : Mistral.M A) w :
  call m w = (Return (fst (m (client_world w))),
              called (snd (m (client_world w))) w).
Proof.
  unfold call, client_world, called. by destruct (m _).
Qed.

(** *** The API key *)

Lemma after_nil w : after [] w = w.
Proof. unfold after. rewrite app_nil_r. by destruct w. Qed.

Lemma bind_exit {A B} code (k : A -> M B) w :
  bind (exit code) k w = (Exit code, w).
Proof. reflexivity. Qed.

Lemma bind_ret {A B} (a : A) (k : A -> M B) w : bind (ret a) k w = k a w.
Proof. reflexivity. Qed.

Lemma bind_emit_ret {A B} e (a : A) (k : A -> M B) w :
  bind (bind (emit e) (fun _ => ret a)) k w = k a (after [e] w).
Proof. reflexivity. Qed.

Lemma bind_do_MkdirAll {B} path (k : option gostring -> M B) w :
  bind (do_MkdirAll env path) k w =
    k (MkdirAll_err env path) (after [MkdirAll path] w).
Proof. reflexivity. Qed.

Lemma bind_do_WriteFile {B} name data (k : option gostring -> M B) w :
  bind (do_WriteFile env name data) k w =
    k (WriteFile_err env name data) (after [WriteFile name data] w).
Proof. reflexivity. Qed.

Lemma bind_bind {A B C} (m : M A) (k1 : A -> M B) (k2 : B -> M C) w :
  bind (bind m k1) k2 w = bind m (fun a => bind (k1 a) k2) w.
Proof. unfold bind. by destruct (m w) as [[a|code|] w1]. Qed.

Lemma do_MkdirAll_run path w :
  do_MkdirAll env path w =
    (Return (MkdirAll_err env path), after [MkdirAll path] w).
Proof. reflexivity. Qed.

Lemma bind_call {A B} (m : Mistral.M A) (k : A -> M B) w :
  bind (call m) k w =
    k (fst (m (client_world w))) (called (snd (m (client_world w))) w).
Proof. unfold bind. by rewrite call_run. Qed.

Lemma bind_getAPIKey {B} f (k : gostring -> M B) w :
  bind (getAPIKey env f) k w =
    if decide (apiKey f <> []) then k (apiKey f) w
    else if decide (Getenv_MISTRAL_API_KEY env = []) then (Exit 1, w)
         else k (Getenv_MISTRAL_API_KEY env) w.
Proof.
  unfold bind, getAPIKey. destruct (decide _); [done|].
  by destruct (decide _).
Qed.

Lemma bind_getAPIKey_missing {B} f (k : gostring -> M B) w :
  apiKey f = [] -> Getenv_MISTRAL_API_KEY env = [] ->
  bind (getAPIKey env f) k w = (Exit 1, w).
Proof.
  intros Hk He. rewrite bind_getAPIKey.
  destruct (decide _) as [H|_]; [by destruct H|].
  by destruct (decide _).
Qed.

Lemma bind_getAPIKey_flag {B} f (k : gostring -> M B) w :
  apiKey f <> [] -> bind (getAPIKey env f) k w = k (apiKey f) w.
Proof. intros Hk. rewrite bind_getAPIKey. by destruct (decide _). Qed.

Lemma NewClient_key key : key <> [] -> NewClient env key = Some key.
Proof. intros H. unfold NewClient. by rewrite decide_False. Qed.

End CommandRuns.

(** X8.  [getAPIKey] prefers the flag to the environment variable, exits
    with code 1 when both are empty, and never returns an empty key: so
    the client that [NewClient] makes of the key is never nil. *)
Theorem getAPIKey_result (env : Cmd.Env) (f : Cmd.Flags) (w : Cmd.world) :
  (Cmd.apiKey f <> [] ->
   Cmd.getAPIKey env f w = (Cmd.Return (Cmd.apiKey f), w))
  /\ (Cmd.apiKey f = [] -> Cmd.Getenv_MISTRAL_API_KEY env <> [] ->
      Cmd.getAPIKey env f w =
        (Cmd.Return (Cmd.Getenv_MISTRAL_API_KEY env), w))
  /\ (Cmd.apiKey f = [] -> Cmd.Getenv_MISTRAL_API_KEY env = [] ->
      Cmd.getAPIKey env f w = (Cmd.Exit 1, w))
  /\ (forall key w',
        Cmd.getAPIKey env f w = (Cmd.Return key, w') ->
        key <> [] /\ Cmd.NewClient env key = Some key /\ w' = w).
Proof.
  unfold Cmd.getAPIKey, Cmd.NewClient.
  destruct (decide (Cmd.apiKey f <> [])) as [Hk|Hk].
  - split; [done|]. split; [by intros ?|]. split; [by intros ?|].
    intros key w' [= <- <-]. split; [done|].
    split; [by rewrite decide_False|done].
  - assert (Hk' : Cmd.apiKey f = [])
      by (by destruct (Cmd.apiKey f); [|destruct Hk]).
    split; [done|].
    destruct (decide (Cmd.Getenv_MISTRAL_API_KEY env = [])) as [He|He].
    + split; [done|]. split; [done|]. by intros key w' [=].
    + split; [done|]. split; [done|].
      intros key w' [= <- <-]. split; [done|].
      split; [by rewrite decide_False|done].
Qed.

(** X9.  Without an API key, in the flag and in the environment, the process
    command exits with code 1 before anything happens.  The markdown
    command exits with code 1 as well, but it has made its temporary
    file by then (when no JSON file was asked for), and leaves it
    behind. *)
Theorem missing_key_stops_commands (env : Cmd.Env) (f : Cmd.Flags)
        (input : gostring) (w : Cmd.world) :
  Cmd.apiKey f = [] ->
  Cmd.Getenv_MISTRAL_API_KEY env = [] ->
  Cmd.processCmd_Run env f input w = (Cmd.Exit 1, w)
  /\ Cmd.processAndConvertToMarkdown env f input w =
       (Cmd.Exit 1,
        Doc.after
          (match Cmd.CreateTemp_name env with
           | Ok name =>
               if decide (Cmd.jsonOutputFile f = []) then
                 [Cmd.CreateTemp name]
               else []
           | Fail _ => []
           end) w).
Proof.
  intros Hk He. split.
  - unfold Cmd.processCmd_Run, Cmd.processURL, Cmd.processLocalFile.
    destruct (_ || _).
    + by rewrite bind_getAPIKey_missing.
    + destruct (Cmd.NotExist env input); [done|].
      by rewrite bind_getAPIKey_missing.
  - unfold Cmd.processAndConvertToMarkdown.
    destruct (decide (Cmd.jsonOutputFile f = [])) as [Hj|Hj].
    + destruct (Cmd.CreateTemp_name env) as [name|err].
      * rewrite bind_emit_ret. cbv beta iota zeta. unfold Cmd.deferred.
        by rewrite bind_getAPIKey_missing.
      * by rewrite bind_exit, after_nil.
    + rewrite bind_ret. cbv beta iota zeta.
      rewrite bind_getAPIKey_missing by done.
      destruct (Cmd.CreateTemp_name env); by rewrite after_nil.
Qed.

(** No key anywhere and no JSON file asked for: the temporary file is
    all that the markdown command leaves. *)
Lemma missing_key_stops_commands_witness :
  let env := Sample.files (Sample.response "" []) (Sample.client 0 []) in
  let f := Cmd.set_singleFile false
             {| Cmd.apiKey := []; Cmd.jsonOutputFile := [];
                Cmd.includeImageBase64 := false;
                Cmd.markdownDir := "markdown_output"; Cmd.markdownFile := [];
                Cmd.includeImages := false; Cmd.includePageBreaks := true;
                Cmd.titleFromFilename := true; Cmd.singleFile := false |} in
  Cmd.processAndConvertToMarkdown env f "scan.pdf" Cmd.start =
    (Cmd.Exit 1,
     Doc.after [Cmd.CreateTemp "/tmp/mistral-ocr-1.json"] Cmd.start).
Proof.
  intros env f.
  apply (missing_key_stops_commands env f "scan.pdf" Cmd.start);
    reflexivity.
Defined.

(** *** What the commands emit, piece by piece *)

Section Pieces.
Import Cmd Doc Runs.
Variable env : Cmd.Env.
Variable P : event -> Prop.

Lemma emits_bind_ret {A B} (a : A) (k : A -> M B) :
  emits P (k a) -> emits P (bind (ret a) k).
Proof. intros H w o w' Hrun. by apply (H w o w'). Qed.

Lemma multi_loop_emits_files f pages :
  (forall name data, P (WriteFile name data)) ->
  emits P (multi_loop env f pages).
Proof.
  intros Hw. induction pages as [|page pages IH]; cbn [multi_loop].
  - apply emits_ret.
  - destruct (page_content env f page); [|apply emits_panic].
    apply emits_bind.
    + unfold do_WriteFile. apply emits_bind; [by apply emits_emit|].
      intros _. apply emits_ret.
    + intros [err|]; [apply emits_exit|apply IH].
Qed.

Lemma do_MkdirAll_emits path :
  P (MkdirAll path) -> emits P (do_MkdirAll env path).
Proof.
  intros H. unfold do_MkdirAll. apply emits_bind; [by apply emits_emit|].
  intros _. apply emits_ret.
Qed.

Lemma do_WriteFile_emits name data :
  P (WriteFile name data) -> emits P (do_WriteFile env name data).
Proof.
  intros H. unfold do_WriteFile. apply emits_bind; [by apply emits_emit|].
  intros _. apply emits_ret.
Qed.

Lemma convertJSONToMarkdown_emits_files f jsonFile :
  (forall e, on_files e -> P e) ->
  emits P (convertJSONToMarkdown env f jsonFile).
Proof.
  intros H. unfold convertJSONToMarkdown.
  repeat lazymatch goal with
    | |- emits _ (bind _ _) => apply emits_bind; [|intros ?]
    | |- emits _ (ret _) => apply emits_ret
    | |- emits _ (exit _) => apply emits_exit
    | |- emits _ panic => apply emits_panic
    | |- emits _ (do_MkdirAll _ _) => apply do_MkdirAll_emits, H; exact I
    | |- emits _ (do_WriteFile _ _ _) => apply do_WriteFile_emits, H; exact I
    | |- emits _ (multi_loop _ _ _) =>
        apply multi_loop_emits_files; intros; apply H; exact I
    | |- emits _ (match ?x with _ => _ end) => destruct x
    end.
Qed.

Lemma handleOutput_emits_files f data :
  (forall e, on_files e -> P e) ->
  (forall line, P (Println line)) ->
  emits P (handleOutput env f data).
Proof.
  intros H Hp. unfold handleOutput.
  repeat lazymatch goal with
    | |- emits _ (bind _ _) => apply emits_bind; [|intros ?]
    | |- emits _ (ret _) => apply emits_ret
    | |- emits _ (exit _) => apply emits_exit
    | |- emits _ (emit (Println _)) => apply emits_emit, Hp
    | |- emits _ (do_MkdirAll _ _) => apply do_MkdirAll_emits, H; exact I
    | |- emits _ (do_WriteFile _ _ _) => apply do_WriteFile_emits, H; exact I
    | |- emits _ (match ?x with _ => _ end) => destruct x
    end.
Qed.

End Pieces.

Section ClientPieces.
Import Mistral Doc.
Variable env : Mistral.Env.
Variable APIKey : gostring.
Variable P : Mistral.event -> Prop.
Hypothesis P_sleep : forall s, P (Sleep s).

Lemma UploadFile_emits_request path :
  P (Send (upload_request APIKey path)) ->
  client_emits P (UploadFile env APIKey path).
Proof.
  intros H. unfold UploadFile.
  destruct (Stat env path); [|apply client_emits_ret].
  destruct (_ >? _); [apply client_emits_ret|].
  by apply upload_loop_emits.
Qed.

Lemma GetFileURL_emits_request fileID :
  P (Send (url_request APIKey fileID)) ->
  client_emits P (GetFileURL env APIKey fileID).
Proof.
  intros H. unfold GetFileURL.
  repeat first [ client_emits_step | apply client_emits_ret ]. done.
Qed.

Lemma ProcessOCR_emits_request (docType : gostring) docSource b :
  P (Send (ocr_request APIKey (ocr_document docType docSource) b)) ->
  client_emits P (ProcessOCR env APIKey docType docSource b).
Proof.
  intros H. unfold ProcessOCR.
  destruct (decide (docType = "document_url")) as [->|];
    [|destruct (decide (docType = "image_url")) as [->|]];
    [| |apply client_emits_ret]; by apply ocr_loop_emits.
Qed.

End ClientPieces.

(** Walks through the body of a command; what is left are the events
    themselves. *)
Ltac emits_walk :=
  repeat lazymatch goal with
    | |- Doc.emits _ (Cmd.bind (Cmd.ret _) _) => apply emits_bind_ret
    | |- Doc.emits _ (Cmd.bind _ _) => apply emits_bind; [|intros ?]
    | |- Doc.emits _ (Cmd.deferred _ _) => apply emits_deferred
    | |- Doc.emits _ (Cmd.ret _) => apply emits_ret
    | |- Doc.emits _ (Cmd.exit _) => apply emits_exit
    | |- Doc.emits _ Cmd.panic => apply emits_panic
    | |- Doc.emits _ (Cmd.emit _) => apply emits_emit
    | |- Doc.emits _ (Cmd.getAPIKey _ _) => apply getAPIKey_emits
    | |- Doc.emits _ (Cmd.do_MkdirAll _ _) => apply do_MkdirAll_emits
    | |- Doc.emits _ (Cmd.do_WriteFile _ _ _) => apply do_WriteFile_emits
    | |- Doc.emits _ (Cmd.handleOutput _ _ _) =>
        apply handleOutput_emits_files
    | |- Doc.emits _ (Cmd.convertJSONToMarkdown _ _ _) =>
        apply convertJSONToMarkdown_emits_files
    | |- Doc.emits _ (Cmd.call (Mistral.UploadFile _ _ _)) =>
        apply emits_call, UploadFile_emits_request
    | |- Doc.emits _ (Cmd.call (Mistral.GetFileURL _ _ _)) =>
        apply emits_call, GetFileURL_emits_request
    | |- Doc.emits _ (Cmd.call (Mistral.ProcessOCR _ _ _ _ _)) =>
        apply emits_call, ProcessOCR_emits_request
    | |- Doc.emits _ (match ?x with _ => _ end) => destruct x
    end.

(** X10.  The converter works on files only: it makes directories and writes
    files, and sends nothing, prints no result and removes nothing. *)
Theorem convertJSONToMarkdown_on_files (env : Cmd.Env) (f : Cmd.Flags)
        (jsonFile : gostring) :
  Doc.emits Runs.on_files (Cmd.convertJSONToMarkdown env f jsonFile).
Proof. by apply convertJSONToMarkdown_emits_files. Qed.

(** X11.  For an argument that starts with [http://] or [https://] the
    process command sends requests to [/ocr] only: nothing is uploaded.
    For any other argument it takes the argument for a file, and exits
    with code 1 before anything happens when the file does not exist. *)
Theorem processCmd_Run_dispatch (env : Cmd.Env) (f : Cmd.Flags)
        (filePath : gostring) :
  (HasPrefix filePath "http://" = true
   \/ HasPrefix filePath "https://" = true ->
   Doc.emits Runs.only_to_ocr (Cmd.processCmd_Run env f filePath))
  /\ (HasPrefix filePath "http://" = false ->
      HasPrefix filePath "https://" = false ->
      Cmd.NotExist env filePath = true ->
      forall w, Cmd.processCmd_Run env f filePath w = (Cmd.Exit 1, w)).
Proof.
  unfold Cmd.processCmd_Run. split.
  - intros H. replace (_ || _) with true
      by (by destruct H as [-> | ->]; rewrite ?orb_true_r).
    unfold Cmd.processURL. emits_walk; try done; try (by intros [] ?).
  - intros -> -> Hn w. cbn. unfold Cmd.processLocalFile. by rewrite Hn.
Qed.

(** X12.  The markdown command with [--images]: its [PreRun] hook turns on
    the flag for the images of the API, so that every request to [/ocr]
    asks for them, whether or not that flag was set. *)
Theorem markdown_images_ask_api (env : Cmd.Env) (f : Cmd.Flags)
        (args : list gostring) :
  Cmd.includeImages f = true ->
  Doc.emits Runs.asks_for_images (Cli.processMarkdownCmd_Execute env f args).
Proof.
  intros Hi. unfold Cli.processMarkdownCmd_Execute.
  destruct args as [|fileOrURL [|? ?]]; [apply emits_exit| |apply emits_exit].
  assert (Hb : Cmd.includeImageBase64 (Cmd.processMarkdownCmd_PreRun f)
               = true).
  { unfold Cmd.processMarkdownCmd_PreRun. rewrite Hi.
    by destruct (decide _). }
  unfold Cmd.processAndConvertToMarkdown. cbv zeta. rewrite Hb.
  emits_walk; try done; try (by intros [] ?);
    try (cbn; intros _; by eexists); cbn; discriminate.
Qed.

(** A scan at a URL, converted with [--images]: the one request asks
    for the images. *)
Lemma markdown_images_ask_api_witness :
  let env := Sample.files (Sample.response "" [Sample.page 0 "text" []])
               (Sample.client 0 [Sample.http 200 "{}"]) in
  let f := Sample.with_images Sample.flags in
  let run := Cli.processMarkdownCmd_Execute env f
               ["https://example.org/scan.pdf" : gostring] Cmd.start in
  Cmd.sent (snd run) = 1%nat
  /\ exists evs,
      Cmd.trace (snd run) = Cmd.trace Cmd.start ++ evs
      /\ Forall Runs.asks_for_images evs.
Proof.
  intros env f run. split; [by vm_compute|].
  apply (markdown_images_ask_api env f
           ["https://example.org/scan.pdf" : gostring] eq_refl Cmd.start
           (fst run) (snd run)).
  apply surjective_pairing.
Defined.

(** *** How many requests a command sends *)

Section Counting.
Import Cmd Doc Runs.
Variable env : Cmd.Env.

Lemma sends_ret {A} n (a : A) : sends_at_most n (ret a).
Proof. intros w o w' [= <- <-]. lia. Qed.

Lemma sends_exit {A} n code : sends_at_most n (@exit A code).
Proof. intros w o w' [= <- <-]. lia. Qed.

Lemma sends_panic {A} n : sends_at_most n (@panic A).
Proof. intros w o w' [= <- <-]. lia. Qed.

Lemma sends_emit n e : sends_at_most n (emit e).
Proof. intros w o w' [= <- <-]. cbn. lia. Qed.

Lemma sends_bind {A B} n1 n2 n (m : M A) (k : A -> M B) :
  (n1 + n2 <= n)%nat ->
  sends_at_most n1 m -> (forall a, sends_at_most n2 (k a)) ->
  sends_at_most n (bind m k).
Proof.
  intros Hn Hm Hk w o w' H.
  apply bind_run in H as [(a & w1 & Hm1 & Hk1)|[(code & Hm1 & _)|[Hm1 _]]].
  - apply Hm in Hm1. apply Hk in Hk1. lia.
  - apply Hm in Hm1. lia.
  - apply Hm in Hm1. lia.
Qed.

Lemma sends_deferred {A} n (call : M unit) (body : M A) :
  sends_at_most 0 call -> sends_at_most n body ->
  sends_at_most n (deferred call body).
Proof.
  intros Hc Hb w o w' H. unfold deferred in H.
  destruct (body w) as [[a|code|] w1] eqn:E; apply Hb in E.
  - apply (sends_bind 0 0 0 call (fun _ => ret a)) in H;
      [lia|lia|done|intros _; apply sends_ret].
  - injection H as _ <-. lia.
  - apply (sends_bind 0 0 0 call (fun _ => panic)) in H;
      [lia|lia|done|intros _; apply sends_panic].
Qed.

Lemma sends_call {A} n (m : Mistral.M A) :
  (forall cw a cw',
      m cw = (a, cw') ->
      (Mistral.sent cw <= Mistral.sent cw' <= Mistral.sent cw + n)%nat) ->
  sends_at_most n (call m).
Proof.
  intros Hm w o w' H. rewrite call_run in H. injection H as _ <-.
  specialize (Hm (client_world w) _ _ (surjective_pairing _)).
  unfold called, client_world in *. cbn [sent Mistral.sent] in *. lia.
Qed.

Lemma sends_multi_loop f pages : sends_at_most 0 (multi_loop env f pages).
Proof.
  induction pages as [|page pages IH]; cbn [multi_loop].
  - apply sends_ret.
  - destruct (page_content env f page); [|apply sends_panic].
    apply (sends_bind 0 0); [lia| |].
    + unfold do_WriteFile. apply (sends_bind 0 0); [lia|apply sends_emit|].
      intros _. apply sends_ret.
    + intros [err|]; [apply sends_exit|apply IH].
Qed.

Lemma sends_do_MkdirAll n path : sends_at_most n (do_MkdirAll env path).
Proof.
  unfold do_MkdirAll. apply (sends_bind 0 0); [lia|apply sends_emit|].
  intros _. apply sends_ret.
Qed.

Lemma sends_do_WriteFile n name data :
  sends_at_most n (do_WriteFile env name data).
Proof.
  unfold do_WriteFile. apply (sends_bind 0 0); [lia|apply sends_emit|].
  intros _. apply sends_ret.
Qed.

Lemma sends_bind_assoc {A B C} n (m : M A) (k1 : A -> M B) (k2 : B -> M C) :
  sends_at_most n (bind m (fun a => bind (k1 a) k2)) ->
  sends_at_most n (bind (bind m k1) k2).
Proof.
  intros H w o w' Hrun. apply (H w o w'). rewrite <- Hrun.
  unfold bind. by destruct (m w) as [[a|code|] w1].
Qed.

Lemma sends_weaken {A} n1 n2 (m : M A) :
  (n1 <= n2)%nat -> sends_at_most n1 m -> sends_at_most n2 m.
Proof. intros Hn Hm w o w' H. apply Hm in H. lia. Qed.

Lemma sends_getAPIKey n f : sends_at_most n (getAPIKey env f).
Proof.
  unfold getAPIKey.
  destruct (decide _); [apply sends_ret|].
  destruct (decide _); [apply sends_exit|apply sends_ret].
Qed.

End Counting.

Section ClientBudgets.
Import Cmd Doc Runs.
Variable env : Cmd.Env.

Lemma UploadFile_budget APIKey path cw a cw' :
  Mistral.UploadFile (client_env env) APIKey path cw = (a, cw') ->
  (Mistral.sent cw <= Mistral.sent cw' <= Mistral.sent cw + 3)%nat.
Proof.
  unfold Mistral.UploadFile.
  destruct (Mistral.Stat _ _); [|intros [= _ <-]; lia].
  destruct (_ >? _); [intros [= _ <-]; lia|].
  intros H. apply upload_loop_requests in H.
  unfold Mistral.upload_maxRetries in H. lia.
Qed.

Lemma GetFileURL_budget APIKey fileID cw a cw' :
  Mistral.GetFileURL (client_env env) APIKey fileID cw = (a, cw') ->
  (Mistral.sent cw <= Mistral.sent cw' <= Mistral.sent cw + 1)%nat.
Proof.
  unfold Mistral.GetFileURL, Mistral.bind, Mistral.send, Mistral.ret.
  destruct (Mistral.net _ _) as [err|resp]; [intros [= _ <-]; cbn; lia|].
  destruct (negb _); [intros [= _ <-]; cbn; lia|].
  destruct (Mistral.Unmarshal_url _ _) as [url|err];
    [destruct (decide _)|]; intros [= _ <-]; cbn; lia.
Qed.

Lemma ProcessOCR_budget APIKey (docType : gostring) docSource b cw a cw' :
  Mistral.ProcessOCR (client_env env) APIKey docType docSource b cw
  = (a, cw') ->
  (Mistral.sent cw <= Mistral.sent cw' <= Mistral.sent cw + 5)%nat.
Proof.
  unfold Mistral.ProcessOCR.
  destruct (decide _); [|destruct (decide _); [|intros [= _ <-]; lia]];
    intros H; apply ocr_loop_requests in H;
    unfold Mistral.ocr_maxRetries in H; lia.
Qed.

End ClientBudgets.

(** Splits the requests of a [bind] between its two parts: none for the
    first part unless it is a call of the client. *)
Ltac sends_walk :=
  repeat lazymatch goal with
    | |- Runs.sends_at_most ?n (Cmd.bind (Cmd.call (Mistral.UploadFile _ _ _)) _) =>
        apply (sends_bind 3 (n - 3) n);
        [lia|apply sends_call, UploadFile_budget|intros ?]
    | |- Runs.sends_at_most ?n (Cmd.bind (Cmd.call (Mistral.GetFileURL _ _ _)) _) =>
        apply (sends_bind 1 (n - 1) n);
        [lia|apply sends_call, GetFileURL_budget|intros ?]
    | |- Runs.sends_at_most ?n (Cmd.bind (Cmd.call (Mistral.ProcessOCR _ _ _ _ _)) _) =>
        apply (sends_bind 5 (n - 5) n);
        [lia|apply sends_call, ProcessOCR_budget|intros ?]
    | |- Runs.sends_at_most _ (Cmd.bind (match ?x with _ => _ end) _) =>
        destruct x
    | |- Runs.sends_at_most _ (Cmd.bind (Cmd.bind _ _) _) =>
        apply sends_bind_assoc
    | |- Runs.sends_at_most ?n (Cmd.bind _ _) =>
        apply (sends_bind 0 n); [lia| |intros ?]
    | |- Runs.sends_at_most _ (Cmd.deferred _ _) =>
        apply sends_deferred; [apply sends_emit|]
    | |- Runs.sends_at_most _ (Cmd.ret _) => apply sends_ret
    | |- Runs.sends_at_most _ (Cmd.exit _) => apply sends_exit
    | |- Runs.sends_at_most _ Cmd.panic => apply sends_panic
    | |- Runs.sends_at_most _ (Cmd.emit _) => apply sends_emit
    | |- Runs.sends_at_most _ (Cmd.getAPIKey _ _) => apply sends_getAPIKey
    | |- Runs.sends_at_most _ (Cmd.do_MkdirAll _ _) => apply sends_do_MkdirAll
    | |- Runs.sends_at_most _ (Cmd.do_WriteFile _ _ _) =>
        apply sends_do_WriteFile
    | |- Runs.sends_at_most _ (Cmd.multi_loop _ _ _) =>
        eapply sends_weaken; [|apply sends_multi_loop]; lia
    | |- Runs.sends_at_most ?n (Cmd.call (Mistral.ProcessOCR _ _ _ _ _)) =>
        apply (sends_weaken 5 n); [lia|apply sends_call, ProcessOCR_budget]
    | |- Runs.sends_at_most _ (match ?x with _ => _ end) => destruct x
    end.

Section Budgets.
Import Cmd Doc Runs.
Variable env : Cmd.Env.

Lemma sends_convert n f jsonFile :
  sends_at_most n (convertJSONToMarkdown env f jsonFile).
Proof. unfold convertJSONToMarkdown. sends_walk. Qed.

Lemma sends_handleOutput n f data :
  sends_at_most n (handleOutput env f data).
Proof. unfold handleOutput. sends_walk. Qed.

End Budgets.

(** X13.  The converter sends nothing; the process command sends at most
    five requests for a URL and at most nine for a file (three uploads,
    one request for the signed URL, five OCR requests); the markdown
    command sends at most nine. *)
Theorem request_budgets (env : Cmd.Env) (f : Cmd.Flags) (input : gostring) :
  Runs.sends_at_most 0 (Cmd.convertJSONToMarkdown env f input)
  /\ Runs.sends_at_most 5 (Cmd.processURL env f input)
  /\ Runs.sends_at_most 9 (Cmd.processLocalFile env f input)
  /\ Runs.sends_at_most 9 (Cmd.processCmd_Run env f input)
  /\ Runs.sends_at_most 9 (Cmd.processAndConvertToMarkdown env f input).
Proof.
  assert (H5 : Runs.sends_at_most 5 (Cmd.processURL env f input)).
  { unfold Cmd.processURL. sends_walk; apply sends_handleOutput. }
  assert (H9 : Runs.sends_at_most 9 (Cmd.processLocalFile env f input)).
  { unfold Cmd.processLocalFile. sends_walk; apply sends_handleOutput. }
  split; [apply sends_convert|]. split; [exact H5|]. split; [exact H9|].
  split.
  - unfold Cmd.processCmd_Run. destruct (_ || _); [|exact H9].
    by apply (sends_weaken 5 9); [lia|].
  - unfold Cmd.processAndConvertToMarkdown. cbv zeta.
    sends_walk; apply sends_convert.
Qed.

(** *** The temporary file of the markdown command *)

Section TemporaryFile.
Import Cmd Doc Runs.
Variable env : Cmd.Env.

Lemma removes_deferred {A} name (body : M A) :
  emits (fun e => ~ is_Remove e) body ->
  removes_on_return (Some name) (deferred (emit (Remove name)) body).
Proof.
  intros Hb w o w' H. unfold deferred in H.
  destruct (body w) as [[a|code|] w1] eqn:E;
    destruct (Hb _ _ _ E) as (evs & Ht & HN).
  - injection H as <- <-. exists (evs ++ [Remove name]).
    split; [cbn; by rewrite Ht, app_assoc|]. by exists evs.
  - injection H as <- <-. by exists evs.
  - injection H as <- <-. exists (evs ++ [Remove name]).
    split; [cbn; by rewrite Ht, app_assoc|]. by exists evs.
Qed.

Lemma removes_nothing {A} (body : M A) :
  emits (fun e => ~ is_Remove e) body -> removes_on_return None body.
Proof.
  intros Hb w o w' H. destruct (Hb _ _ _ H) as (evs & Ht & HN).
  exists evs. split; [done|].
  destruct o; [|done|]; exists evs; by rewrite app_nil_r.
Qed.

(** The markdown command once its temporary file, if any, is made. *)
Lemma markdown_removes f fileOrURL w o w' :
  processAndConvertToMarkdown env f fileOrURL w = (o, w') ->
  exists evs,
    trace w' = trace w ++ evs
    /\ (forall code, o = Exit code -> Forall (fun e => ~ is_Remove e) evs)
    /\ (jsonOutputFile f = [] -> o = Return tt \/ o = Panic ->
        exists name evs0,
          CreateTemp_name env = Ok name
          /\ evs = CreateTemp name :: evs0 ++ [Remove name]
          /\ Forall (fun e => ~ is_Remove e) evs0).
Proof.
  intros H. unfold processAndConvertToMarkdown in H. cbv zeta in H.
  match type of H with
  | bind _ ?K _ = _ =>
      assert (Htail : forall tmp, removes_on_return tmp (K tmp))
  end.
  { intros [name|]; cbv beta iota;
      [apply removes_deferred|apply removes_nothing];
      emits_walk; try (intros [] ?; cbn in *; tauto); cbn; tauto. }
  destruct (decide (jsonOutputFile f = [])) as [Hj|Hj].
  - destruct (CreateTemp_name env) as [name|err] eqn:Ec.
    + rewrite bind_emit_ret in H.
      destruct (Htail (Some name) _ _ _ H) as (evs & Ht & Hcase).
      exists (CreateTemp name :: evs).
      split; [cbn in Ht; by rewrite Ht, <- app_assoc|]. split.
      * intros code ->. constructor; [by intros []|done].
      * intros _ [-> | ->]; destruct Hcase as (evs0 & -> & H0);
          by exists name, evs0.
    + rewrite bind_exit in H. injection H as <- <-.
      exists []. split; [by rewrite app_nil_r|]. split; [by constructor|].
      by intros _ [[=]|[=]].
  - rewrite bind_ret in H.
    destruct (Htail None _ _ _ H) as (evs & Ht & Hcase).
    exists evs. split; [done|]. split; [by intros code ->|done].
Qed.

Lemma markdown_keeps_json_file f fileOrURL :
  jsonOutputFile f <> [] ->
  emits (fun e => ~ is_Remove e)
        (processAndConvertToMarkdown env f fileOrURL).
Proof.
  intros Hj. unfold processAndConvertToMarkdown. cbv zeta.
  destruct (decide (jsonOutputFile f = [])) as [|_]; [done|].
  apply emits_bind_ret.
  emits_walk; try (intros [] ?; cbn in *; tauto); cbn; tauto.
Qed.

End TemporaryFile.

(** X14.  The markdown command removes its temporary file when it
    returns, as its last act, and removes nothing before; the same
    holds when the converter panics, since the removal is deferred.  A
    run that ends in [os.Exit] removes nothing: the temporary file, once
    made, is left behind.  With a JSON file asked for nothing is ever
    removed. *)
Theorem temporary_file_removed_on_return (env : Cmd.Env) (f : Cmd.Flags)
        (fileOrURL : gostring) (w w' : Cmd.world) (o : Cmd.outcome unit) :
  Cmd.processAndConvertToMarkdown env f fileOrURL w = (o, w') ->
  exists evs,
    Cmd.trace w' = Cmd.trace w ++ evs
    /\ (forall code,
          o = Cmd.Exit code -> Forall (fun e => ~ Runs.is_Remove e) evs)
    /\ (Cmd.jsonOutputFile f <> [] ->
        Forall (fun e => ~ Runs.is_Remove e) evs)
    /\ (Cmd.jsonOutputFile f = [] -> o = Cmd.Return tt ->
        exists name evs0,
          Cmd.CreateTemp_name env = Ok name
          /\ evs = Cmd.CreateTemp name :: evs0 ++ [Cmd.Remove name]
          /\ Forall (fun e => ~ Runs.is_Remove e) evs0)
    /\ (Cmd.jsonOutputFile f = [] -> o = Cmd.Panic ->
        exists name evs0,
          Cmd.CreateTemp_name env = Ok name
          /\ evs = Cmd.CreateTemp name :: evs0 ++ [Cmd.Remove name]
          /\ Forall (fun e => ~ Runs.is_Remove e) evs0).
Proof.
  intros H.
  destruct (markdown_removes env _ _ _ _ _ H) as (evs & Ht & He & Hr).
  exists evs. split; [done|]. split; [done|]. split; [|split].
  - intros Hj.
    destruct (markdown_keeps_json_file env f fileOrURL Hj _ _ _ H)
      as (evs' & Ht' & HN).
    rewrite Ht in Ht'. by apply app_inv_head in Ht' as ->.
  - intros Hj Ho. apply Hr; [done|by left].
  - intros Hj Ho. apply Hr; [done|by right].
Qed.

(** A page of a PDF at a URL, no JSON file asked for: the temporary
    file is made first and removed last.  So it is when an image ID
    that cannot be compiled makes the converter panic. *)
Lemma temporary_file_removed_on_return_witness :
  let bad := Sample.image [to_byte 255] "AAAA" in
  let good := Sample.files (Sample.response "" [Sample.page 0 "text" []])
                (Sample.client 0 [Sample.http 200 "{}"]) in
  let env := Sample.files (Sample.response "" [Sample.page 0 "text" [bad]])
               (Sample.client 0 [Sample.http 200 "{}"]) in
  let run := Cmd.processAndConvertToMarkdown good Sample.flags
               "https://example.org/scan.pdf" Cmd.start in
  let crash := Cmd.processAndConvertToMarkdown env
                 (Sample.with_images Sample.flags)
                 "https://example.org/scan.pdf" Cmd.start in
  (fst run = Cmd.Return tt
   /\ exists evs0,
       Cmd.trace (snd run) =
         Cmd.CreateTemp "/tmp/mistral-ocr-1.json"
         :: evs0 ++ [Cmd.Remove "/tmp/mistral-ocr-1.json"])
  /\ (fst crash = Cmd.Panic
      /\ exists evs0,
          Cmd.trace (snd crash) =
            Cmd.CreateTemp "/tmp/mistral-ocr-1.json"
            :: evs0 ++ [Cmd.Remove "/tmp/mistral-ocr-1.json"]).
Proof.
  intros bad good env run crash.
  assert (Hrun : fst run = Cmd.Return tt) by (by vm_compute).
  assert (Hcrash : fst crash = Cmd.Panic) by (by vm_compute).
  split; (split; [done|]).
  - destruct (temporary_file_removed_on_return good Sample.flags
                "https://example.org/scan.pdf" Cmd.start (snd run) (fst run))
      as (evs & Ht & _ & _ & Hr & _); [apply surjective_pairing|].
    destruct (Hr eq_refl Hrun) as (name & evs0 & [= <-] & -> & _).
    by exists evs0.
  - destruct (temporary_file_removed_on_return env
                (Sample.with_images Sample.flags)
                "https://example.org/scan.pdf" Cmd.start (snd crash)
                (fst crash))
      as (evs & Ht & _ & _ & _ & Hp); [apply surjective_pairing|].
    destruct (Hp eq_refl Hcrash) as (name & evs0 & [= <-] & -> & _).
    by exists evs0.
Defined.

(** *** Runs in which the API answers at once *)

Section Settled.
Import Mistral Spec Runs.
Variable env : Mistral.Env.
Variable APIKey : gostring.

Lemma length_eqb_nonempty (s : gostring) :
  s <> [] -> (length s =? 0)%nat = false.
Proof. by destruct s. Qed.

Lemma UploadFile_settled path size id w :
  Stat env path = Ok size ->
  size <= MaxFileSize ->
  upload_reply env (sent w) id ->
  UploadFile env APIKey path w = (Ok id, asked (upload_request APIKey path) w).
Proof.
  intros HS Hle (resp & Hn & H200 & Hb & Hu & Hid).
  rewrite (UploadFile_small _ _ _ _ _ HS Hle).
  unfold upload_maxRetries. cbn [upload_loop]. unfold bind at 1, send.
  rewrite Hn, H200. cbn [Z.eqb Pos.eqb negb].
  rewrite (length_eqb_nonempty _ Hb), Hu.
  by destruct (decide (id = [])).
Qed.

Lemma GetFileURL_settled fileID url w :
  url_reply env (sent w) url ->
  GetFileURL env APIKey fileID w =
    (Ok url, asked (url_request APIKey fileID) w).
Proof.
  intros (resp & Hn & H200 & Hu & Hne).
  unfold GetFileURL, bind, send. rewrite Hn, H200. cbn [Z.eqb Pos.eqb negb].
  rewrite Hu. by destruct (decide (url = [])).
Qed.

Lemma ProcessOCR_settled (docType : gostring) docSource b body w :
  docType = "document_url" \/ docType = "image_url" ->
  ocr_reply env (sent w) body ->
  ProcessOCR env APIKey docType docSource b w =
    (Ok body,
     asked (ocr_request APIKey (Doc.ocr_document docType docSource) b) w).
Proof.
  intros Hd (resp & Hn & H200 & <- & Hb & Hv).
  rewrite (ProcessOCR_supported _ _ _ _ _ _ Hd).
  unfold ocr_maxRetries. cbn [ocr_loop]. unfold bind at 1, send.
  rewrite Hn, H200. cbn [Z.eqb Pos.eqb negb].
  by rewrite (length_eqb_nonempty _ Hb), Hv.
Qed.

End Settled.

Section Pipelines.
Import Cmd Doc Runs.
Variable env : Cmd.Env.

Lemma bind_getAPIKey_key {B} f (k : gostring -> M B) w :
  the_key env f <> [] ->
  bind (getAPIKey env f) k w = k (the_key env f) w.
Proof.
  unfold the_key. intros Hk. rewrite bind_getAPIKey.
  destruct (decide (apiKey f <> [])); [done|].
  by destruct (decide (Getenv_MISTRAL_API_KEY env = [])).
Qed.

Lemma docTypeOf_supported input :
  docTypeOf env input = "document_url" \/ docTypeOf env input = "image_url".
Proof. unfold docTypeOf. destruct (_ || _); [by right|by left]. Qed.

Lemma bind_call_settled {A B} (m : Mistral.M A) (k : A -> M B) a r w :
  m (client_world w) = (a, Spec.asked r (client_world w)) ->
  bind (call m) k w = k a (requested r w).
Proof. intros H. rewrite bind_call, H. reflexivity. Qed.

End Pipelines.

(** X15.  The process command on a local file, when the API answers every
    request at once: the file is uploaded, the ID of the reply goes into
    the request for the signed URL, the signed URL is what the OCR is
    asked to read, with the type told from the name of the local file,
    and the body of the last reply is handed to [handleOutput]. *)
Theorem local_file_pipeline (env : Cmd.Env) (f : Cmd.Flags)
        (filePath id url body : gostring) (size : Z) (w : Cmd.world) :
  let api := Cmd.client_env env in
  let key := Runs.the_key env f in
  Cmd.NotExist env filePath = false ->
  key <> [] ->
  Mistral.Stat api filePath = Ok size ->
  size <= Mistral.MaxFileSize ->
  Runs.upload_reply api (Cmd.sent w) id ->
  Runs.url_reply api (S (Cmd.sent w)) url ->
  Runs.ocr_reply api (S (S (Cmd.sent w))) body ->
  Cmd.processLocalFile env f filePath w =
    Cmd.handleOutput env f body
      (Runs.requested
         (Mistral.ocr_request key
            (Doc.ocr_document (Doc.docTypeOf env filePath) url)
            (Cmd.includeImageBase64 f))
         (Runs.requested (Mistral.url_request key id)
            (Runs.requested (Mistral.upload_request key filePath) w))).
Proof.
  intros api key Hn Hk HS Hle Hup Hurl Hocr. subst api key.
  set (key := Runs.the_key env f) in *. unfold Cmd.processLocalFile.
  rewrite Hn, (bind_getAPIKey_key env) by done. cbv beta. fold key.
  rewrite (NewClient_key env _ Hk).
  rewrite (bind_call_settled _ _ (Ok id)
             (Mistral.upload_request key filePath))
    by by apply (UploadFile_settled _ key filePath size).
  cbv beta.
  rewrite (bind_call_settled _ _ (Ok url) (Mistral.url_request key id))
    by by apply GetFileURL_settled.
  cbv beta zeta.
  fold (Doc.docTypeOf env filePath).
  rewrite (bind_call_settled _ _ (Ok body)
             (Mistral.ocr_request key
                (Doc.ocr_document (Doc.docTypeOf env filePath) url)
                (Cmd.includeImageBase64 f)))
    by (apply ProcessOCR_settled; [apply docTypeOf_supported|done]).
  reflexivity.
Qed.

(** A scan whose extension is spelled with the capital I with a dot
    above (the bytes 0xC4 0xB0), which lower-casing turns into [.gif]:
    it is uploaded, located and read as an image, three requests in
    all, and the result is printed. *)
Lemma local_file_pipeline_witness :
  let env := Sample.files (Sample.response "" [])
               (Sample.client 1024 [Sample.http 200 "id=f1";
                                    Sample.http 200 "url=https://s/f1";
                                    Sample.http 200 "{}"]) in
  let scan : gostring := "a.g" ++ [to_byte 196; to_byte 176] ++ "f" in
  Cmd.processLocalFile env Sample.flags scan Cmd.start =
    (Cmd.Return tt,
     {| Cmd.sent := 3;
        Cmd.trace :=
          [Cmd.Net (Mistral.Send (Mistral.upload_request "key" scan));
           Cmd.Net (Mistral.Send (Mistral.url_request "key" "f1"));
           Cmd.Net (Mistral.Send
                      (Mistral.ocr_request "key"
                         (Doc.ocr_document "image_url" "https://s/f1")
                         false));
           Cmd.Println "{}"] |}).
Proof.
  intros env scan.
  rewrite (local_file_pipeline env Sample.flags scan "f1"
             "https://s/f1" "{}" 1024 Cmd.start);
    try reflexivity; try discriminate;
    eexists; repeat split; reflexivity || discriminate.
Defined.

Section MarkdownRuns.
Import Cmd Doc Runs.
Variable env : Cmd.Env.

Lemma markdown_url_json_run f (url : gostring) body w :
  HasPrefix url "http://" = true \/ HasPrefix url "https://" = true ->
  the_key env f <> [] ->
  jsonOutputFile f <> [] ->
  ocr_reply (client_env env) (sent w) body ->
  WriteFile_err env (jsonOutputFile f) body = None ->
  processAndConvertToMarkdown env f url w =
    convertJSONToMarkdown env f (jsonOutputFile f)
      (after [WriteFile (jsonOutputFile f) body]
         (requested
            (Mistral.ocr_request (the_key env f)
               (ocr_document (docTypeOf env url) url)
               (includeImageBase64 f))
            w)).
Proof.
  intros Hp Hk Hj Hocr Hw.
  assert (Hb : HasPrefix url "http://" || HasPrefix url "https://" = true)
    by (by destruct Hp as [-> | ->]; rewrite ?orb_true_r).
  unfold processAndConvertToMarkdown.
  destruct (decide (jsonOutputFile f = [])) as [|_]; [done|].
  rewrite bind_ret, (bind_getAPIKey_key env) by done. cbv beta zeta.
  rewrite (NewClient_key env _ Hk), Hb. fold (docTypeOf env url).
  rewrite (bind_call_settled _ _ (Ok body)
             (Mistral.ocr_request (the_key env f)
                (ocr_document (docTypeOf env url) url)
                (includeImageBase64 f)))
    by (apply ProcessOCR_settled; [apply docTypeOf_supported|done]).
  cbv beta.
  destruct Hocr as (_ & _ & _ & _ & Hne & _).
  by rewrite (length_eqb_nonempty _ Hne), bind_do_WriteFile, Hw.
Qed.

Lemma markdown_url_temp_run f (url : gostring) body name w :
  HasPrefix url "http://" = true \/ HasPrefix url "https://" = true ->
  the_key env f <> [] ->
  jsonOutputFile f = [] ->
  CreateTemp_name env = Ok name ->
  ocr_reply (client_env env) (sent w) body ->
  WriteFile_err env name body = None ->
  processAndConvertToMarkdown env f url w =
    deferred (emit (Remove name)) (convertJSONToMarkdown env f name)
      (after [WriteFile name body]
         (requested
            (Mistral.ocr_request (the_key env f)
               (ocr_document (docTypeOf env url) url)
               (includeImageBase64 f))
            (after [CreateTemp name] w))).
Proof.
  intros Hp Hk Hj Hc Hocr Hw.
  assert (Hb : HasPrefix url "http://" || HasPrefix url "https://" = true)
    by (by destruct Hp as [-> | ->]; rewrite ?orb_true_r).
  unfold processAndConvertToMarkdown.
  destruct (decide (jsonOutputFile f = [])) as [_|]; [|done].
  rewrite Hc, bind_emit_ret. cbv beta iota zeta. unfold deferred.
  rewrite (bind_getAPIKey_key env) by done. cbv beta zeta.
  rewrite (NewClient_key env _ Hk), Hb. fold (docTypeOf env url).
  rewrite (bind_call_settled _ _ (Ok body)
             (Mistral.ocr_request (the_key env f)
                (ocr_document (docTypeOf env url) url)
                (includeImageBase64 f)))
    by (apply ProcessOCR_settled; [apply docTypeOf_supported|done]).
  cbv beta.
  destruct Hocr as (_ & _ & _ & _ & Hne & _).
  by rewrite (length_eqb_nonempty _ Hne), bind_do_WriteFile, Hw.
Qed.

End MarkdownRuns.

(** X16.  The markdown command on a URL, when the API answers at once: the
    body of the reply is written to the JSON file, and what follows is
    the converter run on that very file.  Without a JSON file of the
    user's the temporary file takes its place: it is removed after a
    converter that returns or panics, and left where it is when the
    converter exits. *)
Theorem markdown_pipeline (env : Cmd.Env) (f : Cmd.Flags)
        (url body : gostring) (w : Cmd.world) :
  let req := Mistral.ocr_request (Runs.the_key env f)
               (Doc.ocr_document (Doc.docTypeOf env url) url)
               (Cmd.includeImageBase64 f) in
  HasPrefix url "http://" = true \/ HasPrefix url "https://" = true ->
  Runs.the_key env f <> [] ->
  Runs.ocr_reply (Cmd.client_env env) (Cmd.sent w) body ->
  (Cmd.jsonOutputFile f <> [] ->
   Cmd.WriteFile_err env (Cmd.jsonOutputFile f) body = None ->
   Cmd.processAndConvertToMarkdown env f url w =
     Cmd.convertJSONToMarkdown env f (Cmd.jsonOutputFile f)
       (Doc.after [Cmd.WriteFile (Cmd.jsonOutputFile f) body]
          (Runs.requested req w)))
  /\ (forall name o w',
        Cmd.jsonOutputFile f = [] ->
        Cmd.CreateTemp_name env = Ok name ->
        Cmd.WriteFile_err env name body = None ->
        Cmd.convertJSONToMarkdown env f name
          (Doc.after [Cmd.WriteFile name body]
             (Runs.requested req (Doc.after [Cmd.CreateTemp name] w)))
        = (o, w') ->
        (o = Cmd.Return tt ->
         Cmd.processAndConvertToMarkdown env f url w =
           (Cmd.Return tt, Doc.after [Cmd.Remove name] w'))
        /\ (forall code,
              o = Cmd.Exit code ->
              Cmd.processAndConvertToMarkdown env f url w =
                (Cmd.Exit code, w'))
        /\ (o = Cmd.Panic ->
            Cmd.processAndConvertToMarkdown env f url w =
              (Cmd.Panic, Doc.after [Cmd.Remove name] w'))).
Proof.
  intros req Hp Hk Hocr. split.
  - intros Hj Hw. by apply markdown_url_json_run.
  - intros name o w' Hj Hc Hw Hrun.
    rewrite (markdown_url_temp_run env f url body name w) by done.
    unfold Cmd.deferred. fold req. rewrite Hrun.
    split; [by intros ->|]. split; [by intros code ->|by intros ->].
Qed.

(** A page at a URL that ends in [.g], the capital I with a dot above
    and [f], converted with a JSON file of the user's: the request
    names an image. *)
Lemma markdown_pipeline_witness :
  let env := Sample.files (Sample.response "" [Sample.page 0 "text" []])
               (Sample.client 0 [Sample.http 200 "{}"]) in
  let f := {| Cmd.apiKey := "key"; Cmd.jsonOutputFile := "scan.json";
              Cmd.includeImageBase64 := false;
              Cmd.markdownDir := "markdown_output"; Cmd.markdownFile := [];
              Cmd.includeImages := false; Cmd.includePageBreaks := true;
              Cmd.titleFromFilename := true; Cmd.singleFile := false |} in
  let url : gostring :=
    "https://x/a.g" ++ [to_byte 196; to_byte 176] ++ "f" in
  Cmd.processAndConvertToMarkdown env f url Cmd.start =
    (Cmd.Return tt,
     {| Cmd.sent := 1;
        Cmd.trace :=
          [Cmd.Net (Mistral.Send
                      (Mistral.ocr_request "key"
                         (Doc.ocr_document "image_url" url) false));
           Cmd.WriteFile "scan.json" "{}";
           Cmd.MkdirAll "markdown_output";
           Cmd.WriteFile "markdown_output/0.md" "text"] |}).
Proof.
  intros env f url.
  destruct (markdown_pipeline env f url "{}" Cmd.start) as [H _].
  - by right.
  - discriminate.
  - eexists. repeat split; reflexivity || discriminate.
  - rewrite H; [reflexivity|discriminate|reflexivity].
Defined.

(** *** What the converter and [handleOutput] do to the files *)

Section Files.
Import Cmd Doc Runs.
Variable env : Cmd.Env.

Lemma multi_loop_done f before contents rest w :
  Forall2 (page_done env f) before contents ->
  multi_loop env f (before ++ rest) w =
    multi_loop env f rest
      (after (zip_with (page_write env f) before contents) w).
Proof.
  intros H. revert w. induction H as [|page content before contents [Hc Hw] _ IH];
    intros w.
  - by rewrite after_nil.
  - cbn [app multi_loop zip_with]. rewrite Hc, bind_do_WriteFile, Hw.
    rewrite IH, after_after. reflexivity.
Qed.

Lemma convert_multi_run f jsonFile data ocrResponse w :
  singleFile f = false ->
  ReadFile env jsonFile = Ok data ->
  Unmarshal env data = Ok ocrResponse ->
  MkdirAll_err env (markdownDir f) = None ->
  convertJSONToMarkdown env f jsonFile w =
    multi_loop env f (Pages ocrResponse)
      (after [MkdirAll (markdownDir f)] w).
Proof.
  intros Hs Hr Hu Hm. unfold convertJSONToMarkdown.
  by rewrite Hr, Hu, bind_do_MkdirAll, Hm, Hs.
Qed.

Lemma convert_first_event f jsonFile w o w' evs :
  convertJSONToMarkdown env f jsonFile w = (o, w') ->
  trace w' = trace w ++ evs ->
  evs <> [] ->
  exists data ocrResponse rest,
    ReadFile env jsonFile = Ok data
    /\ Unmarshal env data = Ok ocrResponse
    /\ evs = MkdirAll (markdownDir f) :: rest.
Proof.
  intros H Ht Hne. unfold convertJSONToMarkdown in H.
  assert (Hstop : (Exit 1 : outcome unit, w) = (o, w') -> False).
  { intros [= <- <-]. rewrite <- (app_nil_r (trace w)) in Ht at 1.
    apply app_inv_head in Ht. by destruct Hne. }
  destruct (ReadFile env jsonFile) as [data|err] eqn:Hr;
    [|by destruct Hstop].
  destruct (Unmarshal env data) as [ocrResponse|err] eqn:Hu;
    [|by destruct Hstop].
  exists data, ocrResponse. rewrite bind_do_MkdirAll in H. cbv beta in H.
  match type of H with
  | ?m _ = _ => assert (Hm : emits (fun _ => True) m)
  end.
  { emits_walk; try done. apply multi_loop_emits_files. intros; exact I. }
  destruct (Hm _ _ _ H) as (rest & Hrest & _). exists rest.
  split; [done|]. split; [done|]. cbn in Hrest.
  rewrite Ht, <- app_assoc in Hrest. by apply app_inv_head in Hrest.
Qed.

End Files.

(** X17.  The converter touches no file before it has read and decoded its
    input: when reading or decoding fails it exits with code 1 and has
    done nothing, and the first thing any run does is to make the output
    directory.  When that fails it exits with code 1 as well. *)
Theorem convertJSONToMarkdown_checks_first (env : Cmd.Env) (f : Cmd.Flags)
        (jsonFile : gostring) (w : Cmd.world) :
  (forall err,
      Cmd.ReadFile env jsonFile = Fail err ->
      Cmd.convertJSONToMarkdown env f jsonFile w = (Cmd.Exit 1, w))
  /\ (forall data err,
        Cmd.ReadFile env jsonFile = Ok data ->
        Cmd.Unmarshal env data = Fail err ->
        Cmd.convertJSONToMarkdown env f jsonFile w = (Cmd.Exit 1, w))
  /\ (forall data ocrResponse err,
        Cmd.ReadFile env jsonFile = Ok data ->
        Cmd.Unmarshal env data = Ok ocrResponse ->
        Cmd.MkdirAll_err env (Cmd.markdownDir f) = Some err ->
        Cmd.convertJSONToMarkdown env f jsonFile w =
          (Cmd.Exit 1, Doc.after [Cmd.MkdirAll (Cmd.markdownDir f)] w))
  /\ (forall o w' evs,
        Cmd.convertJSONToMarkdown env f jsonFile w = (o, w') ->
        Cmd.trace w' = Cmd.trace w ++ evs ->
        evs <> [] ->
        exists data ocrResponse rest,
          Cmd.ReadFile env jsonFile = Ok data
          /\ Cmd.Unmarshal env data = Ok ocrResponse
          /\ evs = Cmd.MkdirAll (Cmd.markdownDir f) :: rest).
Proof.
  split; [|split; [|split]].
  - intros err Hr. unfold Cmd.convertJSONToMarkdown. by rewrite Hr.
  - intros data err Hr Hu. unfold Cmd.convertJSONToMarkdown.
    by rewrite Hr, Hu.
  - intros data ocrResponse err Hr Hu Hm. unfold Cmd.convertJSONToMarkdown.
    by rewrite Hr, Hu, bind_do_MkdirAll, Hm.
  - intros o w' evs. apply convert_first_event.
Qed.

(** X18.  Multi-file mode, with or without images, writes the pages one by
    one in the order of the payload, each with its content, and stops
    at the first page that cannot be done: when the file of a page
    cannot be written the converter exits with code 1, and when an image
    ID of the page makes [regexp.MustCompile] panic the program ends
    there.  The files of the pages before stay written, the pages after
    are not looked at. *)
Theorem multi_file_stops_at_first_failure (env : Cmd.Env) (f : Cmd.Flags)
        (jsonFile data : gostring) (ocrResponse : Cmd.OCRResponse)
        (before : list Cmd.Page) (contents : list gostring)
        (w : Cmd.world) :
  Cmd.singleFile f = false ->
  Cmd.ReadFile env jsonFile = Ok data ->
  Cmd.Unmarshal env data = Ok ocrResponse ->
  Cmd.MkdirAll_err env (Cmd.markdownDir f) = None ->
  Forall2 (Runs.page_done env f) before contents ->
  let done :=
    Cmd.MkdirAll (Cmd.markdownDir f)
    :: zip_with (Runs.page_write env f) before contents in
  (Cmd.Pages ocrResponse = before ->
   Cmd.convertJSONToMarkdown env f jsonFile w =
     (Cmd.Return tt, Doc.after done w))
  /\ (forall page rest content err,
        Cmd.Pages ocrResponse = before ++ page :: rest ->
        Cmd.page_content env f page = Some content ->
        Cmd.WriteFile_err env
          (Cmd.Join env (Cmd.markdownDir f)
                    (itoa (Cmd.Index page) ++ ".md")) content = Some err ->
        Cmd.convertJSONToMarkdown env f jsonFile w =
          (Cmd.Exit 1,
           Doc.after (done ++ [Runs.page_write env f page content]) w))
  /\ (forall page rest,
        Cmd.Pages ocrResponse = before ++ page :: rest ->
        Cmd.page_content env f page = None ->
        Cmd.convertJSONToMarkdown env f jsonFile w =
          (Cmd.Panic, Doc.after done w)).
Proof.
  intros Hs Hr Hu Hm HF done.
  rewrite (convert_multi_run env f jsonFile data ocrResponse w Hs Hr Hu Hm).
  split; [|split].
  - intros ->. rewrite <- (app_nil_r before) at 1.
    rewrite (multi_loop_done env f before contents [] _ HF), after_after.
    reflexivity.
  - intros page rest content err -> Hc Hw.
    rewrite (multi_loop_done env f before contents _ _ HF), after_after.
    cbn [Cmd.multi_loop]. rewrite Hc, bind_do_WriteFile, Hw, after_after.
    reflexivity.
  - intros page rest -> Hc.
    rewrite (multi_loop_done env f before contents _ _ HF), after_after.
    cbn [Cmd.multi_loop]. by rewrite Hc.
Qed.

(** Three pages, and a disk on which the file of the second one cannot
    be written: the first file is there, the third is never tried. *)
Lemma multi_file_stops_at_first_failure_witness :
  let ocrResponse :=
    Sample.response "" [Sample.page 0 "one" []; Sample.page 1 "two" [];
                        Sample.page 2 "three" []] in
  let base := Sample.files ocrResponse (Sample.client 0 []) in
  let env :=
    {| Cmd.client_env := Cmd.client_env base;
       Cmd.Getenv_MISTRAL_API_KEY := Cmd.Getenv_MISTRAL_API_KEY base;
       Cmd.NotExist := Cmd.NotExist base;
       Cmd.ReadFile := Cmd.ReadFile base;
       Cmd.Unmarshal := Cmd.Unmarshal base;
       Cmd.Indent := Cmd.Indent base;
       Cmd.MkdirAll_err := Cmd.MkdirAll_err base;
       Cmd.WriteFile_err := fun name _ =>
         if decide (name = "markdown_output/1.md")
         then Some ("disk full" : gostring) else None;
       Cmd.CreateTemp_name := Cmd.CreateTemp_name base;
       Cmd.Join := Cmd.Join base;
       Cmd.Dir := Cmd.Dir base;
       Cmd.range_order := Cmd.range_order base;
       Cmd.name_len := Cmd.name_len base;
       Cmd.To_LowerCase := Cmd.To_LowerCase base |} in
  Cmd.convertJSONToMarkdown env Sample.flags "scan.json" Cmd.start =
    (Cmd.Exit 1,
     Doc.after [Cmd.MkdirAll "markdown_output";
                Cmd.WriteFile "markdown_output/0.md" "one";
                Cmd.WriteFile "markdown_output/1.md" "two"] Cmd.start).
Proof.
  intros ocrResponse base env.
  refine (proj1 (proj2 (multi_file_stops_at_first_failure env Sample.flags
                          "scan.json" "{}" ocrResponse
                          [Sample.page 0 "one" []] ["one" : gostring]
                          Cmd.start _ _ _ _ _))
                (Sample.page 1 "two" []) [Sample.page 2 "three" []] "two"
                "disk full" _ _ _);
    try reflexivity.
  repeat constructor.
Defined.

(** X19.  [handleOutput] sends the result to one place.  Without an output
    file the indented JSON is printed and no file is touched.  With an
    output file nothing is printed: the directory of the file is made
    unless it is the current one, and the file is written, with the
    indented JSON as its content.  JSON that cannot be indented ends the
    command with code 1 before anything is done. *)
Theorem handleOutput_destination (env : Cmd.Env) (f : Cmd.Flags)
        (data : gostring) (w : Cmd.world) :
  (forall err,
      Cmd.Indent env data = Fail err ->
      Cmd.handleOutput env f data w = (Cmd.Exit 1, w))
  /\ (forall prettyJSON,
        Cmd.Indent env data = Ok prettyJSON ->
        Cmd.jsonOutputFile f = [] ->
        Cmd.handleOutput env f data w =
          (Cmd.Return tt, Doc.after [Cmd.Println prettyJSON] w))
  /\ (forall prettyJSON,
        Cmd.Indent env data = Ok prettyJSON ->
        Cmd.jsonOutputFile f <> [] ->
        let dir := Cmd.Dir env (Cmd.jsonOutputFile f) in
        let made := if decide (dir <> ".") then [Cmd.MkdirAll dir] else [] in
        let file := Cmd.WriteFile (Cmd.jsonOutputFile f) prettyJSON in
        exists o evs,
          Cmd.handleOutput env f data w = (o, Doc.after evs w)
          /\ (evs = made \/ evs = made ++ [file])
          /\ (o = Cmd.Return tt -> evs = made ++ [file])
          /\ (Cmd.MkdirAll_err env dir = None ->
              Cmd.WriteFile_err env (Cmd.jsonOutputFile f) prettyJSON = None ->
              o = Cmd.Return tt)).
Proof.
  split; [|split].
  - intros err Hi. unfold Cmd.handleOutput. by rewrite Hi.
  - intros prettyJSON Hi Hj. unfold Cmd.handleOutput. rewrite Hi.
    destruct (decide (Cmd.jsonOutputFile f <> [])) as [Hn|_]; [done|].
    reflexivity.
  - intros prettyJSON Hi Hj dir made file. unfold Cmd.handleOutput.
    rewrite Hi. destruct (decide (Cmd.jsonOutputFile f <> [])) as [_|]; [|done].
    cbv zeta. fold dir. subst made.
    destruct (decide (dir <> ".")) as [Hd|Hd].
    + unfold Cmd.bind at 1. rewrite bind_do_MkdirAll.
      destruct (Cmd.MkdirAll_err env dir) as [err|].
      * exists (Cmd.Exit 1), [Cmd.MkdirAll dir]. split; [done|].
        split; [by left|]. by split.
      * cbn [Cmd.ret]. rewrite bind_do_WriteFile.
        destruct (Cmd.WriteFile_err env _ _) as [err|].
        -- exists (Cmd.Exit 1), ([Cmd.MkdirAll dir] ++ [file]).
           rewrite after_after. split; [done|]. split; [by right|].
           split; [done|]. by intros _ [=].
        -- exists (Cmd.Return tt), ([Cmd.MkdirAll dir] ++ [file]).
           rewrite after_after. split; [done|]. split; [by right|]. done.
    + rewrite bind_ret, bind_do_WriteFile.
      destruct (Cmd.WriteFile_err env _ _) as [err|].
      * exists (Cmd.Exit 1), [file]. split; [done|]. split; [by right|].
        split; [done|]. by intros _ [=].
      * exists (Cmd.Return tt), [file]. split; [done|]. split; [by right|].
        done.
Qed.

(** *** The document of the markdown command, and the convert command *)

(** X20.  The markdown command in single-file mode, on a URL and without a
    JSON file of the user's: when the payload has no title and the title
    is to come from the file name, it comes from the name of the
    temporary file, which is the file the converter reads, and not from
    the document the user named. *)
Theorem markdown_title_from_temporary_file (env : Cmd.Env) (f : Cmd.Flags)
        (url body name : gostring) (ocrResponse : Cmd.OCRResponse)
        (contents : list gostring) (w : Cmd.world) :
  HasPrefix url "http://" = true \/ HasPrefix url "https://" = true ->
  Runs.the_key env f <> [] ->
  Cmd.jsonOutputFile f = [] ->
  Cmd.CreateTemp_name env = Ok name ->
  Runs.ocr_reply (Cmd.client_env env) (Cmd.sent w) body ->
  Cmd.singleFile f = true ->
  Cmd.titleFromFilename f = true ->
  Cmd.ReadFile env name = Ok body ->
  Cmd.Unmarshal env body = Ok ocrResponse ->
  Cmd.Title (Cmd.Metadata ocrResponse) = [] ->
  (forall path, Cmd.MkdirAll_err env path = None) ->
  (forall file content, Cmd.WriteFile_err env file content = None) ->
  Forall2 (fun page content => Cmd.page_content env f page = Some content)
          (Cmd.Pages ocrResponse) contents ->
  exists title rest w' evs,
    Cmd.processAndConvertToMarkdown env f url w = (Cmd.Return tt, w')
    /\ Cmd.trace w' = Cmd.trace w ++ evs
    /\ Doc.written evs =
         [(name, body);
          (Cmd.Join env (Cmd.markdownDir f) (Doc.single_name f),
           "# " ++ title ++ nl ++ nl ++ rest)]
    /\ Base name = title ++ Ext (Base name).
Proof.
  intros Hp Hk Hj Hc Hocr Hs Ht Hr Hu Hti Hm Hw HF.
  rewrite (markdown_url_temp_run env f url body name w) by done.
  unfold Cmd.deferred.
  rewrite (convert_single_run env f name body ocrResponse contents) by done.
  exists (TrimSuffix (Base name) (Ext (Base name))).
  eexists. eexists.
  exists ([Cmd.CreateTemp name;
           Cmd.Net (Mistral.Send
                      (Mistral.ocr_request (Runs.the_key env f)
                         (Doc.ocr_document (Doc.docTypeOf env url) url)
                         (Cmd.includeImageBase64 f)));
           Cmd.WriteFile name body]
          ++ Doc.directories env f
          ++ [Cmd.WriteFile (Cmd.Join env (Cmd.markdownDir f)
                                      (Doc.single_name f))
                (Doc.single_document f name ocrResponse contents);
              Cmd.Remove name]).
  split; [reflexivity|]. split; [|split].
  - unfold Cmd.emit, Doc.after, Runs.requested. cbn [Cmd.trace Cmd.sent].
    rewrite <- !app_assoc. reflexivity.
  - unfold Doc.directories, Doc.written, Doc.single_document,
      Cmd.document_title.
    rewrite (decide_False (P := Cmd.Title _ <> [])), Ht by (by intros []).
    destruct (decide (Cmd.markdownFile f <> []));
      [destruct (decide (Cmd.Dir env (Cmd.markdownFile f) <> "."))|];
      cbn; rewrite <- ?app_assoc; reflexivity.
  - destruct (Ext_suffix (Base name)) as [stem Hstem].
    rewrite Hstem at 2. rewrite TrimSuffix_app. exact Hstem.
Qed.

(** A scan at a URL: the document is named after the temporary file. *)
Lemma markdown_title_from_temporary_file_witness :
  let ocrResponse := Sample.response "" [Sample.page 0 "text" []] in
  let env := Sample.files ocrResponse
               (Sample.client 0 [Sample.http 200 "{}"]) in
  let f := Cmd.set_singleFile true Sample.flags in
  exists rest w' evs,
    Cmd.processAndConvertToMarkdown env f "https://example.org/scan.pdf"
                                    Cmd.start = (Cmd.Return tt, w')
    /\ Cmd.trace w' = evs
    /\ Doc.written evs =
         [("/tmp/mistral-ocr-1.json" : gostring, "{}" : gostring);
          ("markdown_output/document.md" : gostring,
           "# mistral-ocr-1" ++ nl ++ nl ++ rest)].
Proof.
  intros ocrResponse env f.
  destruct (markdown_title_from_temporary_file env f
              "https://example.org/scan.pdf" "{}" "/tmp/mistral-ocr-1.json"
              ocrResponse ["text" : gostring] Cmd.start)
    as (title & rest & w' & evs & Hrun & Htr & Hw & Hname);
    try reflexivity; try discriminate.
  - by right.
  - eexists. repeat split; reflexivity || discriminate.
  - repeat constructor.
  - exists rest, w', evs. split; [exact Hrun|]. split; [exact Htr|].
    rewrite Hw. do 3 f_equal.
    change (Base "/tmp/mistral-ocr-1.json")
      with ("mistral-ocr-1" ++ ".json" : gostring) in Hname.
    change (Ext ("mistral-ocr-1" ++ ".json")) with (".json" : gostring)
      in Hname.
    apply app_inv_tail in Hname. by rewrite <- Hname.
Defined.

(** X21.  The convert command with [--output-file]: whether or not
    [--single-file] was given, it writes one document, at the path of
    the output file inside the output directory, and no file per
    page. *)
Theorem convert_command_output_file (env : Cmd.Env) (f : Cmd.Flags)
        (jsonFile data : gostring) (ocrResponse : Cmd.OCRResponse)
        (contents : list gostring) (w : Cmd.world) :
  Cmd.markdownFile f <> [] ->
  Cmd.ReadFile env jsonFile = Ok data ->
  Cmd.Unmarshal env data = Ok ocrResponse ->
  (forall path, Cmd.MkdirAll_err env path = None) ->
  (forall file content, Cmd.WriteFile_err env file content = None) ->
  Forall2 (fun page content => Cmd.page_content env f page = Some content)
          (Cmd.Pages ocrResponse) contents ->
  exists evs,
    Cli.convertCmd_Execute env f [jsonFile] w =
      (Cmd.Return tt, Doc.after evs w)
    /\ Doc.written evs =
         [(Cmd.Join env (Cmd.markdownDir f) (Cmd.markdownFile f),
           Doc.single_document f jsonFile ocrResponse contents)].
Proof.
  intros Ho Hr Hu Hm Hw HF. unfold Cli.convertCmd_Execute.
  assert (Hpre : Cmd.convertCmd_PreRun f = Cmd.set_singleFile true f)
    by (unfold Cmd.convertCmd_PreRun; by rewrite decide_True).
  rewrite Hpre. eexists. split.
  - by apply (convert_single_run env _ jsonFile data ocrResponse contents).
  - unfold Doc.directories, Doc.written, Doc.single_name.
    cbn [Cmd.markdownFile Cmd.set_singleFile Cmd.markdownDir].
    destruct (decide (Cmd.markdownFile f <> [])) as [_|]; [|done].
    destruct (decide (Cmd.Dir env (Cmd.markdownFile f) <> "."));
      reflexivity.
Qed.

(** Two pages, [--output-file report.md] and no [--single-file]. *)
Lemma convert_command_output_file_witness :
  let ocrResponse :=
    Sample.response "Scan" [Sample.page 0 "one" []; Sample.page 1 "two" []] in
  let env := Sample.files ocrResponse (Sample.client 0 []) in
  let f := Sample.with_output_file "report.md" Sample.flags in
  exists evs doc,
    Cli.convertCmd_Execute env f ["scan.json" : gostring] Cmd.start =
      (Cmd.Return tt, Doc.after evs Cmd.start)
    /\ Doc.written evs = [("markdown_output/report.md" : gostring, doc)].
Proof.
  intros ocrResponse env f.
  destruct (convert_command_output_file env f "scan.json" "{}" ocrResponse
              ["one" : gostring; "two" : gostring] Cmd.start)
    as (evs & Hrun & Hw); try reflexivity; try discriminate.
  - repeat constructor.
  - exists evs. eexists. split; [exact Hrun|exact Hw].
Defined.

(** *** Image references: identifiers that cannot be compiled, and
        placeholders that are not there *)

Section References.
Import Cmd Doc.
Variable env : Cmd.Env.

Lemma replace_loop_None entries :
  forall content,
    replace_loop env entries content = None
    <-> exists id data, (id, data) ∈ entries /\ ValidString id = false.
Proof.
  induction entries as [|[id data] entries IH]; intros content.
  - split; [discriminate|]. intros (id & data & H & _).
    by apply elem_of_nil in H.
  - cbn [replace_loop]. unfold MustCompile.
    destruct (ValidString id) eqn:Hv.
    + rewrite IH. split.
      * intros (id' & data' & Hin & Hv'). exists id', data'.
        split; [by right|done].
      * intros (id' & data' & Hin & Hv'). exists id', data'.
        apply elem_of_cons in Hin as [[= -> ->]|Hin]; [congruence|done].
    + split; [|done]. intros _. exists id, data. split; [left|done].
Qed.

Lemma imageMap_registered images id :
  is_Some (imageMap images !! id)
  <-> exists img, img ∈ images /\ ID img = id /\ ImageBase64 img <> [].
Proof.
  rewrite imageMap_lookup, fmap_is_Some. split.
  - intros [img Hl]. exists img. apply last_Some_elem_of in Hl.
    apply list_elem_of_In, filter_In in Hl as [Hin Hd].
    apply list_elem_of_In in Hin. unfold with_data in Hd.
    apply andb_true_iff in Hd as [H1 H2].
    apply bool_decide_eq_true in H1, H2. done.
  - intros (img & Hin & Hid & Hd).
    assert (Hf : img ∈ List.filter (with_data id) images).
    { apply list_elem_of_In, filter_In. split; [by apply list_elem_of_In|].
      unfold with_data. apply andb_true_iff.
      split; by apply bool_decide_eq_true. }
    destruct (last (List.filter (with_data id) images)) as [x|] eqn:E;
      [by exists x|].
    apply last_None in E. rewrite E in Hf. by apply elem_of_nil in Hf.
Qed.

Lemma replaceAll_absent lit repl :
  forall src,
    ~ Spec.includes src lit -> replaceAll lit repl 0 src = src.
Proof.
  induction src as [|c src IH]; intros H; [done|].
  rewrite replaceAll_miss.
  - f_equal. apply IH. intros (before & after & ->).
    apply H. by exists (c :: before), after.
  - destruct (HasPrefix (c :: src) lit) eqn:E; [|done].
    apply HasPrefix_iff in E as [t E]. destruct H. exists [], t. by rewrite E.
Qed.

Lemma replace_loop_absent entries content :
  (forall id data, (id, data) ∈ entries ->
                   ValidString id = true
                   /\ ~ Spec.includes content (placeholder id)) ->
  replace_loop env entries content = Some content.
Proof.
  induction entries as [|[id data] entries IH]; intros H; [done|].
  cbn [replace_loop]. unfold MustCompile.
  destruct (H id data) as [Hv Hn]; [left|]. rewrite Hv.
  unfold ReplaceAllString. rewrite replaceAll_absent by done.
  apply IH. intros id' data' Hin. apply (H id' data'). by right.
Qed.

Lemma range_order_elem_of m id data :
  range_order env m ≡ₚ map_to_list m ->
  (id, data) ∈ range_order env m <-> m !! id = Some data.
Proof. intros ->. apply elem_of_map_to_list. Qed.

End References.

(** X22.  With images included, [replaceImageReferences] panics exactly when
    an image of the list that carries data has an ID that is not valid
    UTF-8: [regexp.MustCompile] refuses the expression made of it.  The
    content plays no part in this, and an image without data is never
    compiled.  (Stated for IDs shorter than 2^20 bytes; package regexp
    also refuses expressions it finds too large.) *)
Theorem replaceImageReferences_panics_iff (env : Cmd.Env) (f : Cmd.Flags)
        (content : gostring) (images : list Cmd.OCRResponse_Image) :
  Cmd.includeImages f = true ->
  (forall m, Cmd.range_order env m ≡ₚ map_to_list m) ->
  (forall img, img ∈ images -> Z.of_nat (length (Cmd.ID img)) < 1048576) ->
  Cmd.replaceImageReferences env f content images = None
  <-> exists img,
      img ∈ images /\ Cmd.ImageBase64 img <> []
      /\ ValidString (Cmd.ID img) = false.
Proof.
  intros Hi Hperm _. unfold Cmd.replaceImageReferences. rewrite Hi.
  cbn [negb orb]. destruct images as [|img0 images].
  - split; [discriminate|]. intros (img & Hin & _).
    by apply elem_of_nil in Hin.
  - cbn [length Nat.eqb]. rewrite replace_loop_None. split.
    + intros (id & data & Hin & Hv).
      apply range_order_elem_of in Hin; [|apply Hperm].
      destruct (proj1 (imageMap_registered (img0 :: images) id))
        as (img & Himg & <- & Hd); [by eexists|].
      by exists img.
    + intros (img & Hin & Hd & Hv).
      destruct (proj2 (imageMap_registered (img0 :: images) (Cmd.ID img)))
        as [data Hdata]; [by exists img|].
      exists (Cmd.ID img), data. split; [|done].
      by apply range_order_elem_of.
Qed.

(** An image whose ID holds the byte 0xFF. *)
Lemma replaceImageReferences_panics_iff_witness :
  let env := Sample.files (Sample.response "" []) (Sample.client 0 []) in
  let f := Sample.with_images Sample.flags in
  let bad := {| Cmd.ID := [ascii_of_nat 255]; Cmd.ImageBase64 := "AAAA" |} in
  Cmd.replaceImageReferences env f "no image here" [bad] = None.
Proof.
  intros env f bad.
  apply (replaceImageReferences_panics_iff env f "no image here" [bad]).
  - reflexivity.
  - reflexivity.
  - intros img Hin. apply list_elem_of_singleton in Hin as ->. reflexivity.
  - exists bad. split; [left|]. split; [discriminate|reflexivity].
Defined.

(** X23.  Content in which no placeholder of a listed image occurs comes out
    as it went in: whatever the IDs and the data are made of, as long
    as the IDs are valid UTF-8.  (Stated for content that is valid
    UTF-8 and IDs shorter than 2^20 bytes.) *)
Theorem absent_placeholders_leave_content (env : Cmd.Env) (f : Cmd.Flags)
        (content : gostring) (images : list Cmd.OCRResponse_Image) :
  (forall m, Cmd.range_order env m ≡ₚ map_to_list m) ->
  ValidString content = true ->
  (forall img,
      img ∈ images -> Cmd.ImageBase64 img <> [] ->
      ValidString (Cmd.ID img) = true
      /\ Z.of_nat (length (Cmd.ID img)) < 1048576
      /\ ~ Spec.includes content (placeholder (Cmd.ID img))) ->
  Cmd.replaceImageReferences env f content images = Some content.
Proof.
  intros Hperm _ H. unfold Cmd.replaceImageReferences.
  destruct (_ || _); [done|]. apply replace_loop_absent.
  intros id data Hin. apply range_order_elem_of in Hin; [|apply Hperm].
  destruct (proj1 (imageMap_registered images id))
    as (img & Himg & <- & Hd); [by eexists|].
  destruct (H img Himg Hd) as (Hv & _ & Hn). done.
Qed.

(** Text without any image reference, and an image with data. *)
Lemma absent_placeholders_leave_content_witness :
  let env := Sample.files (Sample.response "" []) (Sample.client 0 []) in
  let f := Sample.with_images Sample.flags in
  let images := [{| Cmd.ID := "img-0.jpeg"; Cmd.ImageBase64 := "AAAA" |}] in
  Cmd.replaceImageReferences env f "plain text" images =
    Some ("plain text" : gostring).
Proof.
  intros env f images.
  apply (absent_placeholders_leave_content env f "plain text" images).
  - reflexivity.
  - reflexivity.
  - intros img Hin _. apply list_elem_of_singleton in Hin as ->.
    split; [reflexivity|]. split; [reflexivity|].
    intros (before & after & E).
    assert (Hb : Doc.bang ∈ ("plain text" : gostring)).
    { rewrite E. apply elem_of_app. right. left. }
    exact (bool_decide_eq_false_1
             (Doc.bang ∈ ("plain text" : gostring)) eq_refl Hb).
Defined.

(** *** Single-file mode when something goes wrong *)

Section AllOrNothing.
Import Cmd Doc Runs.
Variable env : Cmd.Env.

Lemma written_directories f : written (directories env f) = [].
Proof.
  unfold directories, written.
  destruct (decide (markdownFile f <> []));
    [destruct (decide (Dir env (markdownFile f) <> "."))|]; reflexivity.
Qed.

Lemma written_app evs1 evs2 :
  written (evs1 ++ evs2) = written evs1 ++ written evs2.
Proof. unfold written. apply omap_app. Qed.

(** X24.  In single-file mode the converter writes one file at most, the
    document, and it writes it last: all pages are put together before
    anything is written, so a page that makes the program panic leaves
    no document behind.  A run that returns has written the document,
    and whenever the converter gives up it exits with code 1. *)
Theorem single_file_all_or_nothing (f : Flags) (jsonFile : gostring)
        (w w' : world) (o : outcome unit) :
  singleFile f = true ->
  convertJSONToMarkdown env f jsonFile w = (o, w') ->
  exists evs,
    w' = after evs w
    /\ (forall code, o = Exit code -> code = 1)
    /\ (written evs = []
        \/ exists doc,
            written evs = [(Join env (markdownDir f) (single_name f), doc)]
            /\ o <> Panic)
    /\ (o = Return tt ->
        exists doc,
          written evs = [(Join env (markdownDir f) (single_name f), doc)]).
Proof.
  intros Hs H. unfold convertJSONToMarkdown in H.
  assert (Hexit : forall evs,
             written evs = [] ->
             (Exit 1 : outcome unit, after evs w) = (o, w') ->
             exists evs,
               w' = after evs w
               /\ (forall code, o = Exit code -> code = 1)
               /\ (written evs = []
                   \/ exists doc,
                       written evs =
                         [(Join env (markdownDir f) (single_name f), doc)]
                       /\ o <> Panic)
               /\ (o = Return tt ->
                   exists doc,
                     written evs =
                       [(Join env (markdownDir f) (single_name f), doc)])).
  { intros evs Hw [= <- <-]. exists evs. split; [done|].
    split; [by intros code [= <-]|]. split; [by left|done]. }
  destruct (ReadFile env jsonFile) as [data|err];
    [|apply (Hexit []); [done|by rewrite after_nil]].
  destruct (Unmarshal env data) as [ocrResponse|err];
    [|apply (Hexit []); [done|by rewrite after_nil]].
  rewrite bind_do_MkdirAll in H.
  destruct (MkdirAll_err env (markdownDir f)) as [err|];
    [by apply (Hexit [MkdirAll (markdownDir f)])|].
  rewrite Hs in H. cbv zeta in H.
  destruct (single_loop _ _ _ _ _ _) as [combined|].
  2:{ injection H as <- <-. exists [MkdirAll (markdownDir f)].
      split; [done|]. split; [done|]. split; [by left|done]. }
  assert (Hwrite : forall evs,
             written evs = [] ->
             (err <- do_WriteFile env
                       (Join env (markdownDir f) (single_name f)) combined;;
              match err with
              | Some _ => exit 1
              | None => ret tt
              end) (after evs w) = (o, w') ->
             exists evs,
               w' = after evs w
               /\ (forall code, o = Exit code -> code = 1)
               /\ (written evs = []
                   \/ exists doc,
                       written evs =
                         [(Join env (markdownDir f) (single_name f), doc)]
                       /\ o <> Panic)
               /\ (o = Return tt ->
                   exists doc,
                     written evs =
                       [(Join env (markdownDir f) (single_name f), doc)])).
  { intros evs Hw Hrun. rewrite bind_do_WriteFile, after_after in Hrun.
    eexists. split; [|split; [|split]].
    - destruct (WriteFile_err env _ _); by injection Hrun as <- <-.
    - destruct (WriteFile_err env _ _); injection Hrun as <- <-;
        by intros code [= <-].
    - right. exists combined. rewrite written_app, Hw.
      split; [done|]. by destruct (WriteFile_err env _ _); injection Hrun as <- <-.
    - intros _. exists combined. by rewrite written_app, Hw. }
  unfold single_name in *.
  destruct (decide (markdownFile f <> [])) as [Hmf|Hmf].
  - destruct (decide (Dir env (markdownFile f) <> ".")) as [Hd|Hd].
    + rewrite !bind_bind, bind_do_MkdirAll in H. cbv beta in H.
      rewrite after_after in H.
      destruct (MkdirAll_err env (Join env (markdownDir f) _)) as [err|].
      * rewrite bind_exit in H.
        by apply (Hexit ([MkdirAll (markdownDir f)]
                         ++ [MkdirAll (Join env (markdownDir f)
                                         (Dir env (markdownFile f)))])).
      * rewrite !bind_ret in H.
        by apply (Hwrite ([MkdirAll (markdownDir f)]
                          ++ [MkdirAll (Join env (markdownDir f)
                                          (Dir env (markdownFile f)))])).
    + rewrite bind_bind, !bind_ret in H.
      by apply (Hwrite [MkdirAll (markdownDir f)]).
  - rewrite bind_ret in H.
    by apply (Hwrite [MkdirAll (markdownDir f)]).
Qed.

End AllOrNothing.

(** Two pages, the second with an image whose ID cannot be compiled:
    the program panics, and no document is written. *)
Lemma single_file_all_or_nothing_witness :
  let bad := Sample.image [ascii_of_nat 255] "AAAA" in
  let ocrResponse :=
    Sample.response "" [Sample.page 0 "one" []; Sample.page 1 "two" [bad]] in
  let env := Sample.files ocrResponse (Sample.client 0 []) in
  let f := Cmd.set_singleFile true (Sample.with_images Sample.flags) in
  let run := Cmd.convertJSONToMarkdown env f "scan.json" Cmd.start in
  fst run = Cmd.Panic
  /\ exists evs, snd run = Doc.after evs Cmd.start /\ Doc.written evs = [].
Proof.
  intros bad ocrResponse env f run.
  assert (Hp : fst run = Cmd.Panic) by (by vm_compute).
  split; [exact Hp|].
  destruct (single_file_all_or_nothing env f "scan.json" Cmd.start (snd run)
              (fst run)) as (evs & Hw & _ & [Hn|(doc & _ & Hno)] & _).
  - reflexivity.
  - apply surjective_pairing.
  - by exists evs.
  - by destruct Hno.
Defined.
